(** * Keypirinha PythonLib: the file filter expression language

    A shallow embedding of [filefilter.py]: the rule parser
    ([EXPRESSION_REGEX], [create_filter]), the path normaliser
    ([Filter.norm_path], [Filter.norm_case]) and the filter classes
    [PathRegexFilter], [PathTailFilter], [PathShellFilter],
    [ExtensionsFilter] and [WinAttrFilter], with their [match], [__hash__],
    [__eq__] and [__str__] methods.

    Conventions of the embedding.
    - A Python [str] is a [list ascii]; the model covers 8-bit text, the
      code points of Latin-1, with Python's rules for white space and letter
      case on them.  [bytes] and path-like candidates, which the source
      first decodes to [str], are not modelled.
    - A call that can raise returns a [result]; the exception carries the
      class and, for [ValueError], the message of the source.
    - [os.path] is [posixpath] or [ntpath] according to the platform; both
      are embedded (from CPython 3.6/3.7, the interpreter generation the file
      targets) behind the [platform] parameter, and [os.sep],
      [IS_WINDOWS] follow it.
    - The lazily filled [hash_cache] attribute is threaded explicitly:
      [__hash__] returns the hash together with the updated object. *)

From Stdlib Require Import ZArith Ascii String List Bool Lia.
From stdpp Require Import base decidable list gmap strings.

Local Open Scope Z_scope.
Local Open Scope list_scope.

(** ** Python strings *)

Definition str := list ascii.

Definition py (s : string) : str := list_ascii_of_string s.

Module PyStr.

Definition code (a : ascii) : N := N_of_ascii a.

(** [str.isspace] on one character, which is also the [\s] of [re] and
    what [str.split] and [str.strip] take for white space: TAB..CR, FS..US,
    SPACE, and in the upper half NEL (U+0085) and NBSP (U+00A0). *)
Definition isspace (a : ascii) : bool :=
  let n := code a in
  ((9 <=? n) && (n <=? 13) || (28 <=? n) && (n <=? 32)
   || (n =? 133) || (n =? 160))%N.

(** The characters that [str.lower] changes: [A]..[Z], and the capital
    letters of the upper half, U+00C0..U+00DE without the multiplication
    sign U+00D7.  Each is 32 below its lower case letter. *)
Definition isupper (a : ascii) : bool :=
  let n := code a in
  ((65 <=? n) && (n <=? 90)
   || (192 <=? n) && (n <=? 222) && negb (n =? 215))%N.

Definition lower_char (a : ascii) : ascii :=
  if isupper a then ascii_of_N (code a + 32) else a.

(** [s.lower()] *)
Definition lower (s : str) : str := map lower_char s.

(** [s.replace(a, b)] for one-character [a] and [b] *)
Definition replace (a b : ascii) (s : str) : str :=
  map (fun c => if Ascii.eqb c a then b else c) s.

(** [s.lstrip(chars)] *)
Fixpoint lstrip_by (p : ascii -> bool) (s : str) : str :=
  match s with
  | c :: s' => if p c then lstrip_by p s' else s
  | [] => []
  end.

Definition rstrip_by (p : ascii -> bool) (s : str) : str :=
  rev (lstrip_by p (rev s)).

(** [s.strip()] *)
Definition strip (s : str) : str := rstrip_by isspace (lstrip_by isspace s).

(** [p in s] for a one-character [p] *)
Definition contains (c : ascii) (s : str) : bool :=
  existsb (Ascii.eqb c) s.

(** [s.count(c)] *)
Definition count (c : ascii) (s : str) : nat :=
  length (filter (fun x => Ascii.eqb x c = true) s).

(** [s.startswith(p)] *)
Fixpoint startswith (s p : str) {struct p} : bool :=
  match p, s with
  | [], _ => true
  | a :: p', b :: s' => Ascii.eqb a b && startswith s' p'
  | _ :: _, [] => false
  end.

(** [s.endswith(p)] *)
Definition endswith (s p : str) : bool := startswith (rev s) (rev p).

Definition eqb (s t : str) : bool := bool_decide (s = t).

(** [s.split(c)]: the pieces between the occurrences of [c]; never empty. *)
Fixpoint split (c : ascii) (s : str) : list str :=
  match s with
  | [] => [[]]
  | a :: s' =>
      if Ascii.eqb a c then [] :: split c s'
      else match split c s' with
           | w :: ws => (a :: w) :: ws
           | [] => [[a]]
           end
  end.

(** The pieces of [s] between maximal runs of separator characters, as
    [re.split] of a one-character class under [+] returns them: a leading
    or a trailing run yields an empty first or last piece. *)
Fixpoint split_runs (p : ascii -> bool) (s : str) : list str :=
  match s with
  | [] => [[]]
  | a :: s' =>
      if p a then
        match s' with
        | b :: _ => if p b then split_runs p s' else [] :: split_runs p s'
        | [] => [[]; []]
        end
      else match split_runs p s' with
           | w :: ws => (a :: w) :: ws
           | [] => [[a]]
           end
  end.

Definition nonempty (s : str) : bool :=
  match s with [] => false | _ => true end.

(** [s.split()]: the maximal runs of non-whitespace characters. *)
Definition split_ws (s : str) : list str :=
  List.filter nonempty (split_runs isspace s).

(** [sep.join(l)] *)
Fixpoint join (sep : str) (l : list str) : str :=
  match l with
  | [] => []
  | [w] => w
  | w :: ws => w ++ sep ++ join sep ws
  end.

(** Index of the first [c] in [s], counted from [i]. *)
Fixpoint find_from (c : ascii) (s : str) (i : nat) : option nat :=
  match s with
  | [] => None
  | a :: s' => if Ascii.eqb a c then Some i else find_from c s' (S i)
  end.

(** [s.find(c, start)]: [None] stands for the [-1] of Python. *)
Definition find (c : ascii) (s : str) (start : nat) : option nat :=
  find_from c (drop start s) start.

(** Index of the last [c] in [s], counted from [i]. *)
Fixpoint rfind_from (c : ascii) (s : str) (i : nat) : option nat :=
  match s with
  | [] => None
  | a :: s' =>
      match rfind_from c s' (S i) with
      | Some j => Some j
      | None => if Ascii.eqb a c then Some i else None
      end
  end.

(** A slice bound as Python clips it: a negative bound counts from the end,
    and the result is kept within [0, len]. *)
Definition clip (len : nat) (i : Z) : nat :=
  let i' := if i <? 0 then i + Z.of_nat len else i in
  Z.to_nat (Z.min (Z.max i' 0) (Z.of_nat len)).

(** [s.rfind(c, start, end)] *)
Definition rfind (c : ascii) (s : str) (start end_ : Z) : option nat :=
  let lo := clip (length s) start in
  let hi := clip (length s) end_ in
  rfind_from c (drop lo (take hi s)) lo.

(** [s[i:]] *)
Definition slice_from (s : str) (i : Z) : str := drop (clip (length s) i) s.

End PyStr.

(** ** Exceptions *)

Inductive exn : Type :=
| ValueError (msg : string)
| AttributeError (msg : string)
| AssertionError
| IndexError
| NotImplementedError
| ReError.

Inductive result (A : Type) : Type :=
| Ok (a : A)
| Raise (e : exn).
Arguments Ok {A} a.
Arguments Raise {A} e.

Global Instance result_bind : MBind result :=
  fun A B (f : A -> result B) (r : result A) =>
    match r with
    | Ok a => f a
    | Raise e => Raise e
    end.

Global Instance result_ret : MRet result := fun A a => Ok a.

(** [assert b] *)
Definition py_assert (b : bool) : result unit :=
  if b then Ok tt else Raise AssertionError.

(** [s[0]] *)
Definition item0 (s : str) : result ascii :=
  match s with
  | c :: _ => Ok c
  | [] => Raise IndexError
  end.

(** [s.rindex(c, start, end)] raises where [s.rfind] returns [-1]. *)
Definition rindex (c : ascii) (s : str) (start end_ : Z) : result Z :=
  match PyStr.rfind c s start end_ with
  | Some i => Ok (Z.of_nat i)
  | None => Raise (ValueError "substring not found")
  end.

(** ** Regular expressions

    The fragment of Python's [re] that the file relies on for its own
    patterns: [EXPRESSION_REGEX] and the expressions that
    [fnmatch.translate] produces.  Repetition is greedy and applies to one
    character class, as in every such pattern; matching backtracks in the
    order of the [re] engine, so the first successful path gives the
    groups. *)

Module Re.

Inductive item : Type :=
| Lit (a : ascii)
| Range (lo hi : ascii)
| Space.                              (* \s *)

Inductive cset : Type :=
| Any                                 (* . under DOTALL *)
| Dot                                 (* . : anything but a newline *)
| OneOf (items : list item)           (* [...] *)
| NoneOf (items : list item).         (* [^...] *)

Inductive regex : Type :=
| Empty
| Char (c : cset)
| Repeat (min : nat) (c : cset)       (* c{min,}: c* is Repeat 0, c+ is Repeat 1 *)
| Seq (r1 r2 : regex)
| Opt (r : regex)                     (* (?:r)? *)
| Group (n : nat) (r : regex)         (* the n-th parenthesis *)
| NotBehind (c : cset)                (* (?<!c) *)
| Bol                                 (* ^ *)
| Eol                                 (* $ *)
| EndZ.                               (* \Z *)

Definition item_mem (i : item) (a : ascii) : bool :=
  match i with
  | Lit b => Ascii.eqb a b
  | Range lo hi =>
      ((PyStr.code lo <=? PyStr.code a) && (PyStr.code a <=? PyStr.code hi))%N
  | Space => PyStr.isspace a
  end.

Definition mem (c : cset) (a : ascii) : bool :=
  match c with
  | Any => true
  | Dot => negb (Ascii.eqb a "010")
  | OneOf l => existsb (fun i => item_mem i a) l
  | NoneOf l => negb (existsb (fun i => item_mem i a) l)
  end.

(** The position of the engine: the text already consumed (last character
    first), the text ahead, and the groups set so far. *)
Record mstate : Type := MState {
  seen : str;
  ahead : str;
  groups : list (nat * str)
}.

Definition outcome := option (list (nat * str)).

Fixpoint repeat_greedy (c : cset) (min cnt : nat) (sn ah : str)
    (gs : list (nat * str)) (k : mstate -> outcome) : outcome :=
  let stop := if (min <=? cnt)%nat then k (MState sn ah gs) else None in
  match ah with
  | a :: ah' =>
      if mem c a then
        match repeat_greedy c min (S cnt) (a :: sn) ah' gs k with
        | Some g => Some g
        | None => stop
        end
      else stop
  | [] => stop
  end.

(** The text between two positions of one run. *)
Definition between (st st' : mstate) : str :=
  rev (take (length (seen st') - length (seen st))%nat (seen st')).

Fixpoint run (r : regex) (st : mstate) (k : mstate -> outcome) : outcome :=
  match r with
  | Empty => k st
  | Char c =>
      match ahead st with
      | a :: ah' =>
          if mem c a then k (MState (a :: seen st) ah' (groups st)) else None
      | [] => None
      end
  | Repeat min c => repeat_greedy c min 0 (seen st) (ahead st) (groups st) k
  | Seq r1 r2 => run r1 st (fun st' => run r2 st' k)
  | Opt r1 =>
      match run r1 st k with
      | Some g => Some g
      | None => k st
      end
  | Group n r1 =>
      run r1 st (fun st' =>
        k (MState (seen st') (ahead st') ((n, between st st') :: groups st')))
  | NotBehind c =>
      match seen st with
      | a :: _ => if mem c a then None else k st
      | [] => k st
      end
  | Bol => match seen st with [] => k st | _ :: _ => None end
  | Eol =>
      match ahead st with
      | [] => k st
      | [a] => if Ascii.eqb a "010" then k st else None
      | _ => None
      end
  | EndZ => match ahead st with [] => k st | _ :: _ => None end
  end.

(** [re.compile(r).match(s)]: the groups of the match, or [None]. *)
Definition match_ (r : regex) (s : str) : outcome :=
  run r (MState [] s []) (fun st => Some (groups st)).

(** [m.group(n)]: [None] when the group took no part in the match. *)
Fixpoint group (gs : list (nat * str)) (n : nat) : option str :=
  match gs with
  | [] => None
  | (m, s) :: gs' => if (m =? n)%nat then Some s else group gs' n
  end.

Fixpoint seq (rs : list regex) : regex :=
  match rs with
  | [] => Empty
  | [r] => r
  | r :: rs' => Seq r (seq rs')
  end.

End Re.

(** ** [fnmatch] and [glob] *)

Module Fnmatch.

(** The characters of a bracket expression that starts right after a
    ["["], and the count of characters up to and including its closing
    ["]"]; [None] when the bracket is never closed.  A ["!"] and then a
    ["]"] met first belong to the expression. *)
Definition bracket (s : str) : option (str * nat) :=
  let j0 := match s with "!"%char :: _ => 1%nat | _ => 0%nat end in
  let j1 := match drop j0 s with "]"%char :: _ => S j0 | _ => j0 end in
  match PyStr.find "]" s j1 with
  | Some j => Some (take j s, S j)
  | None => None
  end.

(** The members of a set, as [re] reads them between the brackets: [a-b]
    is a range, a ["-"] right before the closing bracket is itself. *)
Fixpoint set_items (s : str) : result (list Re.item) :=
  match s with
  | [] => Ok []
  | c1 :: s1 =>
      match s1 with
      | "-"%char :: [] => Ok [Re.Lit c1; Re.Lit "-"]
      | "-"%char :: c2 :: s2 =>
          if (PyStr.code c2 <? PyStr.code c1)%N then Raise ReError
          else l ← set_items s2; Ok (Re.Range c1 c2 :: l)
      | _ => l ← set_items s1; Ok (Re.Lit c1 :: l)
      end
  end.

(** The regular expression of ["[" stuff "]"]: a leading ["!"] negates
    the set. *)
Definition set_of (stuff : str) : result Re.regex :=
  match stuff with
  | "!"%char :: s' => l ← set_items s'; Ok (Re.Char (Re.NoneOf l))
  | _ => l ← set_items stuff; Ok (Re.Char (Re.OneOf l))
  end.

(** The pieces of the translation of [pat]; [skip] counts the characters
    of a bracket expression still to pass over. *)
Fixpoint pieces (pat : str) (skip : nat) : result (list Re.regex) :=
  match pat with
  | [] => Ok []
  | c :: pat' =>
      match skip with
      | S n => pieces pat' n
      | O =>
          if Ascii.eqb c "*" then
            l ← pieces pat' 0%nat; Ok (Re.Repeat 0 Re.Any :: l)
          else if Ascii.eqb c "?" then
            l ← pieces pat' 0%nat; Ok (Re.Char Re.Any :: l)
          else if Ascii.eqb c "[" then
            match bracket pat' with
            | None =>
                l ← pieces pat' 0%nat; Ok (Re.Char (Re.OneOf [Re.Lit "["]) :: l)
            | Some (stuff, n) =>
                r ← set_of stuff; l ← pieces pat' n; Ok (r :: l)
            end
          else
            l ← pieces pat' 0%nat; Ok (Re.Char (Re.OneOf [Re.Lit c]) :: l)
      end
  end.

(** [re.compile(fnmatch.translate(pat))]: [(?s:...)\Z]. *)
Definition translate (pat : str) : result Re.regex :=
  l ← pieces pat 0%nat; Ok (Re.Seq (Re.seq l) Re.EndZ).

End Fnmatch.

Module Glob.

(** [glob.has_magic(s)]: one of [*], [?], ["["] occurs in [s]. *)
Definition has_magic (s : str) : bool :=
  existsb (fun c => Ascii.eqb c "*" || Ascii.eqb c "?" || Ascii.eqb c "[") s.

End Glob.

(** ** [os.path]

    [posixpath] and [ntpath], as far as the file calls them: [normpath],
    [splitdrive], [isabs], [basename] and [normcase]. *)

Module PosixPath.

Definition sep : ascii := "/".
Definition curdir : str := py ".".
Definition pardir : str := py "..".

Definition normcase (s : str) : str := s.

Definition isabs (s : str) : bool := PyStr.startswith s [sep].

Definition splitdrive (p : str) : str * str := ([], p).

Definition basename (p : str) : str :=
  match PyStr.rfind sep p 0 (Z.of_nat (length p)) with
  | Some i => drop (S i) p
  | None => p
  end.

(** One turn of the loop of [normpath] over the components. *)
Definition norm_step (initial_slashes : nat) (new_comps : list str)
    (comp : str) : list str :=
  if PyStr.eqb comp [] || PyStr.eqb comp curdir then new_comps
  else if negb (PyStr.eqb comp pardir)
          || ((initial_slashes =? 0)%nat && bool_decide (new_comps = []))
          || bool_decide (last new_comps = Some pardir)
  then new_comps ++ [comp]
  else if negb (bool_decide (new_comps = [])) then removelast new_comps
  else new_comps.

Definition normpath (path : str) : str :=
  if PyStr.eqb path [] then curdir
  else
    let initial_slashes :=
      if PyStr.startswith path [sep] then
        if PyStr.startswith path [sep; sep]
           && negb (PyStr.startswith path [sep; sep; sep])
        then 2%nat else 1%nat
      else 0%nat in
    let comps :=
      fold_left (norm_step initial_slashes) (PyStr.split sep path) [] in
    let path' := repeat sep initial_slashes ++ PyStr.join [sep] comps in
    if PyStr.eqb path' [] then curdir else path'.

End PosixPath.

Module NtPath.

Definition sep : ascii := "\".
Definition altsep : ascii := "/".
Definition colon : ascii := ":".
Definition curdir : str := py ".".
Definition pardir : str := py "..".

Definition is_sep (c : ascii) : bool := Ascii.eqb c sep || Ascii.eqb c altsep.

Definition normcase (s : str) : str :=
  PyStr.lower (PyStr.replace altsep sep s).

Definition splitdrive (p : str) : str * str :=
  if (2 <=? length p)%nat then
    let normp := PyStr.replace altsep sep p in
    if PyStr.eqb (take 2 normp) [sep; sep]
       && negb (PyStr.eqb (take 1 (drop 2 normp)) [sep])
    then
      match PyStr.find sep normp 2 with
      | None => ([], p)
      | Some index =>
          match PyStr.find sep normp (S index) with
          | Some index2 =>
              if (index2 =? S index)%nat then ([], p)
              else (take index2 p, drop index2 p)
          | None => (p, [])
          end
      end
    else if PyStr.eqb (take 1 (drop 1 normp)) [colon] then
      (take 2 p, drop 2 p)
    else ([], p)
  else ([], p).

Definition isabs (s : str) : bool :=
  match snd (splitdrive s) with
  | c :: _ => is_sep c
  | [] => false
  end.

(** The index beyond the last separator of [p], searched downwards from
    [i]. *)
Fixpoint beyond_last_sep (p : str) (i : nat) : nat :=
  match i with
  | O => O
  | S j =>
      match p !! j with
      | Some c => if is_sep c then i else beyond_last_sep p j
      | None => beyond_last_sep p j
      end
  end.

(** [split(p)[1]] *)
Definition basename (p : str) : str :=
  let p' := snd (splitdrive p) in
  drop (beyond_last_sep p' (length p')) p'.

(** One turn of the loop of [normpath]: [comps] holds the components
    already settled, those below the index [i] of the source. *)
Definition norm_step (prefix : str) (comps : list str) (comp : str)
    : list str :=
  if PyStr.eqb comp [] || PyStr.eqb comp curdir then comps
  else if PyStr.eqb comp pardir then
    if negb (bool_decide (comps = []))
       && negb (bool_decide (last comps = Some pardir))
    then removelast comps
    else if bool_decide (comps = []) && PyStr.endswith prefix [sep]
    then comps
    else comps ++ [comp]
  else comps ++ [comp].

Definition special_prefix (path : str) : bool :=
  PyStr.startswith path (py "\\.\") || PyStr.startswith path (py "\\?\").

Definition normpath (path : str) : str :=
  if special_prefix path then path
  else
    let path1 := PyStr.replace altsep sep path in
    let '(prefix, path2) := splitdrive path1 in
    let '(prefix, path3) :=
      if PyStr.startswith path2 [sep]
      then (prefix ++ [sep], PyStr.lstrip_by (Ascii.eqb sep) path2)
      else (prefix, path2) in
    let comps := fold_left (norm_step prefix) (PyStr.split sep path3) [] in
    let comps :=
      if bool_decide (prefix = []) && bool_decide (comps = [])
      then [curdir] else comps in
    prefix ++ PyStr.join [sep] comps.

End NtPath.

(** The platform the interpreter runs on: [os.name == 'nt'] or not. *)
Inductive platform : Type := Posix | Windows.

Definition IS_WINDOWS (pf : platform) : bool :=
  match pf with Windows => true | Posix => false end.

Module OsPath.

Definition sep (pf : platform) : ascii :=
  match pf with Posix => PosixPath.sep | Windows => NtPath.sep end.

Definition normpath (pf : platform) : str -> str :=
  match pf with Posix => PosixPath.normpath | Windows => NtPath.normpath end.

Definition splitdrive (pf : platform) : str -> str * str :=
  match pf with
  | Posix => PosixPath.splitdrive
  | Windows => NtPath.splitdrive
  end.

Definition isabs (pf : platform) : str -> bool :=
  match pf with Posix => PosixPath.isabs | Windows => NtPath.isabs end.

Definition basename (pf : platform) : str -> str :=
  match pf with Posix => PosixPath.basename | Windows => NtPath.basename end.

Definition normcase (pf : platform) : str -> str :=
  match pf with Posix => PosixPath.normcase | Windows => NtPath.normcase end.

End OsPath.

(** ** Hashing

    The built-in [hash] is applied to tuples of strings, booleans, integers
    and frozensets.  Its values are left open: [py_hash] is a parameter
    of every definition that hashes. *)

Inductive pyval : Type :=
| VStr (s : str)
| VBool (b : bool)
| VInt (z : Z)
| VFrozenset (s : gset str).

(** [hash] of a tuple. *)
Definition hash_fn := list pyval -> Z.

(** [cls.attr] on a class object, for the two attributes that the file
    reads from one: [__name__] is the name of the class, and no filter class
    defines [name]. *)
Definition class_getattr (cls attr : string) : result pyval :=
  if String.eqb attr "__name__" then Ok (VStr (py cls))
  else Raise (AttributeError ("type object '" +:+ cls
                              +:+ "' has no attribute '" +:+ attr +:+ "'")).

(** ** [EXPRESSION_REGEX] *)

Definition props_chars : Re.cset :=
  Re.OneOf [Re.Range "a" "z"; Re.Lit "_"; Re.Lit ":"].

Definition EXPRESSION_REGEX : Re.regex :=
  Re.seq
    [ Re.Bol; Re.Repeat 0 (Re.OneOf [Re.Space]);
      Re.Opt (Re.Seq (Re.Group 1 (Re.Char (Re.OneOf [Re.Lit "+"; Re.Lit "-"])))
                     (Re.Repeat 1 (Re.OneOf [Re.Space])));
      Re.Opt (Re.seq [ Re.Opt (Re.Char (Re.OneOf [Re.Lit ":"]));
                       Re.Group 2 (Re.Repeat 2 props_chars);
                       Re.Char (Re.OneOf [Re.Lit ":"]);
                       Re.Repeat 1 (Re.OneOf [Re.Space]) ]);
      Re.Group 3 (Re.Repeat 1 Re.Dot);
      Re.NotBehind (Re.OneOf [Re.Space]); Re.Repeat 0 (Re.OneOf [Re.Space]);
      Re.Eol ].

(** ** [class Filter] *)

Module Filter.

(** [Filter.norm_path(path, ispattern)] *)
Definition norm_path (pf : platform) (path : str) (ispattern : bool)
    : result str :=
  let path := OsPath.normpath pf path in
  if ispattern then
    let '(drive, path) := OsPath.splitdrive pf path in
    if PyStr.nonempty drive || OsPath.isabs pf path then
      Raise (ValueError "absolute path in filter")
    else if negb (PyStr.nonempty path) then
      Raise (ValueError "invalid path format")
    else Ok path
  else Ok path.

(** [Filter.norm_case(s)] *)
Definition norm_case (pf : platform) (s : str) : str :=
  if IS_WINDOWS pf then OsPath.normcase pf s else PyStr.lower s.

End Filter.

(** The sign that opens every [__str__]. *)
Definition sign_str (inclusive : bool) : str :=
  if inclusive then py "+ " else py "- ".

(** ** [class PathRegexFilter]

    The pattern is compiled by [re]; the compiler is the parameter
    [re_compile], which gives for a pattern and the [IGNORECASE] flag either
    the text of the [re.error] or the truth value of [.match] on every
    string. *)

Definition re_compiler := str -> bool -> string + (str -> bool).

Module PathRegexFilter.

Record t : Type := Build {
  hash_cache : option Z;
  inclusive : bool;
  pattern : str;
  case_sensitive : bool;
  nodrive : bool;
  matcher : str -> bool
}.

Definition __init__ (re_compile : re_compiler)
    (pattern : str) (case_sensitive nodrive inclusive : bool) : result t :=
  let ignorecase := negb case_sensitive in
  match re_compile pattern ignorecase with
  | inr m => Ok (Build None inclusive pattern case_sensitive nodrive m)
  | inl exc => Raise (ValueError ("invalid regex: " +:+ exc))
  end.

(** [__hash__] reads [self.__class__.name]. *)
Definition __hash__ (py_hash : hash_fn) (self : t) : result (Z * t) :=
  match hash_cache self with
  | None =>
      name ← class_getattr "PathRegexFilter" "name";
      let h := py_hash [ name; VBool (inclusive self);
                         VBool (case_sensitive self); VStr (pattern self);
                         VBool (nodrive self) ] in
      Ok (h, Build (Some h) (inclusive self) (pattern self)
                   (case_sensitive self) (nodrive self) (matcher self))
  | Some h => Ok (h, self)
  end.

(** [_PathFilter_Base.__eq__] between two objects of this class. *)
Definition __eq__ (py_hash : hash_fn) (self other : t)
    : result (bool * t * t) :=
  '(h1, self) ← __hash__ py_hash self;
  '(h2, other) ← __hash__ py_hash other;
  Ok (h1 =? h2, self, other).

Definition __str__ (self : t) : str :=
  let props := py "regex:" in
  let props := if case_sensitive self then props ++ py "case:" else props in
  let props := if nodrive self then props ++ py "nodrive:" else props in
  let props := props ++ py " " in
  sign_str (inclusive self) ++ props ++ pattern self.

(** [match], from [if not path] on: the part after the [nodrive] block. *)
Definition match_tail (pf : platform) (self : t) (path : str) : bool :=
  if negb (PyStr.nonempty path) then false
  else
    let path :=
      if negb (case_sensitive self) then Filter.norm_case pf path
      else path in
    matcher self path.

Definition match_ (pf : platform) (self : t) (path : str) : result bool :=
  path ← Filter.norm_path pf path false;
  if nodrive self then
    let path := snd (OsPath.splitdrive pf path) in
    if negb (PyStr.nonempty path) then Ok false
    else
      c ← item0 path;
      let path :=
        if negb (Ascii.eqb c (OsPath.sep pf)) then OsPath.sep pf :: path
        else path in
      Ok (match_tail pf self path)
  else Ok (match_tail pf self path).

End PathRegexFilter.


(** ** [class PathTailFilter] *)

Module PathTailFilter.

Record t : Type := Build {
  hash_cache : option Z;
  inclusive : bool;
  pattern : str;
  case_sensitive : bool;
  seps_count : nat
}.

Definition __init__ (pf : platform)
    (pattern : str) (case_sensitive inclusive : bool) : result t :=
  pattern ← Filter.norm_path pf pattern true;
  _ ← py_assert (negb (Glob.has_magic pattern));
  let pattern :=
    if negb case_sensitive then Filter.norm_case pf pattern else pattern in
  c ← item0 pattern;
  let pattern :=
    if negb (Ascii.eqb c (OsPath.sep pf)) then OsPath.sep pf :: pattern
    else pattern in
  Ok (Build None inclusive pattern case_sensitive
            (PyStr.count (OsPath.sep pf) pattern)).

(** [__hash__] reads [self.__class__.__name__]. *)
Definition __hash__ (py_hash : hash_fn) (self : t) : result (Z * t) :=
  match hash_cache self with
  | None =>
      name ← class_getattr "PathTailFilter" "__name__";
      let h := py_hash [ name; VBool (inclusive self);
                         VBool (case_sensitive self); VStr (pattern self);
                         VInt (Z.of_nat (seps_count self)) ] in
      Ok (h, Build (Some h) (inclusive self) (pattern self)
                   (case_sensitive self) (seps_count self))
  | Some h => Ok (h, self)
  end.

(** [_PathFilter_Base.__eq__] between two objects of this class. *)
Definition __eq__ (py_hash : hash_fn) (self other : t)
    : result (bool * t * t) :=
  '(h1, self) ← __hash__ py_hash self;
  '(h2, other) ← __hash__ py_hash other;
  Ok (h1 =? h2, self, other).

Definition __str__ (self : t) : str :=
  let s := sign_str (inclusive self) in
  let s := if case_sensitive self then s ++ py "case: " else s in
  s ++ pattern self.

(** [for idx in range(n): pos = path.rindex(os.sep, 0, pos - 1)] *)
Fixpoint tail_pos (sep : ascii) (path : str) (n : nat) (pos : Z) : result Z :=
  match n with
  | O => Ok pos
  | S n' => pos' ← rindex sep path 0 (pos - 1); tail_pos sep path n' pos'
  end.

(** [match], from [delta = len(path) - len(self.pattern)] on. *)
Definition compare_tail (self : t) (path : str) : bool :=
  let delta := Z.of_nat (length path) - Z.of_nat (length (pattern self)) in
  if 0 <? delta then PyStr.endswith path (pattern self)
  else if delta =? 0 then PyStr.eqb path (pattern self)
  else false.

Definition match_ (pf : platform) (self : t) (path : str) : result bool :=
  path ← Filter.norm_path pf path false;
  if (seps_count self =? 0)%nat || (seps_count self =? 1)%nat then
    let path := OsPath.basename pf path in
    let path :=
      if negb (case_sensitive self) then Filter.norm_case pf path else path in
    let path := OsPath.sep pf :: path in
    Ok (compare_tail self path)
  else
    pos ← tail_pos (OsPath.sep pf) path (seps_count self)
                   (Z.of_nat (length path));
    let path := if 0 <? pos then PyStr.slice_from path pos else path in
    let path :=
      if negb (case_sensitive self) then Filter.norm_case pf path else path in
    c ← item0 path;
    let path :=
      if negb (Ascii.eqb c (OsPath.sep pf)) then OsPath.sep pf :: path
      else path in
    Ok (compare_tail self path).

End PathTailFilter.

(** ** [class PathShellFilter] *)

Module PathShellFilter.

Record t : Type := Build {
  hash_cache : option Z;
  inclusive : bool;
  pattern : str;
  case_sensitive : bool;
  patmatch : Re.regex;
  nodrive : bool
}.

Definition __init__ (pf : platform)
    (pattern : str) (case_sensitive nodrive inclusive : bool) : result t :=
  pattern ← Filter.norm_path pf pattern true;
  _ ← py_assert (Glob.has_magic pattern);
  let pattern :=
    if negb case_sensitive then Filter.norm_case pf pattern else pattern in
  r ← Fnmatch.translate pattern;
  Ok (Build None inclusive pattern case_sensitive r nodrive).

(** [__hash__] reads [self.__class__.__name__]. *)
Definition __hash__ (py_hash : hash_fn) (self : t) : result (Z * t) :=
  match hash_cache self with
  | None =>
      name ← class_getattr "PathShellFilter" "__name__";
      let h := py_hash [ name; VBool (inclusive self);
                         VBool (case_sensitive self); VStr (pattern self);
                         VBool (nodrive self) ] in
      Ok (h, Build (Some h) (inclusive self) (pattern self)
                   (case_sensitive self) (patmatch self) (nodrive self))
  | Some h => Ok (h, self)
  end.

(** [_PathFilter_Base.__eq__] between two objects of this class. *)
Definition __eq__ (py_hash : hash_fn) (self other : t)
    : result (bool * t * t) :=
  '(h1, self) ← __hash__ py_hash self;
  '(h2, other) ← __hash__ py_hash other;
  Ok (h1 =? h2, self, other).

Definition __str__ (self : t) : str :=
  let props := [] in
  let props := if case_sensitive self then props ++ py "case:" else props in
  let props := if nodrive self then props ++ py "nodrive:" else props in
  let props := if PyStr.nonempty props then props ++ py " " else props in
  sign_str (inclusive self) ++ props ++ pattern self.

Definition match_ (pf : platform) (self : t) (path : str) : result bool :=
  path ← Filter.norm_path pf path false;
  let path :=
    if negb (case_sensitive self) then Filter.norm_case pf path else path in
  Ok (bool_decide (is_Some (Re.match_ (patmatch self) path))).

End PathShellFilter.

(** ** Candidates

    What [match] is called on: a path, or an [os.DirEntry]-like object with
    its [name], its [path] and the outcome of its [stat]: the
    [st_file_attributes], or [None] for an [OSError]. *)

Inductive candidate : Type :=
| Path (p : str)
| Entry (name path : str) (st_file_attributes : option Z).

(** ** [class ExtensionsFilter] *)

Module ExtensionsFilter.

Record t : Type := Build {
  hash_cache : option Z;
  inclusive : bool;
  case_sensitive : bool;
  ext : gset str
}.

Definition is_ext_sep (c : ascii) : bool :=
  PyStr.isspace c || Ascii.eqb c ";".

Definition __init__ (pf : platform)
    (pattern : str) (case_sensitive inclusive : bool) : result t :=
  let pattern :=
    if negb case_sensitive then Filter.norm_case pf pattern else pattern in
  if PyStr.contains (OsPath.sep pf) pattern then
    Raise (ValueError "invalid or empty ext filter")
  else
    Ok (Build None inclusive case_sensitive
          (list_to_set
             (List.filter PyStr.nonempty (PyStr.split_runs is_ext_sep pattern)))).

Definition __hash__ (py_hash : hash_fn) (self : t) : result (Z * t) :=
  match hash_cache self with
  | None =>
      let h := py_hash [ VBool (inclusive self); VFrozenset (ext self) ] in
      Ok (h, Build (Some h) (inclusive self) (case_sensitive self) (ext self))
  | Some h => Ok (h, self)
  end.

Definition __eq__ (py_hash : hash_fn) (self other : t)
    : result (bool * t * t) :=
  '(h1, self) ← __hash__ py_hash self;
  '(h2, other) ← __hash__ py_hash other;
  Ok (h1 =? h2, self, other).

(** The members of a frozenset come in an order of the interpreter's
    choosing; [elements] fixes one. *)
Definition __str__ (self : t) : str :=
  let props := py "ext:" in
  let props := if case_sensitive self then props ++ py "case:" else props in
  let props := props ++ py " " in
  sign_str (inclusive self) ++ props ++ PyStr.join (py " ") (elements (ext self)).

(** [path_or_entry.name], or [os.path.basename(path_or_entry)] for an
    object without that attribute. *)
Definition basename_of (pf : platform) (path_or_entry : candidate) : str :=
  match path_or_entry with
  | Entry name _ _ => name
  | Path p => OsPath.basename pf p
  end.

Definition match_ (pf : platform) (self : t) (path_or_entry : candidate)
    : result bool :=
  if bool_decide (ext self = ∅) then Ok false
  else
    let basename := basename_of pf path_or_entry in
    let basename :=
      if negb (case_sensitive self) then Filter.norm_case pf basename
      else basename in
    Ok (existsb
          (fun ext => (length ext <? length basename)%nat
                      && PyStr.endswith basename ext)
          (elements (ext self))).

End ExtensionsFilter.

(** ** [class WinAttrFilter] (Windows only) *)

Module Stat.

Definition FILE_ATTRIBUTE_READONLY : Z := 1.
Definition FILE_ATTRIBUTE_HIDDEN : Z := 2.
Definition FILE_ATTRIBUTE_SYSTEM : Z := 4.
Definition FILE_ATTRIBUTE_DIRECTORY : Z := 16.
Definition FILE_ATTRIBUTE_ARCHIVE : Z := 32.
Definition FILE_ATTRIBUTE_REPARSE_POINT : Z := 1024.
Definition FILE_ATTRIBUTE_COMPRESSED : Z := 2048.
Definition FILE_ATTRIBUTE_ENCRYPTED : Z := 16384.

End Stat.

Definition WIN_FILE_ATTRIBUTE : list (str * Z) :=
  [ (py "directory", Stat.FILE_ATTRIBUTE_DIRECTORY);
    (py "dir", Stat.FILE_ATTRIBUTE_DIRECTORY);
    (py "hidden", Stat.FILE_ATTRIBUTE_HIDDEN);
    (py "symlink", Stat.FILE_ATTRIBUTE_REPARSE_POINT);
    (py "reparse_point", Stat.FILE_ATTRIBUTE_REPARSE_POINT);
    (py "compressed", Stat.FILE_ATTRIBUTE_COMPRESSED);
    (py "comp", Stat.FILE_ATTRIBUTE_COMPRESSED);
    (py "archive", Stat.FILE_ATTRIBUTE_ARCHIVE);
    (py "arch", Stat.FILE_ATTRIBUTE_ARCHIVE);
    (py "arc", Stat.FILE_ATTRIBUTE_ARCHIVE);
    (py "encrypted", Stat.FILE_ATTRIBUTE_ENCRYPTED);
    (py "readonly", Stat.FILE_ATTRIBUTE_READONLY);
    (py "ro", Stat.FILE_ATTRIBUTE_READONLY);
    (py "system", Stat.FILE_ATTRIBUTE_SYSTEM);
    (py "sys", Stat.FILE_ATTRIBUTE_SYSTEM) ].

(** [d[k]] on the items of an ordered dictionary. *)
Fixpoint dict_get (d : list (str * Z)) (k : str) : option Z :=
  match d with
  | [] => None
  | (k', v) :: d' => if PyStr.eqb k' k then Some v else dict_get d' k
  end.

Definition dquote : string := String "034" EmptyString.

Module WinAttrFilter.

Record t : Type := Build {
  hash_cache : option Z;
  inclusive : bool;
  match_all : bool;
  desired_attr : Z;
  not_desired_attr : Z
}.

(** One turn of the loop of [__init__] over the words of the pattern; the
    state is [(desired_attr, not_desired_attr)]. *)
Definition init_step (acc : Z * Z) (attr_str : str) : result (Z * Z) :=
  if PyStr.nonempty attr_str then
    let '(desired, attr_str) :=
      match attr_str with
      | "!"%char :: _ => (false, PyStr.lstrip_by (Ascii.eqb "!") attr_str)
      | _ => (true, attr_str)
      end in
    match dict_get WIN_FILE_ATTRIBUTE attr_str with
    | None =>
        Raise (ValueError ("unknown file attribute " +:+ dquote
                           +:+ string_of_list_ascii attr_str +:+ dquote))
    | Some attr_flag =>
        if desired then Ok (Z.lor (fst acc) attr_flag, snd acc)
        else Ok (fst acc, Z.lor (snd acc) attr_flag)
    end
  else Ok acc.

Fixpoint init_loop (acc : Z * Z) (words : list str) : result (Z * Z) :=
  match words with
  | [] => Ok acc
  | w :: words' => acc' ← init_step acc w; init_loop acc' words'
  end.

Definition __init__ (pattern : str) (match_all inclusive : bool) : result t :=
  let pattern := PyStr.split_ws (PyStr.lower pattern) in
  '(desired_attr, not_desired_attr) ← init_loop (0, 0) pattern;
  if (desired_attr =? 0) && (not_desired_attr =? 0) then
    Raise (ValueError "empty attr or attr_all filter")
  else if negb (Z.land desired_attr not_desired_attr =? 0) then
    Raise (ValueError "colliding attribute(s) found in attr or attr_all filter")
  else Ok (Build None inclusive match_all desired_attr not_desired_attr).

Definition __hash__ (py_hash : hash_fn) (self : t) : result (Z * t) :=
  match hash_cache self with
  | None =>
      let h := py_hash [ VBool (inclusive self); VBool (match_all self);
                         VInt (desired_attr self);
                         VInt (not_desired_attr self) ] in
      Ok (h, Build (Some h) (inclusive self) (match_all self)
                   (desired_attr self) (not_desired_attr self))
  | Some h => Ok (h, self)
  end.

Definition __eq__ (py_hash : hash_fn) (self other : t)
    : result (bool * t * t) :=
  '(h1, self) ← __hash__ py_hash self;
  '(h2, other) ← __hash__ py_hash other;
  Ok (h1 =? h2, self, other).

(** The loop of [__str__] over the table; the state is the text and the two
    masks still to render. *)
Definition str_step (acc : str * Z * Z) (item : str * Z) : str * Z * Z :=
  let '(s, desired_attr, not_desired_attr) := acc in
  let '(attr_name, attr_flag) := item in
  if negb (Z.land desired_attr attr_flag =? 0) then
    (s ++ py " " ++ attr_name, Z.land desired_attr (Z.lnot attr_flag),
     not_desired_attr)
  else if negb (Z.land not_desired_attr attr_flag =? 0) then
    (s ++ py " !" ++ attr_name, desired_attr,
     Z.land not_desired_attr (Z.lnot attr_flag))
  else acc.

Definition __str__ (self : t) : str :=
  let s := sign_str (inclusive self) in
  let s := s ++ (if match_all self then py "attr_all:" else py "attr:") in
  fst (fst (fold_left str_step WIN_FILE_ATTRIBUTE
              (s, desired_attr self, not_desired_attr self))).

(** [match]: [None] is the indeterminate answer.  [GetFileAttributesW] is
    the parameter [get_file_attributes]. *)
Definition match_ (get_file_attributes : str -> Z) (self : t)
    (path_or_entry : candidate) : result (option bool) :=
  let attrs :=
    match path_or_entry with
    | Entry _ path (Some a) => Some (a, path)
    | Entry _ _ None => None
    | Path p =>
        let a := get_file_attributes p in
        if a =? 4294967295 then None else Some (a, p)
    end in
  match attrs with
  | None => Ok None
  | Some (file_attr, path) =>
      file_attr ←
        (if Z.land file_attr Stat.FILE_ATTRIBUTE_HIDDEN =? 0 then
           c ← item0 path;
           if Ascii.eqb c "." then Ok (Z.lor file_attr Stat.FILE_ATTRIBUTE_HIDDEN)
           else Ok file_attr
         else Ok file_attr);
      let match_ := Z.land file_attr (desired_attr self) in
      let not_match := Z.land file_attr (not_desired_attr self) in
      if match_all self then
        Ok (Some ((match_ =? desired_attr self) && (not_match =? 0)))
      else
        Ok (Some (negb (match_ =? 0)
                  || (negb (not_desired_attr self =? 0)
                      && negb (not_match =? not_desired_attr self))))
  end.

End WinAttrFilter.

(** ** Filter objects and [create_filter] *)

Inductive AnyFilter : Type :=
| Regex (f : PathRegexFilter.t)
| Tail (f : PathTailFilter.t)
| Shell (f : PathShellFilter.t)
| Extensions (f : ExtensionsFilter.t)
| WinAttr (f : WinAttrFilter.t).

(** [str(f)] *)
Definition py_str (f : AnyFilter) : str :=
  match f with
  | Regex f => PathRegexFilter.__str__ f
  | Tail f => PathTailFilter.__str__ f
  | Shell f => PathShellFilter.__str__ f
  | Extensions f => ExtensionsFilter.__str__ f
  | WinAttr f => WinAttrFilter.__str__ f
  end.

(** [hash(f)], with the object as the call leaves it. *)
Definition py_hash_of (py_hash : hash_fn) (f : AnyFilter)
    : result (Z * AnyFilter) :=
  match f with
  | Regex f => '(h, f) ← PathRegexFilter.__hash__ py_hash f; Ok (h, Regex f)
  | Tail f => '(h, f) ← PathTailFilter.__hash__ py_hash f; Ok (h, Tail f)
  | Shell f => '(h, f) ← PathShellFilter.__hash__ py_hash f; Ok (h, Shell f)
  | Extensions f =>
      '(h, f) ← ExtensionsFilter.__hash__ py_hash f; Ok (h, Extensions f)
  | WinAttr f => '(h, f) ← WinAttrFilter.__hash__ py_hash f; Ok (h, WinAttr f)
  end.

(** [f == g] for two distinct objects: every [__eq__] compares the hashes
    of two objects of its class and answers [NotImplemented] otherwise, which
    leaves the comparison by identity. *)
Definition py_eq (py_hash : hash_fn) (f g : AnyFilter) : result bool :=
  match f, g with
  | Regex f, Regex g =>
      '(b, _, _) ← PathRegexFilter.__eq__ py_hash f g; Ok b
  | Tail f, Tail g =>
      '(b, _, _) ← PathTailFilter.__eq__ py_hash f g; Ok b
  | Shell f, Shell g =>
      '(b, _, _) ← PathShellFilter.__eq__ py_hash f g; Ok b
  | Extensions f, Extensions g =>
      '(b, _, _) ← ExtensionsFilter.__eq__ py_hash f g; Ok b
  | WinAttr f, WinAttr g =>
      '(b, _, _) ← WinAttrFilter.__eq__ py_hash f g; Ok b
  | _, _ => Ok false
  end.

(** The flags that the loop of [create_filter] over the properties sets. *)
Record prop_flags : Type := Flags {
  is_regex : bool;
  is_attr_or : bool;
  is_attr_and : bool;
  is_ext : bool;
  is_nodrive : bool;
  is_case_sensitive : bool
}.

Definition props_step (fl : prop_flags) (prop : str) : result prop_flags :=
  let '(Flags re ao aa ex nd cs) := fl in
  if negb (PyStr.nonempty prop) then Ok fl
  else if PyStr.eqb prop (py "re") || PyStr.eqb prop (py "regex") then
    Ok (Flags true ao aa ex nd cs)
  else if PyStr.eqb prop (py "attr") then Ok (Flags re true aa ex nd cs)
  else if PyStr.eqb prop (py "attr_all") then Ok (Flags re ao true ex nd cs)
  else if PyStr.eqb prop (py "case") then Ok (Flags re ao aa ex nd true)
  else if PyStr.eqb prop (py "ext") then Ok (Flags re ao aa true nd cs)
  else if PyStr.eqb prop (py "nodrive") then Ok (Flags re ao aa ex true cs)
  else Raise (ValueError ("invalid property " +:+ dquote
                          +:+ string_of_list_ascii prop +:+ dquote)).

Fixpoint props_loop (fl : prop_flags) (props : list str) : result prop_flags :=
  match props with
  | [] => Ok fl
  | prop :: props' => fl' ← props_step fl prop; props_loop fl' props'
  end.

Definition create_filter (pf : platform) (re_compile : re_compiler)
    (expression : str) : result AnyFilter :=
  match Re.match_ EXPRESSION_REGEX expression with
  | None => Raise (ValueError "invalid filter expression")
  | Some rem =>
      let inclusive :=
        if bool_decide (Re.group rem 1 = Some (py "-")) then false else true in
      let '(props_orig, props) :=
        match Re.group rem 2 with
        | Some ((_ :: _) as props) =>
            (props, PyStr.split ":" (PyStr.lower props))
        | _ => ([], [])
        end in
      let pattern := default [] (Re.group rem 3) in
      _ ← py_assert (PyStr.eqb pattern (PyStr.strip pattern));
      fl ← props_loop (Flags false false false false false false) props;
      if (1 <? Nat.b2n (is_regex fl) + Nat.b2n (is_attr_or fl)
               + Nat.b2n (is_attr_and fl) + Nat.b2n (is_ext fl))%nat
      then
        Raise (ValueError ("invalid mix of filter properties " +:+ dquote
                           +:+ string_of_list_ascii props_orig +:+ dquote))
      else if is_ext fl then
        f ← ExtensionsFilter.__init__ pf pattern (is_case_sensitive fl)
              inclusive;
        Ok (Extensions f)
      else if is_attr_or fl || is_attr_and fl then
        if IS_WINDOWS pf then
          f ← WinAttrFilter.__init__ pattern (is_attr_and fl) inclusive;
          Ok (WinAttr f)
        else Raise NotImplementedError
      else if is_regex fl then
        f ← PathRegexFilter.__init__ re_compile pattern (is_case_sensitive fl)
              (is_nodrive fl) inclusive;
        Ok (Regex f)
      else
        let tail := snd (OsPath.splitdrive pf pattern) in
        if PyStr.nonempty tail && Glob.has_magic tail then
          f ← PathShellFilter.__init__ pf pattern (is_case_sensitive fl)
                (is_nodrive fl) inclusive;
          Ok (Shell f)
        else
          f ← PathTailFilter.__init__ pf pattern (is_case_sensitive fl)
                inclusive;
          Ok (Tail f)
  end.

(** ** A compiler for plain patterns

    A pattern made of letters, digits and ["/"] only is its own regular
    expression: [.match] succeeds on the strings that start with it, up to
    letter case under [IGNORECASE].  [re_compile_plain] is [re.compile] on
    these patterns, and reports any other pattern as unsupported; it
    instantiates the parameter [re_compile] in the examples. *)

Definition is_plain (c : ascii) : bool :=
  let n := PyStr.code c in
  ((48 <=? n) && (n <=? 57) || (65 <=? n) && (n <=? 90)
   || (97 <=? n) && (n <=? 122) || (n =? 47))%N.

Definition re_compile_plain : re_compiler :=
  fun pattern ignorecase =>
    if forallb is_plain pattern then
      inr (fun s =>
             if ignorecase
             then PyStr.startswith (PyStr.lower s) (PyStr.lower pattern)
             else PyStr.startswith s pattern)
    else inl "unsupported pattern"%string.

(** ** Vocabulary of the statements *)

(** [e] is a suffix of [b] and strictly shorter than it. *)
Definition strict_suffix (e b : str) : Prop :=
  e `suffix_of` b ∧ (length e < length b)%nat.

(** The base name that [ExtensionsFilter.match] compares with the stored
    suffixes: the name of the candidate, case-folded unless the filter is
    case sensitive. *)
Definition compared_name (pf : platform) (case_sensitive : bool)
    (c : candidate) : str :=
  let b := ExtensionsFilter.basename_of pf c in
  if negb case_sensitive then Filter.norm_case pf b else b.

(** The string that a path filter compares: the normalised candidate,
    case-folded unless the filter is case sensitive. *)
Definition compared_path (pf : platform) (case_sensitive : bool)
    (path : str) : str :=
  let p := OsPath.normpath pf path in
  if negb case_sensitive then Filter.norm_case pf p else p.

(** The same filter with another compiled expression. *)
Definition with_matcher (f : PathRegexFilter.t) (m : str -> bool)
    : PathRegexFilter.t :=
  PathRegexFilter.Build (PathRegexFilter.hash_cache f)
    (PathRegexFilter.inclusive f) (PathRegexFilter.pattern f)
    (PathRegexFilter.case_sensitive f) (PathRegexFilter.nodrive f) m.

(** The pattern is absolute or carries a drive. *)
Definition absolute_or_drive (pf : platform) (pattern : str) : Prop :=
  OsPath.isabs pf pattern = true ∨ fst (OsPath.splitdrive pf pattern) ≠ [].

(** The pattern that [ExtensionsFilter.__init__] splits. *)
Definition ext_pattern (pf : platform) (case_sensitive : bool)
    (pattern : str) : str :=
  if negb case_sensitive then Filter.norm_case pf pattern else pattern.

(** What is left of a normalised candidate once [splitdrive] has taken the
    drive off. *)
Definition drive_stripped (pf : platform) (path : str) : str :=
  snd (OsPath.splitdrive pf (OsPath.normpath pf path)).

(** The string that a [nodrive] regular expression filter is matched
    against, for a candidate whose stripped path [rest] is not empty. *)
Definition nodrive_subject (pf : platform) (case_sensitive : bool)
    (rest : str) : str :=
  let p :=
    if bool_decide (head rest = Some (OsPath.sep pf)) then rest
    else OsPath.sep pf :: rest in
  if negb case_sensitive then Filter.norm_case pf p else p.

(** The expression of a pattern made of plain characters and a final [*]. *)
Definition literal_star (lit : str) : Re.regex :=
  Re.Seq
    (Re.seq (map (λ c, Re.Char (Re.OneOf [Re.Lit c])) lit
             ++ [Re.Repeat 0 Re.Any]))
    Re.EndZ.

(** On Windows a path is rooted when [splitdrive] finds a drive or
    [isabs] holds. *)
Definition nt_rooted (q : str) : Prop :=
  fst (NtPath.splitdrive q) ≠ [] ∨ NtPath.isabs q = true.

(** ** Vocabulary of the further properties *)

(** [f.hash_cache] *)
Definition hash_cache_of (f : AnyFilter) : option Z :=
  match f with
  | Regex f => PathRegexFilter.hash_cache f
  | Tail f => PathTailFilter.hash_cache f
  | Shell f => PathShellFilter.hash_cache f
  | Extensions f => ExtensionsFilter.hash_cache f
  | WinAttr f => WinAttrFilter.hash_cache f
  end.

(** The base name that a [PathTailFilter] of one component compares: the
    last component of the normalised candidate, case-folded unless the
    filter is case sensitive. *)
Definition compared_basename (pf : platform) (case_sensitive : bool)
    (path : str) : str :=
  let b := OsPath.basename pf (OsPath.normpath pf path) in
  if negb case_sensitive then Filter.norm_case pf b else b.

(** The flags that [WIN_FILE_ATTRIBUTE] names. *)
Definition WIN_FLAGS : list Z :=
  [ Stat.FILE_ATTRIBUTE_DIRECTORY; Stat.FILE_ATTRIBUTE_HIDDEN;
    Stat.FILE_ATTRIBUTE_REPARSE_POINT; Stat.FILE_ATTRIBUTE_COMPRESSED;
    Stat.FILE_ATTRIBUTE_ARCHIVE; Stat.FILE_ATTRIBUTE_ENCRYPTED;
    Stat.FILE_ATTRIBUTE_READONLY; Stat.FILE_ATTRIBUTE_SYSTEM ].

Definition WIN_ALL : Z := fold_right Z.lor 0 WIN_FLAGS.

(** Every value that [|=] can build from these flags: the 256 unions. *)
Definition attr_masks : list Z :=
  fold_right (λ fl acc, acc ++ map (Z.lor fl) acc) [0] WIN_FLAGS.

(** What [WinAttrFilter.__init__] requires of the two masks in the end. *)
Definition attr_valid (d nd : Z) : bool :=
  negb ((d =? 0) && (nd =? 0)) && (Z.land d nd =? 0).

(** The attribute name that [WinAttrFilter.__init__] looks up for a word:
    the word without its leading [!]s. *)
Definition attr_name (w : str) : str :=
  match w with
  | "!"%char :: _ => PyStr.lstrip_by (Ascii.eqb "!") w
  | _ => w
  end.

(** Compiling the rendering of the attribute filter of masks [d] and [nd]
    gives that filter again. *)
Definition attr_roundtrip_ok (rc : re_compiler) (d nd : Z) (ma incl : bool)
    : bool :=
  match create_filter Windows rc
          (WinAttrFilter.__str__ (WinAttrFilter.Build None incl ma d nd)) with
  | Ok (WinAttr g) =>
      bool_decide (WinAttrFilter.hash_cache g = None)
      && Bool.eqb (WinAttrFilter.inclusive g) incl
      && Bool.eqb (WinAttrFilter.match_all g) ma
      && (WinAttrFilter.desired_attr g =? d)
      && (WinAttrFilter.not_desired_attr g =? nd)
  | _ => false
  end.

Definition attr_roundtrip_pair (rc : re_compiler) (d nd : Z) : bool :=
  if attr_valid d nd then
    if attr_roundtrip_ok rc d nd false false then
      if attr_roundtrip_ok rc d nd false true then
        if attr_roundtrip_ok rc d nd true false then
          attr_roundtrip_ok rc d nd true true
        else false
      else false
    else false
  else true.


Definition RE_SPACE : Re.cset := Re.OneOf [Re.Space].

(** The parts of [EXPRESSION_REGEX]: the sign, the properties, the pattern
    and what follows it. *)
Definition RE_SIGN : Re.regex :=
  Re.Opt (Re.Seq (Re.Group 1 (Re.Char (Re.OneOf [Re.Lit "+"; Re.Lit "-"])))
                 (Re.Repeat 1 RE_SPACE)).

Definition RE_PROPS : Re.regex :=
  Re.Opt (Re.Seq (Re.Opt (Re.Char (Re.OneOf [Re.Lit ":"])))
            (Re.Seq (Re.Group 2 (Re.Repeat 2 props_chars))
               (Re.Seq (Re.Char (Re.OneOf [Re.Lit ":"]))
                       (Re.Repeat 1 RE_SPACE)))).

Definition RE_TAIL : Re.regex :=
  Re.Seq (Re.NotBehind RE_SPACE) (Re.Seq (Re.Repeat 0 RE_SPACE) Re.Eol).

Definition RE_PATTERN : Re.regex :=
  Re.Seq (Re.Group 3 (Re.Repeat 1 Re.Dot)) RE_TAIL.

(** The continuation that ends a match. *)
Definition match_end : Re.mstate -> Re.outcome :=
  fun st => Some (Re.groups st).

(** A pattern as [EXPRESSION_REGEX] captures it: it starts and ends with a
    character that is not white space, and holds no newline. *)
Definition clean_pattern (p : str) : Prop :=
  (∃ a l, p = a :: l ∧ PyStr.isspace a = false)
  ∧ (∃ z l, rev p = z :: l ∧ PyStr.isspace z = false)
  ∧ Forall (λ c, Re.mem Re.Dot c = true) p.

(** The groups of a match hold such a pattern. *)
Definition pattern_stripped (g : list (nat * str)) : Prop :=
  ∃ p, Re.group g 3 = Some p ∧ clean_pattern p.

(** A continuation that, started on text that does not begin with white
    space, ends only with a stripped pattern, and that succeeds one white
    space character further on whenever it succeeds before it. *)
Definition skips_blanks (k : Re.mstate -> Re.outcome) : Prop :=
  (∀ sn ah gs g,
     k (Re.MState sn ah gs) = Some g →
     match ah with a :: _ => PyStr.isspace a = false | [] => True end →
     pattern_stripped g)
  ∧ (∀ sn s ah gs,
       PyStr.isspace s = true →
       is_Some (k (Re.MState sn (s :: ah) gs)) →
       is_Some (k (Re.MState (s :: sn) ah gs))).

(** The properties that [PathRegexFilter.__str__] writes, without the last
    colon. *)
Definition regex_props (case_sensitive nodrive : bool) : str :=
  py "regex" ++ (if case_sensitive then py ":case" else [])
  ++ (if nodrive then py ":nodrive" else []).

(** The properties that [ExtensionsFilter.__str__] writes, without the last
    colon. *)
Definition ext_props (case_sensitive : bool) : str :=
  py "ext" ++ (if case_sensitive then py ":case" else []).

(** [norm_case] on one character. *)
Definition norm_char (pf : platform) (c : ascii) : ascii :=
  match pf with
  | Posix => PyStr.lower_char c
  | Windows =>
      PyStr.lower_char (if Ascii.eqb c NtPath.altsep then NtPath.sep else c)
  end.

(** A word of an extension list: not empty, and without white space or
    [;]. *)
Definition ext_word (w : str) : Prop :=
  w ≠ [] ∧ Forall (λ c, ExtensionsFilter.is_ext_sep c = false) w.

(** Components, each with the separator in front: [/w1/w2/.../wk]. *)
Definition with_seps (sep : ascii) (comps : list str) : str :=
  concat (map (cons sep) comps).

(** A component of a path: not empty, and without the separator. *)
Definition component (sep : ascii) (w : str) : Prop := w ≠ [] ∧ sep ∉ w.

Ltac split_opt_seq :=
  match goal with
  | |- skips_blanks (λ st, Re.run (Re.Seq (Re.Opt ?b) ?r) st ?k) =>
      change (skips_blanks (λ st, Re.run (Re.Opt b) st (λ st', Re.run r st' k)))
  end.

(** * Properties *)

(** ** Strings *)

Lemma startswith_prefix (s p : str) :
  PyStr.startswith s p = true ↔ p `prefix_of` s.
Proof.
  revert s; induction p as [|a p IH]; intros s; simpl.
  - split; [intros _; apply prefix_nil | reflexivity].
  - destruct s as [|b s].
    + split; [discriminate|]. intros H. apply prefix_nil_inv in H. discriminate.
    + rewrite andb_true_iff, Ascii.eqb_eq, IH. split.
      * intros [-> H]. by apply prefix_cons.
      * intros H. split.
        -- by apply prefix_cons_inv_1 in H.
        -- by apply prefix_cons_inv_2 in H.
Qed.

Lemma endswith_suffix (s p : str) :
  PyStr.endswith s p = true ↔ p `suffix_of` s.
Proof.
  unfold PyStr.endswith.
  rewrite startswith_prefix, suffix_prefix_reverse. unfold reverse.
  by rewrite <- !rev_alt.
Qed.

Lemma eqb_eq (s t : str) : PyStr.eqb s t = true ↔ s = t.
Proof. unfold PyStr.eqb. apply bool_decide_eq_true. Qed.

(** ** [ExtensionsFilter.match] *)

Lemma ext_match_value (pf : platform) (self : ExtensionsFilter.t)
    (c : candidate) :
  ExtensionsFilter.match_ pf self c =
  Ok (existsb
        (fun e => (length e <? length
                     (compared_name pf (ExtensionsFilter.case_sensitive self) c))%nat
                  && PyStr.endswith
                       (compared_name pf (ExtensionsFilter.case_sensitive self) c) e)
        (elements (ExtensionsFilter.ext self))).
Proof.
  unfold ExtensionsFilter.match_, compared_name.
  case_bool_decide as Hempty; [|reflexivity].
  rewrite Hempty, elements_empty. reflexivity.
Qed.

Lemma ext_test_strict (e b : str) :
  (length e <? length b)%nat && PyStr.endswith b e = true ↔ strict_suffix e b.
Proof.
  unfold strict_suffix.
  rewrite andb_true_iff, Nat.ltb_lt, endswith_suffix. tauto.
Qed.

(** C8, as the code has it.  [ExtensionsFilter.match] always answers.  The
    base name it compares is the [name] of an entry, whatever its path, and
    [os.path.basename] of a path, case-folded unless the filter is case
    sensitive; the answer is [True] exactly when some stored suffix is a
    suffix of that base name and strictly shorter than it.  So a name equal
    to a stored suffix is not matched by that suffix: the filter whose only
    suffix is the base name answers [False], as the [.bak] filter does on a
    file named [.bak] in any directory, while it matches [x.bak]. *)
Theorem ext_match_strict_proper_suffix :
  ∀ (pf : platform) (self : ExtensionsFilter.t),
    let folded := λ b : str,
      if ExtensionsFilter.case_sensitive self then b
      else Filter.norm_case pf b in
    (∀ c, ∃ b, ExtensionsFilter.match_ pf self c = Ok b)
    ∧ (∀ name path attrs,
         ExtensionsFilter.match_ pf self (Entry name path attrs) = Ok true
         ↔ ∃ e, e ∈ ExtensionsFilter.ext self
                ∧ strict_suffix e (folded name))
    ∧ (∀ p,
         ExtensionsFilter.match_ pf self (Path p) = Ok true
         ↔ ∃ e, e ∈ ExtensionsFilter.ext self
                ∧ strict_suffix e (folded (OsPath.basename pf p)))
    ∧ (∀ name path attrs,
         ExtensionsFilter.ext self = {[ folded name ]} →
         ExtensionsFilter.match_ pf self (Entry name path attrs) = Ok false)
    ∧ (∀ p,
         ExtensionsFilter.ext self = {[ folded (OsPath.basename pf p) ]} →
         ExtensionsFilter.match_ pf self (Path p) = Ok false)
    ∧ (ExtensionsFilter.ext self = {[ py ".bak" ]} →
       ExtensionsFilter.match_ pf self
         (Entry (py ".bak") (py "dir/.bak") None) = Ok false
       ∧ ExtensionsFilter.match_ pf self (Path (py ".bak")) = Ok false
       ∧ ExtensionsFilter.match_ pf self (Path (py "dir/.bak")) = Ok false
       ∧ ExtensionsFilter.match_ pf self (Path (py "dir/x.bak")) = Ok true
       ∧ ExtensionsFilter.match_ pf self
           (Entry (py "x.bak") (py "dir/x.bak") None) = Ok true).
Proof.
  intros pf self folded.
  assert (Hname : ∀ c,
            compared_name pf (ExtensionsFilter.case_sensitive self) c
            = folded (ExtensionsFilter.basename_of pf c)).
  { intros c. unfold compared_name, folded.
    by destruct (ExtensionsFilter.case_sensitive self). }
  assert (Hiff : ∀ c,
            ExtensionsFilter.match_ pf self c = Ok true
            ↔ ∃ e, e ∈ ExtensionsFilter.ext self
                   ∧ strict_suffix e
                       (folded (ExtensionsFilter.basename_of pf c))).
  { intros c. rewrite ext_match_value, Hname. split.
    - intros H. injection H as H. apply existsb_exists in H as (e & Hin & He).
      exists e. split.
      + apply elem_of_elements, list_elem_of_In, Hin.
      + by apply ext_test_strict.
    - intros (e & Hin & He). f_equal. apply existsb_exists. exists e. split.
      + apply list_elem_of_In, elem_of_elements, Hin.
      + by apply ext_test_strict. }
  assert (Hone : ∀ c,
            ExtensionsFilter.ext self
            = {[ folded (ExtensionsFilter.basename_of pf c) ]} →
            ExtensionsFilter.match_ pf self c = Ok false).
  { intros c Hext. rewrite ext_match_value, Hname, Hext, elements_singleton.
    simpl. by rewrite Nat.ltb_irrefl. }
  split; [|split; [|split; [|split; [|split]]]].
  - intros c. rewrite ext_match_value. eauto.
  - intros name path attrs. apply (Hiff (Entry name path attrs)).
  - intros p. apply (Hiff (Path p)).
  - intros name path attrs. apply (Hone (Entry name path attrs)).
  - intros p. apply (Hone (Path p)).
  - intros Hext.
    assert (Hval : ∀ c,
              ExtensionsFilter.match_ pf self c
              = Ok ((4 <? length (folded (ExtensionsFilter.basename_of pf c)))%nat
                    && PyStr.endswith
                         (folded (ExtensionsFilter.basename_of pf c))
                         (py ".bak"))).
    { intros c. rewrite ext_match_value, Hname, Hext, elements_singleton.
      simpl. by rewrite orb_false_r. }
    rewrite !Hval. unfold folded.
    by destruct pf, (ExtensionsFilter.case_sensitive self).
Qed.

(** C8, counterexample: a name equal to a stored suffix matches all the
    same when another stored suffix is a proper suffix of it.  The filter
    of [.bak bak] stores [.bak], and answers [True] on a file named
    [.bak]. *)
Lemma ext_name_equal_to_suffix_matches :
  ∃ f, ExtensionsFilter.__init__ Posix (py ".bak bak") false true = Ok f
       ∧ py ".bak" ∈ ExtensionsFilter.ext f
       ∧ OsPath.basename Posix (py "dir/.bak") = py ".bak"
       ∧ ExtensionsFilter.match_ Posix f
           (Entry (py ".bak") (py "dir/.bak") None) = Ok true
       ∧ ExtensionsFilter.match_ Posix f (Path (py "dir/.bak")) = Ok true.
Proof.
  assert (Hm : ∀ (X : gset str) c,
            py "bak" ∈ X →
            ExtensionsFilter.basename_of Posix c = py ".bak" →
            ExtensionsFilter.match_ Posix
              (ExtensionsFilter.Build None true false X) c = Ok true).
  { intros X c HX Hc. rewrite ext_match_value. f_equal.
    apply existsb_exists. exists (py "bak"). split.
    - cbn [ExtensionsFilter.ext]. apply list_elem_of_In.
      by apply elem_of_elements.
    - unfold compared_name. rewrite Hc. reflexivity. }
  assert (Hin : ∀ e, e ∈ [py ".bak"; py "bak"] →
                 e ∈ (list_to_set [py ".bak"; py "bak"] : gset str)).
  { intros e He. by apply elem_of_list_to_set. }
  exists (ExtensionsFilter.Build None true false
            (list_to_set [py ".bak"; py "bak"])).
  split; [reflexivity|]. split; [|split; [reflexivity|]].
  - cbn [ExtensionsFilter.ext]. apply Hin. by left.
  - split; (apply Hm; [apply Hin; right; by left | reflexivity]).
Qed.

(** ** [Filter.norm_case] *)








(** ** [ExtensionsFilter.__init__] *)

(** C6, at the failing input.  The pattern [;] resolves to no suffix, and
    [ExtensionsFilter.__init__] builds the filter all the same, on every
    platform and for every flag, where its own message, "invalid or empty
    ext filter", promises a [ValueError]: the test before the split looks
    for the path separator only.  The filter has an empty suffix set and
    answers [False] on every candidate, and [create_filter] returns it for
    the rule [ext: ;].  The sibling [WinAttrFilter.__init__] refuses a list
    that resolves to no attribute. *)
Theorem ext_init_accepts_empty_list :
  ∀ (pf : platform) (case_sensitive inclusive : bool),
    (∃ f, ExtensionsFilter.__init__ pf (py ";") case_sensitive inclusive = Ok f
          ∧ ExtensionsFilter.ext f = ∅
          ∧ ∀ c, ExtensionsFilter.match_ pf f c = Ok false)
    ∧ (∃ f, ExtensionsFilter.__init__ pf (py " ; ;") case_sensitive inclusive
            = Ok f
            ∧ ExtensionsFilter.ext f = ∅)
    ∧ (∀ re_compile,
         ∃ f, create_filter pf re_compile (py "ext: ;") = Ok (Extensions f)
              ∧ ExtensionsFilter.ext f = ∅
              ∧ ∀ c, ExtensionsFilter.match_ pf f c = Ok false)
    ∧ ExtensionsFilter.__init__ pf [OsPath.sep pf] case_sensitive inclusive
      = Raise (ValueError "invalid or empty ext filter")
    ∧ WinAttrFilter.__init__ (py " ") false inclusive
      = Raise (ValueError "empty attr or attr_all filter").
Proof.
  intros pf cs incl.
  assert (Hno : ∀ hc i k c,
            ExtensionsFilter.match_ pf (ExtensionsFilter.Build hc i k ∅) c
            = Ok false).
  { intros hc i k c. unfold ExtensionsFilter.match_. simpl.
    by rewrite bool_decide_eq_true_2. }
  split; [|split; [|split; [|split]]].
  - destruct pf, cs; (eexists; split; [vm_compute; reflexivity|]);
      (split; [reflexivity | intros c; apply Hno]).
  - destruct pf, cs; (eexists; split; [vm_compute; reflexivity|]);
      reflexivity.
  - intros rc.
    destruct pf; (eexists; split; [vm_compute; reflexivity|]);
      (split; [reflexivity | intros c; apply Hno]).
  - by destruct pf, cs.
  - reflexivity.
Qed.

(** ** [PathRegexFilter.match] *)

Lemma norm_case_head_sep (pf : platform) (s : str) :
  Filter.norm_case pf (OsPath.sep pf :: s)
  = OsPath.sep pf :: Filter.norm_case pf s.
Proof. destruct pf; reflexivity. Qed.

Lemma nodrive_subject_head (pf : platform) (cs : bool) (rest : str) :
  head (nodrive_subject pf cs rest) = Some (OsPath.sep pf).
Proof.
  unfold nodrive_subject. case_bool_decide as Hh.
  - destruct rest as [|c rest]; [discriminate|].
    injection Hh as ->. destruct cs; simpl; [reflexivity|].
    by rewrite norm_case_head_sep.
  - destruct cs; simpl; [reflexivity|]. by rewrite norm_case_head_sep.
Qed.

(** C10, as the code has it.  For a filter with [nodrive] and any
    candidate: when nothing is left of the normalised path after the drive,
    [match] answers [False]; otherwise the compiled expression is applied to
    the rest, with one separator put in front when the rest does not start
    with one, and case-folded unless the filter is case sensitive.  That
    string starts with a separator; the rest is not changed when it starts
    with several. *)
Theorem regex_nodrive_subject :
  ∀ (pf : platform) (f : PathRegexFilter.t) (path : str),
    PathRegexFilter.nodrive f = true →
    let rest := drive_stripped pf path in
    let s := nodrive_subject pf (PathRegexFilter.case_sensitive f) rest in
    (rest = [] → PathRegexFilter.match_ pf f path = Ok false)
    ∧ (rest ≠ [] →
       head s = Some (OsPath.sep pf)
       ∧ ∀ m, PathRegexFilter.match_ pf (with_matcher f m) path = Ok (m s)).
Proof.
  intros pf f path Hnd rest s. subst s.
  unfold PathRegexFilter.match_, Filter.norm_path. simpl.
  rewrite Hnd. fold (drive_stripped pf path). fold rest.
  split.
  - intros ->. reflexivity.
  - intros Hrest. split; [apply nodrive_subject_head|].
    intros m. destruct rest as [|c rest'] eqn:E; [done|]. simpl.
    unfold PathRegexFilter.match_tail, nodrive_subject. simpl.
    destruct (Ascii.eqb c (OsPath.sep pf)) eqn:Hc; simpl.
    + apply Ascii.eqb_eq in Hc as ->.
      rewrite bool_decide_eq_true_2 by reflexivity.
      destruct (PathRegexFilter.case_sensitive f); reflexivity.
    + rewrite bool_decide_eq_false_2.
      * destruct (PathRegexFilter.case_sensitive f); reflexivity.
      * intros [= ->]. by rewrite Ascii.eqb_refl in Hc.
Qed.

Lemma regex_nodrive_subject_witness :
  head (nodrive_subject Posix false (drive_stripped Posix (py "/Media//Film/")))
    = Some (OsPath.sep Posix)
  ∧ ∀ m, PathRegexFilter.match_ Posix
           (with_matcher
              (PathRegexFilter.Build None true (py "/media") false true
                 (PyStr.eqb (py "/media/film"))) m)
           (py "/Media//Film/")
         = Ok (m (nodrive_subject Posix false
                    (drive_stripped Posix (py "/Media//Film/")))).
Proof.
  apply (regex_nodrive_subject Posix
           (PathRegexFilter.Build None true (py "/media") false true
              (PyStr.eqb (py "/media/film")))
           (py "/Media//Film/") eq_refl).
  vm_compute. discriminate.
Defined.

(** C10, counterexample: the string matched can start with two separators.
    On POSIX the normalised form of [//foo] keeps both slashes; on Windows a
    path under the [\\?\] prefix is not normalised, and what follows its
    drive can start with two backslashes. *)
Lemma regex_nodrive_keeps_two_separators :
  (∃ s, PyStr.startswith s (py "//") = true
        ∧ ∀ m, PathRegexFilter.match_ Posix
                 (PathRegexFilter.Build None true (py "x") true true m)
                 (py "//foo") = Ok (m s))
  ∧ (∃ s, PyStr.startswith s (py "\\") = true
          ∧ ∀ m, PathRegexFilter.match_ Windows
                   (PathRegexFilter.Build None true (py "x") true true m)
                   (py "\\?\c:\\foo") = Ok (m s)).
Proof.
  split.
  - exists (py "//foo"). split; [reflexivity|]. intros m. reflexivity.
  - exists (py "\\foo"). split; [reflexivity|]. intros m. reflexivity.
Qed.

(** ** [PathShellFilter]: the pattern [dir/*] *)

Lemma repeat_any_to_end (cnt : nat) (sn ah : str) (gs : list (nat * str))
    (k : Re.mstate → Re.outcome) :
  (∀ sn', k (Re.MState sn' [] gs) = Some gs) →
  Re.repeat_greedy Re.Any 0 cnt sn ah gs
    (λ st, match Re.ahead st with [] => k st | _ :: _ => None end) = Some gs.
Proof.
  intros Hk. revert cnt sn. induction ah as [|a ah IH]; intros cnt sn; simpl.
  - apply Hk.
  - by rewrite IH.
Qed.

Lemma run_literal_star (lit : str) (sn ah : str) (gs : list (nat * str))
    (k : Re.mstate → Re.outcome) :
  (∀ sn', k (Re.MState sn' [] gs) = Some gs) →
  Re.run (Re.seq (map (λ c, Re.Char (Re.OneOf [Re.Lit c])) lit
                  ++ [Re.Repeat 0 Re.Any]))
    (Re.MState sn ah gs)
    (λ st, match Re.ahead st with [] => k st | _ :: _ => None end)
  = if PyStr.startswith ah lit then Some gs else None.
Proof.
  intros Hk. revert sn ah. induction lit as [|c lit IH]; intros sn ah.
  - simpl. by apply repeat_any_to_end.
  - assert (Hseq : ∀ r l, l ≠ [] → Re.seq (r :: l) = Re.Seq r (Re.seq l)).
    { intros r [|r' l] Hl; [done | reflexivity]. }
    rewrite map_cons, <- app_comm_cons, Hseq
      by (destruct lit; discriminate).
    simpl Re.run at 1. cbn [Re.ahead Re.seen Re.groups].
    destruct ah as [|a ah]; [reflexivity|].
    cbn [Re.mem existsb Re.item_mem PyStr.startswith].
    rewrite orb_false_r, (Ascii.eqb_sym a c).
    destruct (Ascii.eqb c a); [|reflexivity]. simpl. apply IH.
Qed.

Lemma literal_star_match (lit s : str) :
  bool_decide (is_Some (Re.match_ (literal_star lit) s))
  = PyStr.startswith s lit.
Proof.
  unfold Re.match_, literal_star. cbn [Re.run].
  rewrite (run_literal_star lit [] s [] (λ st, Some (Re.groups st)))
    by reflexivity.
  destruct (PyStr.startswith s lit).
  - apply bool_decide_eq_true_2. eauto.
  - apply bool_decide_eq_false_2. by intros [? ?].
Qed.

(** C4, as the code has it.  A filter built from [dir/*] matches exactly
    the candidates whose compared path starts with [dir] and a separator:
    the expression is anchored at both ends, and its [*] runs over any
    characters, separators among them, so that the candidate may go any
    number of levels below [dir]. *)
Theorem shell_dir_star_matches_prefix :
  ∀ (pf : platform) (case_sensitive nodrive inclusive : bool),
    ∃ f, PathShellFilter.__init__ pf (py "dir/*") case_sensitive nodrive
           inclusive = Ok f
         ∧ ∀ path,
             PathShellFilter.match_ pf f path
             = Ok (PyStr.startswith (compared_path pf case_sensitive path)
                     (py "dir" ++ [OsPath.sep pf])).
Proof.
  intros pf cs nd incl.
  destruct pf, cs; (eexists; split; [reflexivity|]); intros path;
    unfold PathShellFilter.match_, Filter.norm_path, compared_path;
    cbn [mbind result_bind PathShellFilter.case_sensitive
         PathShellFilter.patmatch negb];
    f_equal.
  - apply (literal_star_match (py "dir/")).
  - apply (literal_star_match (py "dir/")).
  - apply (literal_star_match (py "dir\")).
  - apply (literal_star_match (py "dir\")).
Qed.

(** C4, counterexample: the filter of [dir/*] matches [dir/a/b], two
    levels below [dir]. *)
Lemma shell_dir_star_matches_deeper :
  (∃ f, PathShellFilter.__init__ Windows (py "dir/*") false false true = Ok f
        ∧ PathShellFilter.match_ Windows f (py "dir/a/b") = Ok true)
  ∧ (∃ f, PathShellFilter.__init__ Posix (py "dir/*") false false true = Ok f
          ∧ PathShellFilter.match_ Posix f (py "dir/a/b") = Ok true).
Proof. split; eexists; split; reflexivity. Qed.

(** ** Absolute patterns *)

(** The test of [Filter.norm_path] on a normalised pattern. *)
Lemma norm_path_pattern_rejects (pf : platform) (pattern : str) :
  (let '(drive, path) := OsPath.splitdrive pf (OsPath.normpath pf pattern) in
   PyStr.nonempty drive || OsPath.isabs pf path) = true →
  Filter.norm_path pf pattern true = Raise (ValueError "absolute path in filter").
Proof.
  unfold Filter.norm_path.
  destruct (OsPath.splitdrive pf (OsPath.normpath pf pattern)) as [d r].
  by intros ->.
Qed.

Lemma posix_normpath_keeps_root (t : str) :
  ∃ t', PosixPath.normpath (PosixPath.sep :: t) = PosixPath.sep :: t'.
Proof.
  unfold PosixPath.normpath. unfold PyStr.eqb at 1.
  rewrite (bool_decide_eq_false_2 (PosixPath.sep :: t = [])) by discriminate.
  change (PyStr.startswith (PosixPath.sep :: t) [PosixPath.sep]) with true.
  cbv iota.
  destruct (PyStr.startswith (PosixPath.sep :: t) [PosixPath.sep; PosixPath.sep]
            && negb (PyStr.startswith (PosixPath.sep :: t)
                       [PosixPath.sep; PosixPath.sep; PosixPath.sep]));
    cbn [repeat app]; unfold PyStr.eqb;
    rewrite bool_decide_eq_false_2 by discriminate; eauto.
Qed.

(** [splitdrive] cuts its argument in two. *)
Lemma nt_splitdrive_cut (p : str) :
  ∃ k, NtPath.splitdrive p = (take k p, drop k p).
Proof.
  unfold NtPath.splitdrive.
  repeat match goal with
         | |- context [if ?b then _ else _] => destruct b
         | |- context [match ?o with Some _ => _ | None => _ end] =>
             destruct o
         end;
    try (by exists 0%nat); try (by exists 2%nat); try (by eexists).
  exists (length p). by rewrite take_ge, drop_ge.
Qed.

Lemma take_nil_drop (k : nat) (n : str) : take k n = [] → drop k n = n.
Proof. destruct k; [reflexivity|]. destruct n; [reflexivity | discriminate]. Qed.

Lemma nt_rooted_test (n : str) :
  nt_rooted n →
  (let '(drive, path) := NtPath.splitdrive n in
   PyStr.nonempty drive || NtPath.isabs path) = true.
Proof.
  unfold nt_rooted. intros H.
  destruct (nt_splitdrive_cut n) as [k Hk]. rewrite Hk in *. simpl in H.
  destruct (take k n) as [|c d] eqn:Hd; [|reflexivity].
  rewrite (take_nil_drop k n Hd). simpl.
  destruct H as [H|H]; [done | exact H].
Qed.

(** A path that starts with a separator is rooted. *)
Lemma nt_rooted_sep (c : ascii) (t : str) :
  NtPath.is_sep c = true → nt_rooted (c :: t).
Proof.
  intros Hc. unfold nt_rooted, NtPath.isabs.
  destruct (nt_splitdrive_cut (c :: t)) as [k Hk]. rewrite Hk. simpl.
  destruct k; simpl; [by right | left; discriminate].
Qed.

(** A path whose second character is a colon is rooted. *)
Lemma nt_rooted_colon (c : ascii) (t : str) :
  nt_rooted (c :: NtPath.colon :: t).
Proof.
  left. unfold NtPath.splitdrive. cbn [length Nat.leb].
  match goal with
  | |- context [if ?b && ?b2 then _ else _] => destruct (b && b2) eqn:E
  end.
  - exfalso. apply andb_true_iff in E as [E _]. apply eqb_eq in E.
    simpl in E. discriminate E.
  - assert (PyStr.eqb
              (take 1 (drop 1 (PyStr.replace NtPath.altsep NtPath.sep
                                 (c :: NtPath.colon :: t))))
              [NtPath.colon] = true) as ->.
    { apply eqb_eq. reflexivity. }
    discriminate.
Qed.

Lemma nt_splitdrive_colon (c : ascii) (t : str) :
  NtPath.splitdrive (c :: NtPath.colon :: t) = ([c; NtPath.colon], t).
Proof.
  unfold NtPath.splitdrive. cbn [length Nat.leb].
  match goal with
  | |- context [if ?b && ?b2 then _ else _] => destruct (b && b2) eqn:E
  end.
  - exfalso. apply andb_true_iff in E as [E _]. apply eqb_eq in E.
    simpl in E. discriminate E.
  - assert (PyStr.eqb
              (take 1 (drop 1 (PyStr.replace NtPath.altsep NtPath.sep
                                 (c :: NtPath.colon :: t))))
              [NtPath.colon] = true) as ->.
    { apply eqb_eq. reflexivity. }
    reflexivity.
Qed.

Lemma nt_rooted_inv (c : ascii) (t : str) :
  NtPath.is_sep c = false → nt_rooted (c :: t) → ∃ t', t = NtPath.colon :: t'.
Proof.
  intros Hc. unfold NtPath.is_sep in Hc. apply orb_false_iff in Hc as [Hs Ha].
  unfold nt_rooted, NtPath.isabs, NtPath.splitdrive.
  destruct t as [|c1 t].
  { simpl. unfold NtPath.is_sep. rewrite Hs, Ha. intros [H|H]; [done|discriminate]. }
  cbn [length Nat.leb].
  match goal with
  | |- context [if ?b && ?b2 then _ else _] => destruct (b && b2) eqn:E
  end.
  { exfalso. apply andb_true_iff in E as [E _]. apply eqb_eq in E.
    simpl in E. rewrite Ha in E. injection E as E _.
    rewrite E, Ascii.eqb_refl in Hs. discriminate. }
  match goal with
  | |- context [if ?b then _ else _] => destruct b eqn:E2
  end.
  - intros _. apply eqb_eq in E2. simpl in E2.
    destruct (Ascii.eqb c1 NtPath.altsep); [discriminate|].
    injection E2 as ->. eauto.
  - simpl. unfold NtPath.is_sep. rewrite Hs, Ha.
    intros [H|H]; [done|discriminate].
Qed.

Lemma nt_normpath_rooted (p : str) :
  nt_rooted p → nt_rooted (NtPath.normpath p).
Proof.
  intros H. unfold NtPath.normpath.
  destruct (NtPath.special_prefix p); [exact H|].
  destruct p as [|c t].
  { exfalso. destruct H as [H|H]; [by apply H | discriminate]. }
  destruct (NtPath.is_sep c) eqn:Hc.
  - assert (∃ t1, PyStr.replace NtPath.altsep NtPath.sep (c :: t)
                  = NtPath.sep :: t1) as [t1 ->].
    { simpl. unfold NtPath.is_sep in Hc.
      destruct (Ascii.eqb c NtPath.altsep) eqn:Ha; [eauto|].
      rewrite orb_false_r in Hc. apply Ascii.eqb_eq in Hc as ->. eauto. }
    destruct (nt_splitdrive_cut (NtPath.sep :: t1)) as [k ->].
    destruct k as [|k]; cbn [take drop].
    + change (PyStr.startswith (NtPath.sep :: t1) [NtPath.sep]) with true.
      cbv iota. by apply nt_rooted_sep.
    + destruct (PyStr.startswith (drop k t1) [NtPath.sep]);
        by apply nt_rooted_sep.
  - destruct (nt_rooted_inv c t Hc H) as [t' ->].
    assert (PyStr.replace NtPath.altsep NtPath.sep (c :: NtPath.colon :: t')
            = c :: NtPath.colon
                :: PyStr.replace NtPath.altsep NtPath.sep t') as ->.
    { simpl. unfold NtPath.is_sep in Hc. apply orb_false_iff in Hc as [_ ->].
      reflexivity. }
    rewrite nt_splitdrive_colon.
    destruct (PyStr.startswith _ [NtPath.sep]); apply nt_rooted_colon.
Qed.

Lemma norm_path_rejects_absolute (pf : platform) (pattern : str) :
  absolute_or_drive pf pattern →
  Filter.norm_path pf pattern true = Raise (ValueError "absolute path in filter").
Proof.
  intros H. apply norm_path_pattern_rejects. destruct pf.
  - destruct H as [H|H]; [|done]. simpl in H.
    destruct pattern as [|c t]; [discriminate|].
    unfold PosixPath.isabs in H. cbn [PyStr.startswith] in H.
    rewrite andb_true_r in H. apply Ascii.eqb_eq in H as <-.
    cbn [OsPath.normpath OsPath.splitdrive OsPath.isabs].
    destruct (posix_normpath_keeps_root t) as [t' ->]. reflexivity.
  - apply nt_rooted_test, nt_normpath_rooted.
    destruct H as [H|H]; [by right | by left].
Qed.




(** ** [PathTailFilter.match] on short candidates *)

(** C2, at the failing input.  The filter of [dir/test] has two separators
    in its pattern; on the candidate [test], which has none, the search of
    [rindex] for a separator fails and [match] raises [ValueError] instead
    of answering [False]. *)
Theorem tail_match_raises_on_short_candidate :
  ∀ (pf : platform) (case_sensitive inclusive : bool),
    ∃ f, PathTailFilter.__init__ pf (py "dir/test") case_sensitive inclusive
           = Ok f
         ∧ PathTailFilter.seps_count f = 2%nat
         ∧ PathTailFilter.match_ pf f (py "test")
           = Raise (ValueError "substring not found").
Proof.
  intros pf cs incl.
  destruct pf, cs; eexists; (split; [vm_compute; reflexivity|]);
    split; vm_compute; reflexivity.
Qed.

(** C3, at the failing input.  On Windows the filter of [dir/test] matches
    [c:\foo\dir\test] and does not match [c:\foo\_dir\test]; but on the
    candidate [dir\test], whose components are those of the pattern, the
    second search of [rindex] finds no separator and [match] raises
    [ValueError] instead of answering [True].  The same holds on POSIX for
    the candidate [dir/test]. *)
Theorem tail_match_raises_on_equal_components :
  (∃ f, PathTailFilter.__init__ Windows (py "dir/test") false true = Ok f
        ∧ PathTailFilter.match_ Windows f (py "c:\foo\dir\test") = Ok true
        ∧ PathTailFilter.match_ Windows f (py "c:\foo\_dir\test") = Ok false
        ∧ PathTailFilter.match_ Windows f (py "\dir\test") = Ok true
        ∧ PathTailFilter.match_ Windows f (py "dir\test")
          = Raise (ValueError "substring not found")
        ∧ PathTailFilter.match_ Windows f (py "dir/test")
          = Raise (ValueError "substring not found"))
  ∧ (∃ f, PathTailFilter.__init__ Posix (py "dir/test") false true = Ok f
          ∧ PathTailFilter.match_ Posix f (py "/foo/dir/test") = Ok true
          ∧ PathTailFilter.match_ Posix f (py "dir/test")
            = Raise (ValueError "substring not found")).
Proof.
  split; eexists; (split; [vm_compute; reflexivity|]);
    repeat split; vm_compute; reflexivity.
Qed.

Lemma rfind_from_absent (c : ascii) (s : str) (i : nat) :
  PyStr.contains c s = false → PyStr.rfind_from c s i = None.
Proof.
  revert i. induction s as [|a s IH]; intros i; simpl; [reflexivity|].
  intros H. apply orb_false_iff in H as [Ha Hs].
  rewrite (IH (S i) Hs), Ascii.eqb_sym, Ha. reflexivity.
Qed.

Lemma contains_take_drop (c : ascii) (s : str) (lo hi : nat) :
  PyStr.contains c s = false → PyStr.contains c (drop lo (take hi s)) = false.
Proof.
  unfold PyStr.contains. intros H.
  apply not_true_is_false. intros Hex.
  apply existsb_exists in Hex as (x & Hin & Hx).
  assert (In x s) as Hs.
  { apply list_elem_of_In. apply list_elem_of_In in Hin.
    eapply elem_of_sublist; [exact Hin|].
    etrans; [apply sublist_drop | apply sublist_take]. }
  assert (existsb (Ascii.eqb c) s = true) as Ht
    by (apply existsb_exists; eauto).
  congruence.
Qed.

(** The defect behind C2, in general: without a separator in the normalised
    candidate, a filter whose pattern has two separators or more raises. *)
Lemma tail_match_raises_without_separator (pf : platform)
    (f : PathTailFilter.t) (path : str) :
  (2 ≤ PathTailFilter.seps_count f)%nat →
  PyStr.contains (OsPath.sep pf) (OsPath.normpath pf path) = false →
  PathTailFilter.match_ pf f path = Raise (ValueError "substring not found").
Proof.
  intros Hk Hsep. unfold PathTailFilter.match_, Filter.norm_path.
  cbn [mbind result_bind].
  destruct (PathTailFilter.seps_count f) as [|[|k]]; [lia | lia |].
  cbn [Nat.eqb orb PathTailFilter.tail_pos]. unfold rindex, PyStr.rfind.
  rewrite rfind_from_absent by (by apply contains_take_drop).
  reflexivity.
Qed.

Lemma rfind_from_lookup (c : ascii) (s : str) (i j : nat) :
  PyStr.rfind_from c s i = Some j → (i ≤ j)%nat ∧ s !! (j - i)%nat = Some c.
Proof.
  revert i. induction s as [|a s IH]; intros i; simpl; [discriminate|].
  destruct (PyStr.rfind_from c s (S i)) as [j'|] eqn:E.
  - intros [= ->]. apply IH in E as [Hle Hl]. split; [lia|].
    replace (j - i)%nat with (S (j - S i)) by lia. exact Hl.
  - destruct (Ascii.eqb a c) eqn:Ha; [|discriminate].
    intros [= ->]. apply Ascii.eqb_eq in Ha as ->.
    split; [lia|]. by rewrite Nat.sub_diag.
Qed.

Lemma rindex_lookup (c : ascii) (s : str) (e pos : Z) :
  rindex c s 0 e = Ok pos →
  0 ≤ pos ∧ s !! Z.to_nat pos = Some c.
Proof.
  unfold rindex, PyStr.rfind.
  destruct (PyStr.rfind_from _ _ _) as [j|] eqn:E; [|discriminate].
  intros [= <-]. split; [lia|]. rewrite Nat2Z.id.
  apply rfind_from_lookup in E as [_ E].
  assert (PyStr.clip (length s) 0 = 0%nat) as Hc by (unfold PyStr.clip; simpl; lia).
  rewrite Hc, Nat.sub_0_r in E. simpl in E.
  apply lookup_take_Some in E as [E _]. exact E.
Qed.

Lemma tail_pos_lookup (c : ascii) (s : str) (n : nat) (start pos : Z) :
  (0 < n)%nat → PathTailFilter.tail_pos c s n start = Ok pos →
  0 ≤ pos ∧ s !! Z.to_nat pos = Some c.
Proof.
  revert start. induction n as [|n IH]; intros start Hn; [lia|].
  simpl. destruct (rindex c s 0 (start - 1)) as [p|] eqn:E; [|discriminate].
  cbn [mbind result_bind]. destruct n as [|n'].
  - simpl. intros [= <-]. by apply rindex_lookup in E.
  - apply IH. lia.
Qed.

Lemma compare_tail_suffix (f : PathTailFilter.t) (path : str) :
  PathTailFilter.compare_tail f path = true →
  PathTailFilter.pattern f `suffix_of` path.
Proof.
  unfold PathTailFilter.compare_tail.
  destruct (0 <? _); [apply endswith_suffix|].
  destruct (_ =? 0); [|discriminate].
  intros H. apply eqb_eq in H as ->. reflexivity.
Qed.

Lemma norm_case_map (pf : platform) :
  ∃ g, ∀ s, Filter.norm_case pf s = map g s.
Proof.
  destruct pf.
  - exists PyStr.lower_char. reflexivity.
  - exists (λ c, PyStr.lower_char
                   (if Ascii.eqb c NtPath.altsep then NtPath.sep else c)).
    intros s. unfold Filter.norm_case. simpl.
    unfold NtPath.normcase, PyStr.lower, PyStr.replace.
    by rewrite map_map.
Qed.

Lemma fold_suffix (pf : platform) (cs : bool) (s t : str) :
  s `suffix_of` t →
  (if negb cs then Filter.norm_case pf s else s)
    `suffix_of` (if negb cs then Filter.norm_case pf t else t).
Proof.
  intros [k ->]. destruct cs; simpl; [by exists k|].
  destruct (norm_case_map pf) as [g Hg]. rewrite !Hg, map_app.
  by eexists.
Qed.

(** What holds of C3: for a pattern of two separators or more, an answer
    [True] means that the compared candidate ends with the stored pattern,
    which [__init__] starts with a separator: the match is aligned on a
    component boundary. *)
Lemma tail_match_aligned (pf : platform) (f : PathTailFilter.t) (path : str) :
  (2 ≤ PathTailFilter.seps_count f)%nat →
  PathTailFilter.match_ pf f path = Ok true →
  PathTailFilter.pattern f
    `suffix_of` compared_path pf (PathTailFilter.case_sensitive f) path.
Proof.
  intros Hk. unfold PathTailFilter.match_, Filter.norm_path, compared_path.
  cbn [mbind result_bind].
  set (n := OsPath.normpath pf path).
  set (cs := PathTailFilter.case_sensitive f).
  destruct (PathTailFilter.seps_count f) as [|[|k]] eqn:Ek; [lia | lia |].
  cbn [Nat.eqb orb].
  destruct (PathTailFilter.tail_pos _ _ _ _) as [pos|] eqn:E; [|discriminate].
  cbn [mbind result_bind].
  apply tail_pos_lookup in E as [Hpos Hl]; [|lia].
  set (p1 := if 0 <? pos then PyStr.slice_from n pos else n).
  assert (p1 `suffix_of` n ∧ head p1 = Some (OsPath.sep pf)) as [Hs Hh].
  { subst p1. destruct (0 <? pos) eqn:Hp.
    - unfold PyStr.slice_from. split; [apply suffix_drop|].
      assert (PyStr.clip (length n) pos = Z.to_nat pos) as ->.
      { apply lookup_lt_Some in Hl. unfold PyStr.clip.
        destruct (pos <? 0) eqn:Hneg; lia. }
      by rewrite head_lookup, lookup_drop, Nat.add_0_r.
    - split; [reflexivity|]. assert (pos = 0) as -> by lia.
      simpl in Hl. by rewrite head_lookup. }
  set (p2 := if negb cs then Filter.norm_case pf p1 else p1).
  assert (∃ t, p2 = OsPath.sep pf :: t) as [t Hp2].
  { subst p2. destruct p1 as [|c p1']; [discriminate|].
    injection Hh as ->. destruct cs; simpl; [eauto|].
    rewrite norm_case_head_sep. eauto. }
  rewrite Hp2. cbn [item0 mbind result_bind]. rewrite Ascii.eqb_refl.
  cbn [negb]. intros [= H]. apply compare_tail_suffix in H.
  etrans; [exact H|]. rewrite <- Hp2. subst p2.
  by apply fold_suffix.
Qed.

Example tail_match_aligned_example :
  py "\dir\test" `suffix_of` py "c:\foo\dir\test".
Proof.
  apply (tail_match_aligned Windows
           (PathTailFilter.Build None true (py "\dir\test") false 2)
           (py "C:/Foo/Dir/Test")).
  - simpl. lia.
  - vm_compute. reflexivity.
Defined.

(** ** Rendering and recompiling *)

(** C1, at the failing inputs.  The rule [test] compiles to a
    [PathTailFilter]; its rendering is the sign and the stored pattern,
    which starts with the separator put in front by [__init__], and
    compiling the rendering fails: the path is absolute.  The rule
    [regex: abc] compiles to a [PathRegexFilter] whose rendering compiles
    again, but comparing the two filters raises [AttributeError] from
    [__hash__]. *)
Theorem roundtrip_fails_on_tail_and_regex :
  ∀ (pf : platform) (re_compile : re_compiler) (py_hash : hash_fn),
    (∃ f, create_filter pf re_compile (py "test") = Ok (Tail f)
          ∧ py_str (Tail f) = py "+ " ++ OsPath.sep pf :: py "test"
          ∧ create_filter pf re_compile (py_str (Tail f))
            = Raise (ValueError "absolute path in filter"))
    ∧ (∃ f g, create_filter pf re_compile_plain (py "regex: abc")
                = Ok (Regex f)
              ∧ py_str (Regex f) = py "+ regex: abc"
              ∧ create_filter pf re_compile_plain (py_str (Regex f))
                = Ok (Regex g)
              ∧ py_eq py_hash (Regex f) (Regex g)
                = Raise (AttributeError
                    "type object 'PathRegexFilter' has no attribute 'name'")).
Proof.
  intros pf rc h. split.
  - destruct pf; eexists; (split; [vm_compute; reflexivity|]);
      split; vm_compute; reflexivity.
  - destruct pf; eexists _, _; (split; [vm_compute; reflexivity|]);
      (split; [vm_compute; reflexivity|]);
      (split; [vm_compute; reflexivity|]); vm_compute; reflexivity.
Qed.

(** ** Hashing and equality *)

(** A [PathRegexFilter] fresh from [__init__] cannot be hashed. *)
Lemma regex_hash_raises (re_compile : re_compiler) (pattern : str)
    (cs nd incl : bool) (f : PathRegexFilter.t) (py_hash : hash_fn) :
  PathRegexFilter.__init__ re_compile pattern cs nd incl = Ok f →
  PathRegexFilter.__hash__ py_hash f
  = Raise (AttributeError
             "type object 'PathRegexFilter' has no attribute 'name'").
Proof.
  unfold PathRegexFilter.__init__.
  destruct (re_compile pattern (negb cs)); [discriminate|].
  intros [= <-]. reflexivity.
Qed.

(** Two [ExtensionsFilter] objects with the same sign and the same suffixes
    compare equal, whatever their [case_sensitive]. *)
Lemma ext_eq_ignores_case (py_hash : hash_fn) (f g : ExtensionsFilter.t) :
  ExtensionsFilter.hash_cache f = None →
  ExtensionsFilter.hash_cache g = None →
  ExtensionsFilter.inclusive f = ExtensionsFilter.inclusive g →
  ExtensionsFilter.ext f = ExtensionsFilter.ext g →
  ∃ f' g', ExtensionsFilter.__eq__ py_hash f g = Ok (true, f', g').
Proof.
  intros Hf Hg Hi He.
  unfold ExtensionsFilter.__eq__, ExtensionsFilter.__hash__.
  rewrite Hf, Hg, Hi, He. cbn [mbind result_bind].
  rewrite Z.eqb_refl. eauto.
Qed.

(** C7, at the failing inputs.  Hashing a [PathRegexFilter] raises
    [AttributeError]: [__hash__] reads the attribute [name] of the class,
    which does not exist.  And the hash of an [ExtensionsFilter] leaves
    [case_sensitive] out: the filters of [ext:case: .tmp] and of
    [ext: .tmp] differ in that flag and compare equal. *)
Theorem hash_raises_or_ignores_flag :
  ∀ (pf : platform) (py_hash : hash_fn),
    (∃ f, PathRegexFilter.__init__ re_compile_plain (py "abc") false false
            true = Ok f
          ∧ PathRegexFilter.__hash__ py_hash f
            = Raise (AttributeError
                "type object 'PathRegexFilter' has no attribute 'name'"))
    ∧ (∃ f g f' g',
         ExtensionsFilter.__init__ pf (py ".tmp") true true = Ok f
         ∧ ExtensionsFilter.__init__ pf (py ".tmp") false true = Ok g
         ∧ ExtensionsFilter.case_sensitive f = true
         ∧ ExtensionsFilter.case_sensitive g = false
         ∧ ExtensionsFilter.__eq__ py_hash f g = Ok (true, f', g')).
Proof.
  intros pf h. split.
  - eexists. split; vm_compute; reflexivity.
  - assert (∃ f g,
              ExtensionsFilter.__init__ pf (py ".tmp") true true = Ok f
              ∧ ExtensionsFilter.__init__ pf (py ".tmp") false true = Ok g
              ∧ ExtensionsFilter.case_sensitive f = true
              ∧ ExtensionsFilter.case_sensitive g = false
              ∧ ExtensionsFilter.hash_cache f = None
              ∧ ExtensionsFilter.hash_cache g = None
              ∧ ExtensionsFilter.inclusive f = ExtensionsFilter.inclusive g
              ∧ ExtensionsFilter.ext f = ExtensionsFilter.ext g)
      as (f & g & Hf & Hg & Hcf & Hcg & H1 & H2 & H3 & H4).
    { destruct pf; eexists _, _; (split; [vm_compute; reflexivity|]);
        (split; [vm_compute; reflexivity|]);
        repeat split; vm_compute; reflexivity. }
    destruct (ext_eq_ignores_case h f g H1 H2 H3 H4) as (f' & g' & Heq).
    exists f, g, f', g'. repeat split; assumption.
Qed.

(** Where [__hash__] answers, it answers the same on every later call. *)
Lemma tail_hash_stable (py_hash : hash_fn) (f f' : PathTailFilter.t) (v : Z) :
  PathTailFilter.__hash__ py_hash f = Ok (v, f') →
  PathTailFilter.__hash__ py_hash f' = Ok (v, f').
Proof.
  unfold PathTailFilter.__hash__.
  destruct (PathTailFilter.hash_cache f) eqn:E; intros [= <- <-].
  - by rewrite E.
  - reflexivity.
Qed.

Lemma shell_hash_stable (py_hash : hash_fn) (f f' : PathShellFilter.t)
    (v : Z) :
  PathShellFilter.__hash__ py_hash f = Ok (v, f') →
  PathShellFilter.__hash__ py_hash f' = Ok (v, f').
Proof.
  unfold PathShellFilter.__hash__.
  destruct (PathShellFilter.hash_cache f) eqn:E; intros [= <- <-].
  - by rewrite E.
  - reflexivity.
Qed.

Lemma ext_hash_stable (py_hash : hash_fn) (f f' : ExtensionsFilter.t)
    (v : Z) :
  ExtensionsFilter.__hash__ py_hash f = Ok (v, f') →
  ExtensionsFilter.__hash__ py_hash f' = Ok (v, f').
Proof.
  unfold ExtensionsFilter.__hash__.
  destruct (ExtensionsFilter.hash_cache f) eqn:E; intros [= <- <-].
  - by rewrite E.
  - reflexivity.
Qed.

Lemma attr_hash_stable (py_hash : hash_fn) (f f' : WinAttrFilter.t) (v : Z) :
  WinAttrFilter.__hash__ py_hash f = Ok (v, f') →
  WinAttrFilter.__hash__ py_hash f' = Ok (v, f').
Proof.
  unfold WinAttrFilter.__hash__.
  destruct (WinAttrFilter.hash_cache f) eqn:E; intros [= <- <-].
  - by rewrite E.
  - reflexivity.
Qed.

(** ** The self-test of the module

    The assertions that the source runs on Windows under [__main__], for the
    filters that need no [re]: the embedding gives each the expected class
    and the expected answers. *)

Example self_test_tail :
  (∃ f, create_filter Windows re_compile_plain (py "test") = Ok (Tail f)
        ∧ PathTailFilter.inclusive f = true
        ∧ PathTailFilter.case_sensitive f = false
        ∧ map (λ s, PathTailFilter.match_ Windows f (py s))
              ["test"; "TeSt"; "/test"; "/test/"; "c:\test"; "c:/test/";
               "D:/test"; "testt"]%string
          = [Ok true; Ok true; Ok true; Ok true; Ok true; Ok true; Ok true;
             Ok false])
  ∧ (∃ f, create_filter Windows re_compile_plain (py "dir/test") = Ok (Tail f)
          ∧ map (λ s, PathTailFilter.match_ Windows f (py s))
                ["c:\foo\dir\test\\"; "c:\foo\_dir\test"]%string
            = [Ok true; Ok false])
  ∧ map (λ s, create_filter Windows re_compile_plain (py s))
        ["/test"; "c:/test"; "\\?\c:\test"; "\\server\share\dir"]%string
    = repeat (Raise (ValueError "absolute path in filter")) 4.
Proof.
  split; [|split].
  - eexists. split; [vm_compute; reflexivity|].
    split; [reflexivity|]. split; [reflexivity|]. vm_compute; reflexivity.
  - eexists. split; [vm_compute; reflexivity|]. vm_compute; reflexivity.
  - vm_compute; reflexivity.
Qed.

Example self_test_shell :
  (∃ f, create_filter Windows re_compile_plain (py "t?st") = Ok (Shell f)
        ∧ map (λ s, PathShellFilter.match_ Windows f (py s))
              ["test"; "c:/dir/test"; "dir/test"; "tst"]%string
          = [Ok true; Ok false; Ok false; Ok false])
  ∧ (∃ f, create_filter Windows re_compile_plain (py "*/dir/t?st")
            = Ok (Shell f)
          ∧ map (λ s, PathShellFilter.match_ Windows f (py s))
                ["c:\foo\dir\test"; "c:\foo\dir\test\\"; "dir/test";
                 "c:\foo\_dir\test"; "dir"; "test"]%string
            = [Ok true; Ok true; Ok false; Ok false; Ok false; Ok false])
  ∧ (∃ f, create_filter Windows re_compile_plain (py "dir/*") = Ok (Shell f)
          ∧ map (λ s, PathShellFilter.match_ Windows f (py s))
                ["dir/test"; "\dir\test"; "c:\foo\dir\test";
                 "c:\foo\_dir\test"; "dir"; "test"]%string
            = [Ok true; Ok false; Ok false; Ok false; Ok false; Ok false])
  ∧ (∃ f, create_filter Windows re_compile_plain (py "*/dir/*")
            = Ok (Shell f)
          ∧ map (λ s, PathShellFilter.match_ Windows f (py s))
                ["dir/test"; "\dir\test"; "any\dir\test"; "any\dir";
                 "c:\foo\dir\test"; "c:\foo\dir\test\\";
                 "test\any_dir\test"; "dir"; "test"]%string
            = [Ok false; Ok true; Ok true; Ok false; Ok true; Ok true;
               Ok false; Ok false; Ok false]).
Proof.
  split; [|split; [|split]];
    (eexists; split; [vm_compute; reflexivity|]); vm_compute; reflexivity.
Qed.

(** ** Normalised patterns *)

Lemma posix_normpath_nonempty (s : str) : PosixPath.normpath s ≠ [].
Proof.
  unfold PosixPath.normpath.
  destruct (PyStr.eqb s []); [discriminate|].
  match goal with |- context [PyStr.eqb ?p []] => destruct (PyStr.eqb p []) eqn:E end;
    [discriminate|].
  intros H. rewrite H in E. discriminate E.
Qed.

Lemma nt_norm_step_nonempty (prefix : str) (comps : list str) (comp : str) :
  Forall (λ c, c ≠ []) comps →
  Forall (λ c, c ≠ []) (NtPath.norm_step prefix comps comp).
Proof.
  intros H. unfold NtPath.norm_step.
  destruct (PyStr.eqb comp []) eqn:E; simpl; [exact H|].
  assert (comp ≠ []) as Hc.
  { intros ->. discriminate E. }
  assert (Forall (λ c, c ≠ []) (comps ++ [comp])) as Happ.
  { apply Forall_app. split; [exact H | by constructor]. }
  assert (Forall (λ c, c ≠ []) (removelast comps)) as Hrm.
  { clear -H. induction H as [|x l Hx Hl IH]; simpl; [constructor|].
    destruct l; [constructor|]. constructor; assumption. }
  repeat match goal with
         | |- context [if ?b then _ else _] => destruct b
         end; assumption.
Qed.

Lemma nt_norm_fold_nonempty (prefix : str) (l acc : list str) :
  Forall (λ c, c ≠ []) acc →
  Forall (λ c, c ≠ []) (fold_left (NtPath.norm_step prefix) l acc).
Proof.
  revert acc. induction l as [|c l IH]; intros acc H; simpl; [exact H|].
  apply IH, nt_norm_step_nonempty, H.
Qed.

Lemma join_nonempty (sep : str) (l : list str) :
  l ≠ [] → Forall (λ c, c ≠ []) l → PyStr.join sep l ≠ [].
Proof.
  intros Hl H. destruct H as [|x l Hx Hr]; [done|].
  simpl. destruct l; [exact Hx|]. destruct x; [done | discriminate].
Qed.

Lemma nt_normpath_nonempty (s : str) : NtPath.normpath s ≠ [].
Proof.
  unfold NtPath.normpath.
  destruct (NtPath.special_prefix s) eqn:E.
  { intros ->. discriminate E. }
  destruct (NtPath.splitdrive _) as [prefix path2].
  destruct (PyStr.startswith path2 [NtPath.sep]).
  - intros H. apply app_eq_nil in H as [H _]. by apply app_eq_nil in H as [_ H].
  - set (comps := fold_left _ _ _).
    assert (Forall (λ c, c ≠ []) comps) as Hc
      by (apply nt_norm_fold_nonempty; constructor).
    destruct prefix as [|c prefix]; [|discriminate]. simpl.
    destruct comps as [|x comps]; simpl.
    + discriminate.
    + apply (join_nonempty [NtPath.sep] (x :: comps)); [discriminate | exact Hc].
Qed.

Lemma normpath_nonempty (pf : platform) (s : str) : OsPath.normpath pf s ≠ [].
Proof. destruct pf; [apply posix_normpath_nonempty | apply nt_normpath_nonempty]. Qed.

Lemma norm_path_pattern_cases :
  ∀ (pf : platform) (s : str),
    Filter.norm_path pf s true = Raise (ValueError "absolute path in filter")
    ∨ (Filter.norm_path pf s true = Ok (OsPath.normpath pf s)
       ∧ OsPath.normpath pf s ≠ []
       ∧ fst (OsPath.splitdrive pf (OsPath.normpath pf s)) = []
       ∧ OsPath.isabs pf (OsPath.normpath pf s) = false).
Proof.
  intros pf s. unfold Filter.norm_path.
  pose proof (normpath_nonempty pf s) as Hne.
  set (n := OsPath.normpath pf s) in *.
  assert (∃ k, OsPath.splitdrive pf n = (take k n, drop k n)) as [k Hk].
  { destruct pf; [by exists 0%nat | apply nt_splitdrive_cut]. }
  rewrite Hk. cbn [fst].
  destruct (take k n) as [|c d] eqn:Hd; [|by left].
  rewrite (take_nil_drop k n Hd). cbn [PyStr.nonempty orb].
  destruct (OsPath.isabs pf n); [by left|]. right.
  destruct n; [done|]. cbn [PyStr.nonempty negb]. done.
Qed.

(** X1.  [norm_path] on a pattern has two outcomes: it refuses the pattern
    as absolute, or it returns the normalised pattern, which is then not
    empty, carries no drive and is not absolute.  The error
    [invalid path format] is never raised: [normpath] never returns the
    empty string. *)
Theorem norm_path_pattern_outcomes :
  ∀ (pf : platform) (s : str),
    Filter.norm_path pf s true = Raise (ValueError "absolute path in filter")
    ∨ (Filter.norm_path pf s true = Ok (OsPath.normpath pf s)
       ∧ OsPath.normpath pf s ≠ []
       ∧ fst (OsPath.splitdrive pf (OsPath.normpath pf s)) = []
       ∧ OsPath.isabs pf (OsPath.normpath pf s) = false).
Proof. apply norm_path_pattern_cases. Qed.

(** ** Regular expression and tail filters, further *)

(** X2.  Without [nodrive], a regular expression filter answers what its
    compiled expression answers on the normalised candidate, case-folded
    unless the filter is case sensitive; it never raises and never takes
    the early [False] exit. *)
Theorem regex_match_without_nodrive :
  ∀ (pf : platform) (f : PathRegexFilter.t) (path : str),
    PathRegexFilter.nodrive f = false →
    ∀ m, PathRegexFilter.match_ pf (with_matcher f m) path
         = Ok (m (compared_path pf (PathRegexFilter.case_sensitive f) path)).
Proof.
  intros pf f path Hnd m.
  unfold PathRegexFilter.match_, Filter.norm_path, compared_path. simpl.
  rewrite Hnd. unfold PathRegexFilter.match_tail. simpl.
  pose proof (normpath_nonempty pf path) as Hne.
  destruct (OsPath.normpath pf path); [done|]. reflexivity.
Qed.

Lemma regex_match_without_nodrive_witness :
  PathRegexFilter.match_ Windows
    (with_matcher
       (PathRegexFilter.Build None true (py "abc") false false (λ _, false))
       (PyStr.eqb (py ".")))
    []
  = Ok (PyStr.eqb (py ".") (compared_path Windows false [])).
Proof.
  apply (regex_match_without_nodrive Windows
           (PathRegexFilter.Build None true (py "abc") false false
              (λ _, false)) []).
  reflexivity.
Defined.

Lemma lower_char_sep (c : ascii) :
  (PyStr.lower_char c = PosixPath.sep → c = PosixPath.sep)
  ∧ (PyStr.lower_char c = NtPath.sep → c = NtPath.sep).
Proof.
  destruct c as [[] [] [] [] [] [] [] []]; split; vm_compute; congruence.
Qed.

Lemma norm_case_head (pf : platform) (c : ascii) (t : str) :
  ∃ c' t', Filter.norm_case pf (c :: t) = c' :: t'
           ∧ (c' = OsPath.sep pf →
              c = OsPath.sep pf ∨ (pf = Windows ∧ c = NtPath.altsep)).
Proof.
  destruct pf; simpl.
  - eexists _, _. split; [reflexivity|]. intros H.
    apply lower_char_sep in H as ->. by left.
  - unfold NtPath.normcase. simpl. eexists _, _. split; [reflexivity|].
    intros H. apply lower_char_sep in H.
    destruct (Ascii.eqb c NtPath.altsep) eqn:E.
    + apply Ascii.eqb_eq in E. by right.
    + by left.
Qed.

Lemma magic_fold (pf : platform) (s : str) :
  Glob.has_magic (Filter.norm_case pf s) = Glob.has_magic s.
Proof.
  assert (∀ c, (Ascii.eqb (PyStr.lower_char c) "*"
                || Ascii.eqb (PyStr.lower_char c) "?"
                || Ascii.eqb (PyStr.lower_char c) "[")
               = (Ascii.eqb c "*" || Ascii.eqb c "?" || Ascii.eqb c "[")) as Hl.
  { intros c. destruct c as [[] [] [] [] [] [] [] []]; reflexivity. }
  unfold Glob.has_magic.
  destruct pf; unfold Filter.norm_case; cbn [IS_WINDOWS OsPath.normcase].
  - unfold PyStr.lower. induction s as [|c s IH]; [reflexivity|].
    cbn [map existsb]. by rewrite Hl, IH.
  - unfold NtPath.normcase, PyStr.lower, PyStr.replace.
    induction s as [|c s IH]; [reflexivity|].
    cbn [map existsb]. rewrite Hl, IH. f_equal.
    destruct (Ascii.eqb c NtPath.altsep) eqn:E; [|reflexivity].
    apply Ascii.eqb_eq in E as ->. reflexivity.
Qed.

Lemma count_cons_sep (c : ascii) (s : str) :
  PyStr.count c (c :: s) = S (PyStr.count c s).
Proof.
  unfold PyStr.count, str.
  rewrite filter_cons_True by apply Ascii.eqb_refl. reflexivity.
Qed.

Lemma tail_init_fields :
  ∀ (pf : platform) (pattern : str) (case_sensitive inclusive : bool)
    (f : PathTailFilter.t),
    PathTailFilter.__init__ pf pattern case_sensitive inclusive = Ok f →
    PathTailFilter.pattern f
      = OsPath.sep pf :: compared_path pf case_sensitive pattern
    ∧ PathTailFilter.seps_count f
      = S (PyStr.count (OsPath.sep pf)
             (compared_path pf case_sensitive pattern))
    ∧ Glob.has_magic (PathTailFilter.pattern f) = false
    ∧ PathTailFilter.hash_cache f = None
    ∧ PathTailFilter.inclusive f = inclusive
    ∧ PathTailFilter.case_sensitive f = case_sensitive.
Proof.
  intros pf pattern cs incl f. unfold PathTailFilter.__init__.
  destruct (norm_path_pattern_cases pf pattern)
    as [-> | (-> & Hne & Hd & Habs)]; [discriminate|].
  cbn [mbind result_bind]. unfold compared_path.
  set (n := OsPath.normpath pf pattern) in *.
  destruct (Glob.has_magic n) eqn:Hm; [discriminate|].
  cbn [py_assert negb mbind result_bind].
  set (p := if negb cs then Filter.norm_case pf n else n).
  assert (Glob.has_magic p = false) as Hmp.
  { subst p. destruct cs; simpl; [exact Hm|]. by rewrite magic_fold. }
  assert (∃ c t, p = c :: t ∧ c ≠ OsPath.sep pf) as (c & t & Hp & Hc).
  { destruct n as [|c0 t0]; [done|].
    assert (c0 ≠ OsPath.sep pf ∧ ¬ (pf = Windows ∧ c0 = NtPath.altsep))
      as [H1 H2].
    { destruct pf; simpl in Habs.
      - unfold PosixPath.isabs in Habs. cbn [PyStr.startswith] in Habs.
        rewrite andb_true_r in Habs. split.
        + intros ->. by rewrite Ascii.eqb_refl in Habs.
        + by intros [? _].
      - unfold NtPath.isabs in Habs. simpl in Hd.
        destruct (nt_splitdrive_cut (c0 :: t0)) as [k Hk].
        rewrite Hk in Hd, Habs. simpl in Hd, Habs.
        rewrite (take_nil_drop k _ Hd) in Habs.
        unfold NtPath.is_sep in Habs. apply orb_false_iff in Habs as [Ha Hb].
        split.
        + intros ->. by rewrite Ascii.eqb_refl in Ha.
        + intros [_ ->]. by rewrite Ascii.eqb_refl in Hb. }
    subst p. destruct cs; simpl.
    - eauto.
    - destruct (norm_case_head pf c0 t0) as (c' & t' & -> & Hc').
      exists c', t'. split; [reflexivity|]. intros E.
      destruct (Hc' E) as [?|?]; done. }
  rewrite Hp. cbn [item0 mbind result_bind].
  assert (Ascii.eqb c (OsPath.sep pf) = false) as ->
    by (by apply Ascii.eqb_neq).
  cbn [negb]. intros [= <-].
  cbn [PathTailFilter.pattern PathTailFilter.seps_count
       PathTailFilter.hash_cache PathTailFilter.inclusive
       PathTailFilter.case_sensitive].
  split; [reflexivity|]. split; [apply count_cons_sep|].
  split; [|done]. rewrite Hp in Hmp.
  unfold Glob.has_magic in *. cbn [existsb] in *. rewrite Hmp.
  destruct pf; reflexivity.
Qed.



Lemma rfind_from_last (c : ascii) (s : str) (i : nat) :
  match PyStr.rfind_from c s i with
  | Some j => (i ≤ j)%nat ∧ PyStr.contains c (drop (S (j - i)) s) = false
  | None => PyStr.contains c s = false
  end.
Proof.
  revert i. induction s as [|a s IH]; intros i; simpl; [reflexivity|].
  specialize (IH (S i)).
  destruct (PyStr.rfind_from c s (S i)) as [j|].
  - destruct IH as [Hle IH]. split; [lia|].
    replace (j - i)%nat with (S (j - S i)) by lia. exact IH.
  - rewrite (Ascii.eqb_sym c a). destruct (Ascii.eqb a c).
    + split; [lia|]. by rewrite Nat.sub_diag.
    + exact IH.
Qed.

Lemma posix_basename_no_sep (p : str) :
  PyStr.contains PosixPath.sep (PosixPath.basename p) = false.
Proof.
  unfold PosixPath.basename, PyStr.rfind.
  assert (PyStr.clip (length p) 0 = 0%nat) as -> by (unfold PyStr.clip; simpl; lia).
  assert (PyStr.clip (length p) (Z.of_nat (length p)) = length p) as ->.
  { unfold PyStr.clip. destruct (Z.of_nat (length p) <? 0) eqn:E; lia. }
  rewrite take_ge by lia. change (drop 0 p) with p.
  pose proof (rfind_from_last PosixPath.sep p 0) as H.
  destruct (PyStr.rfind_from PosixPath.sep p 0) as [j|].
  - destruct H as [_ H]. rewrite Nat.sub_0_r in H. exact H.
  - exact H.
Qed.

Lemma nt_beyond_last_sep_spec (p : str) (i k : nat) (c : ascii) :
  (NtPath.beyond_last_sep p i ≤ k < i)%nat → p !! k = Some c →
  NtPath.is_sep c = false.
Proof.
  induction i as [|i IH]; simpl; [lia|].
  destruct (p !! i) as [ci|] eqn:Ei.
  - destruct (NtPath.is_sep ci) eqn:Es; [lia|].
    intros Hk Hc. destruct (decide (k = i)) as [->|Hne].
    + congruence.
    + apply IH; [lia | exact Hc].
  - intros Hk Hc. destruct (decide (k = i)) as [->|Hne]; [congruence|].
    apply IH; [lia | exact Hc].
Qed.

Lemma nt_basename_no_sep (p : str) (c : ascii) :
  c ∈ NtPath.basename p → NtPath.is_sep c = false.
Proof.
  unfold NtPath.basename. set (p' := snd (NtPath.splitdrive p)).
  intros [k Hk]%list_elem_of_lookup_1. rewrite lookup_drop in Hk.
  pose proof (lookup_lt_Some _ _ _ Hk) as Hlt.
  apply (nt_beyond_last_sep_spec p' (length p') _ c) in Hk; [exact Hk | lia].
Qed.

Lemma contains_false (c : ascii) (s : str) :
  PyStr.contains c s = false ↔ c ∉ s.
Proof.
  unfold PyStr.contains. split.
  - intros H Hin. apply not_true_iff_false in H. apply H.
    apply existsb_exists. exists c. split; [by apply list_elem_of_In|].
    apply Ascii.eqb_refl.
  - intros H. apply not_true_iff_false. intros Hex.
    apply existsb_exists in Hex as (x & Hin & Hx).
    apply Ascii.eqb_eq in Hx as ->. by apply H, list_elem_of_In.
Qed.

Lemma compared_basename_no_sep (pf : platform) (cs : bool) (path : str) :
  OsPath.sep pf ∉ compared_basename pf cs path.
Proof.
  unfold compared_basename. set (n := OsPath.normpath pf path).
  destruct pf.
  - assert (PosixPath.sep ∉ PosixPath.basename n) as H
      by apply contains_false, posix_basename_no_sep.
    destruct cs; cbn [negb]; [exact H|].
    unfold Filter.norm_case, PyStr.lower. cbn [IS_WINDOWS].
    intros (c & Hc & Hin)%list_elem_of_fmap.
    symmetry in Hc. apply lower_char_sep in Hc as ->. by apply H.
  - assert (NtPath.sep ∉ NtPath.basename n) as H.
    { intros Hin. apply nt_basename_no_sep in Hin. discriminate Hin. }
    destruct cs; cbn [negb]; [exact H|].
    assert (∀ s, Filter.norm_case Windows s
                 = map (λ c, PyStr.lower_char
                               (if Ascii.eqb c NtPath.altsep then NtPath.sep
                                else c)) s) as ->.
    { intros s. unfold Filter.norm_case. cbn [IS_WINDOWS OsPath.normcase].
      unfold NtPath.normcase, PyStr.lower, PyStr.replace. by rewrite map_map. }
    intros (c & Hc & Hin)%list_elem_of_fmap.
    symmetry in Hc. apply lower_char_sep in Hc.
    destruct (Ascii.eqb c NtPath.altsep) eqn:E.
    + apply Ascii.eqb_eq in E as ->.
      apply nt_basename_no_sep in Hin. discriminate Hin.
    + subst c. by apply H.
Qed.

Lemma compare_tail_single (f : PathTailFilter.t) (sep : ascii) (b : str) :
  head (PathTailFilter.pattern f) = Some sep → sep ∉ b →
  PathTailFilter.compare_tail f (sep :: b)
  = bool_decide (PathTailFilter.pattern f = sep :: b).
Proof.
  intros Hh Hb. unfold PathTailFilter.compare_tail.
  destruct (PathTailFilter.pattern f) as [|c q] eqn:Hp; [discriminate|].
  injection Hh as ->. simpl length.
  destruct (0 <? _) eqn:E1.
  - rewrite bool_decide_eq_false_2
      by (intros [= ->]; apply Z.ltb_lt in E1; lia).
    apply not_true_iff_false. intros H%endswith_suffix.
    apply suffix_cons_inv in H as [[= ->]|H].
    + apply Z.ltb_lt in E1. lia.
    + apply Hb. eapply elem_of_suffix; [|exact H]. apply list_elem_of_here.
  - destruct (_ =? 0) eqn:E2.
    + unfold PyStr.eqb. apply bool_decide_ext. split; congruence.
    + symmetry. apply bool_decide_eq_false_2. intros [= ->].
      apply Z.eqb_neq in E2. lia.
Qed.

(** X4.  A tail filter of one component (its stored pattern has the one
    separator put in front by [__init__]) always answers, and answers
    [True] exactly when the last component of the normalised candidate,
    case-folded unless the filter is case sensitive, is the pattern. *)
Theorem tail_match_single_component :
  ∀ (pf : platform) (pattern : str) (case_sensitive inclusive : bool)
    (f : PathTailFilter.t),
    PathTailFilter.__init__ pf pattern case_sensitive inclusive = Ok f →
    PathTailFilter.seps_count f = 1%nat →
    ∀ path,
      PathTailFilter.match_ pf f path
      = Ok (bool_decide (compared_basename pf case_sensitive path
                         = compared_path pf case_sensitive pattern)).
Proof.
  intros pf pattern cs incl f Hinit Hk path.
  apply tail_init_fields in Hinit as (Hp & _ & _ & _ & _ & Hcs).
  unfold PathTailFilter.match_, Filter.norm_path. cbn [mbind result_bind].
  rewrite Hk, Hcs. cbn [Nat.eqb orb]. f_equal.
  fold (compared_basename pf cs path).
  rewrite compare_tail_single.
  - rewrite Hp. apply bool_decide_ext. split; congruence.
  - by rewrite Hp.
  - apply compared_basename_no_sep.
Qed.

Lemma tail_match_single_component_witness :
  ∃ f, PathTailFilter.__init__ Posix (py "Test") false true = Ok f
       ∧ ∀ path,
           PathTailFilter.match_ Posix f path
           = Ok (bool_decide (compared_basename Posix false path
                              = compared_path Posix false (py "Test"))).
Proof.
  eexists. split; [vm_compute; reflexivity|].
  apply (tail_match_single_component Posix (py "Test") false true).
  - vm_compute. reflexivity.
  - reflexivity.
Defined.

Lemma tail_match_raises_without_separator_witness :
  PathTailFilter.match_ Posix
    (PathTailFilter.Build None true (py "/dir/test") false 2) (py "test")
  = Raise (ValueError "substring not found").
Proof.
  apply (tail_match_raises_without_separator Posix
           (PathTailFilter.Build None true (py "/dir/test") false 2)
           (py "test")).
  - simpl. lia.
  - vm_compute. reflexivity.
Defined.

(** ** Hashing and equality, further *)

(** X7.  [__hash__] memoizes in [hash_cache]: where hashing a filter
    answers, the filter it leaves behind holds the answer in its
    [hash_cache]; a value cached before the call is the answer and the
    filter is left as it was; hashing again answers the same value, changes
    nothing any more and does not call [hash]; and the rendering of the
    filter is not affected by the cache. *)
Theorem hash_memoized :
  ∀ (py_hash : hash_fn) (f f' : AnyFilter) (v : Z),
    py_hash_of py_hash f = Ok (v, f') →
    hash_cache_of f' = Some v
    ∧ (∀ c, hash_cache_of f = Some c → v = c ∧ f' = f)
    ∧ (∀ py_hash', py_hash_of py_hash' f' = Ok (v, f'))
    ∧ py_str f' = py_str f.
Proof.
  intros h f f' v. destruct f as [f|f|f|f|f]; cbn [py_hash_of hash_cache_of].
  - unfold PathRegexFilter.__hash__.
    destruct (PathRegexFilter.hash_cache f) eqn:E; [|discriminate].
    cbn [mbind result_bind]. intros [= <- <-]. cbn [py_hash_of hash_cache_of].
    unfold PathRegexFilter.__hash__. rewrite E.
    split; [reflexivity|]. split; [by intros c [= <-]|].
    split; [intros h'|]; reflexivity.
  - unfold PathTailFilter.__hash__.
    destruct (PathTailFilter.hash_cache f) eqn:E;
      cbn [mbind result_bind]; intros [= <- <-];
      cbn [py_hash_of hash_cache_of]; unfold PathTailFilter.__hash__;
      cbn [PathTailFilter.hash_cache]; rewrite ?E;
      (split; [reflexivity|]);
      (split; [intros c Hc; try discriminate Hc; injection Hc as <-;
               by split|]);
      (split; [intros h'|]; reflexivity).
  - unfold PathShellFilter.__hash__.
    destruct (PathShellFilter.hash_cache f) eqn:E;
      cbn [mbind result_bind]; intros [= <- <-];
      cbn [py_hash_of hash_cache_of]; unfold PathShellFilter.__hash__;
      cbn [PathShellFilter.hash_cache]; rewrite ?E;
      (split; [reflexivity|]);
      (split; [intros c Hc; try discriminate Hc; injection Hc as <-;
               by split|]);
      (split; [intros h'|]; reflexivity).
  - unfold ExtensionsFilter.__hash__.
    destruct (ExtensionsFilter.hash_cache f) eqn:E;
      cbn [mbind result_bind]; intros [= <- <-];
      cbn [py_hash_of hash_cache_of]; unfold ExtensionsFilter.__hash__;
      cbn [ExtensionsFilter.hash_cache]; rewrite ?E;
      (split; [reflexivity|]);
      (split; [intros c Hc; try discriminate Hc; injection Hc as <-;
               by split|]);
      (split; [intros h'|]; reflexivity).
  - unfold WinAttrFilter.__hash__.
    destruct (WinAttrFilter.hash_cache f) eqn:E;
      cbn [mbind result_bind]; intros [= <- <-];
      cbn [py_hash_of hash_cache_of]; unfold WinAttrFilter.__hash__;
      cbn [WinAttrFilter.hash_cache]; rewrite ?E;
      (split; [reflexivity|]);
      (split; [intros c Hc; try discriminate Hc; injection Hc as <-;
               by split|]);
      (split; [intros h'|]; reflexivity).
Qed.

Lemma hash_memoized_witness :
  hash_cache_of
    (Tail (PathTailFilter.Build (Some 7) true (py "/test") false 1))
  = Some 7
  ∧ (∀ c, hash_cache_of
            (Tail (PathTailFilter.Build None true (py "/test") false 1))
          = Some c →
          7 = c
          ∧ Tail (PathTailFilter.Build (Some 7) true (py "/test") false 1)
            = Tail (PathTailFilter.Build None true (py "/test") false 1))
  ∧ (∀ py_hash',
       py_hash_of py_hash'
         (Tail (PathTailFilter.Build (Some 7) true (py "/test") false 1))
       = Ok (7, Tail (PathTailFilter.Build (Some 7) true (py "/test") false 1)))
  ∧ py_str (Tail (PathTailFilter.Build (Some 7) true (py "/test") false 1))
    = py_str (Tail (PathTailFilter.Build None true (py "/test") false 1)).
Proof.
  apply (hash_memoized (λ _, 7)
           (Tail (PathTailFilter.Build None true (py "/test") false 1))).
  vm_compute. reflexivity.
Defined.

(** X8.  [==] on filters is symmetric in its outcome: [f == g] and
    [g == f] give the same answer, or raise the same exception. *)
Theorem py_eq_symmetric :
  ∀ (py_hash : hash_fn) (f g : AnyFilter),
    py_eq py_hash f g = py_eq py_hash g f.
Proof.
  intros h f g. destruct f as [f|f|f|f|f], g as [g|g|g|g|g];
    try reflexivity; cbn [py_eq].
  - unfold PathRegexFilter.__eq__, PathRegexFilter.__hash__.
    destruct (PathRegexFilter.hash_cache f), (PathRegexFilter.hash_cache g);
      cbn; try reflexivity. by rewrite Z.eqb_sym.
  - unfold PathTailFilter.__eq__, PathTailFilter.__hash__.
    destruct (PathTailFilter.hash_cache f), (PathTailFilter.hash_cache g);
      cbn; by rewrite Z.eqb_sym.
  - unfold PathShellFilter.__eq__, PathShellFilter.__hash__.
    destruct (PathShellFilter.hash_cache f), (PathShellFilter.hash_cache g);
      cbn; by rewrite Z.eqb_sym.
  - unfold ExtensionsFilter.__eq__, ExtensionsFilter.__hash__.
    destruct (ExtensionsFilter.hash_cache f), (ExtensionsFilter.hash_cache g);
      cbn; by rewrite Z.eqb_sym.
  - unfold WinAttrFilter.__eq__, WinAttrFilter.__hash__.
    destruct (WinAttrFilter.hash_cache f), (WinAttrFilter.hash_cache g);
      cbn; by rewrite Z.eqb_sym.
Qed.

(** ** Attribute filters

    The masks that [__init__] can build are the unions of the flags of
    [WIN_FILE_ATTRIBUTE]; the round trip through [__str__] and
    [create_filter] is checked on every pair of them. *)

Lemma attr_roundtrip_all_true (rc : re_compiler) :
  forallb (λ d, forallb (attr_roundtrip_pair rc d) attr_masks) attr_masks
  = true.
Proof. vm_cast_no_check (eq_refl true). Qed.

Lemma attr_masks_closed :
  forallb (λ d, forallb (λ fl, existsb (Z.eqb (Z.lor d fl)) attr_masks)
                  WIN_FLAGS) attr_masks = true.
Proof. vm_compute. reflexivity. Qed.

Lemma attr_masks_lor (d fl : Z) :
  In d attr_masks → In fl WIN_FLAGS → In (Z.lor d fl) attr_masks.
Proof.
  intros Hd Hfl. pose proof attr_masks_closed as H.
  rewrite forallb_forall in H. specialize (H d Hd).
  rewrite forallb_forall in H. specialize (H fl Hfl).
  apply existsb_exists in H as (x & Hx & E). apply Z.eqb_eq in E. by rewrite E.
Qed.

Lemma attr_masks_within :
  forallb (λ d, Z.land d WIN_ALL =? d) attr_masks = true.
Proof. vm_compute. reflexivity. Qed.

Lemma dict_get_flag (k : str) (v : Z) :
  dict_get WIN_FILE_ATTRIBUTE k = Some v → In v WIN_FLAGS.
Proof.
  unfold WIN_FILE_ATTRIBUTE. cbn [dict_get].
  repeat match goal with
         | |- context [if ?b then _ else _] => destruct b
         end;
    intros [= <-]; cbn; tauto.
Qed.

Lemma attr_init_step_eq (acc : Z * Z) (c : ascii) (w : str) :
  WinAttrFilter.init_step acc (c :: w)
  = match dict_get WIN_FILE_ATTRIBUTE (attr_name (c :: w)) with
    | None =>
        Raise (ValueError ("unknown file attribute " +:+ dquote
                 +:+ string_of_list_ascii (attr_name (c :: w)) +:+ dquote))
    | Some attr_flag =>
        if negb (Ascii.eqb c "!") then Ok (Z.lor acc.1 attr_flag, acc.2)
        else Ok (acc.1, Z.lor acc.2 attr_flag)
    end.
Proof.
  destruct c as [[] [] [] [] [] [] [] []]; reflexivity.
Qed.

Lemma attr_init_step_masks (acc acc' : Z * Z) (w : str) :
  In acc.1 attr_masks → In acc.2 attr_masks →
  WinAttrFilter.init_step acc w = Ok acc' →
  In acc'.1 attr_masks ∧ In acc'.2 attr_masks
  ∧ (w ≠ [] → is_Some (dict_get WIN_FILE_ATTRIBUTE (attr_name w))).
Proof.
  intros H1 H2. destruct w as [|c w].
  { intros [= <-]. repeat split; try assumption. done. }
  rewrite attr_init_step_eq.
  destruct (dict_get WIN_FILE_ATTRIBUTE _) as [fl|] eqn:E; [|discriminate].
  apply dict_get_flag in E.
  destruct (negb _); intros [= <-]; cbn [fst snd];
    (split; [|split]); eauto using attr_masks_lor.
Qed.

Lemma attr_init_loop_masks (ws : list str) (acc : Z * Z) (d nd : Z) :
  In acc.1 attr_masks → In acc.2 attr_masks →
  WinAttrFilter.init_loop acc ws = Ok (d, nd) →
  In d attr_masks ∧ In nd attr_masks
  ∧ Forall (λ w, w ≠ [] → is_Some (dict_get WIN_FILE_ATTRIBUTE (attr_name w)))
      ws.
Proof.
  revert acc. induction ws as [|w ws IH]; intros acc H1 H2; simpl.
  - intros [= ->]. simpl in *. repeat split; try assumption. constructor.
  - destruct (WinAttrFilter.init_step acc w) as [acc'|] eqn:E; [|discriminate].
    cbn [mbind result_bind].
    apply attr_init_step_masks in E as (H1' & H2' & Hw); try assumption.
    intros H. apply IH in H as (Hd & Hnd & Hws); try assumption.
    repeat split; try assumption. by constructor.
Qed.

Lemma attr_masks_zero : In 0 attr_masks.
Proof. vm_compute. tauto. Qed.

Lemma attr_init_inv (pattern : str) (ma incl : bool) (f : WinAttrFilter.t) :
  WinAttrFilter.__init__ pattern ma incl = Ok f →
  f = WinAttrFilter.Build None incl ma (WinAttrFilter.desired_attr f)
        (WinAttrFilter.not_desired_attr f)
  ∧ In (WinAttrFilter.desired_attr f) attr_masks
  ∧ In (WinAttrFilter.not_desired_attr f) attr_masks
  ∧ attr_valid (WinAttrFilter.desired_attr f)
      (WinAttrFilter.not_desired_attr f) = true
  ∧ Forall (λ w, is_Some (dict_get WIN_FILE_ATTRIBUTE (attr_name w)))
      (PyStr.split_ws (PyStr.lower pattern)).
Proof.
  unfold WinAttrFilter.__init__.
  destruct (WinAttrFilter.init_loop _ _) as [[d nd]|] eqn:E; [|discriminate].
  cbn [mbind result_bind].
  apply attr_init_loop_masks in E as (Hd & Hnd & Hws);
    try apply attr_masks_zero.
  destruct ((d =? 0) && (nd =? 0)) eqn:E0; [discriminate|].
  destruct (Z.land d nd =? 0) eqn:E1; [|discriminate].
  cbn [negb]. intros [= <-]. cbn. repeat split; try assumption.
  - unfold attr_valid. by rewrite E0, E1.
  - unfold PyStr.split_ws in *. apply Forall_forall. intros w Hw.
    rewrite Forall_forall in Hws. apply Hws; [exact Hw|].
    apply list_elem_of_In, filter_In in Hw as [_ Hw].
    destruct w; [discriminate | done].
Qed.


(** X9.  What [WinAttrFilter.__init__] stores when it succeeds: the two
    masks are disjoint and not both zero, they hold no bit outside the
    flags of [WIN_FILE_ATTRIBUTE], every word of the pattern names an
    attribute once its leading [!]s are dropped, and the flags are those
    given. *)
Theorem attr_init_invariant :
  ∀ (pattern : str) (match_all inclusive : bool) (f : WinAttrFilter.t),
    WinAttrFilter.__init__ pattern match_all inclusive = Ok f →
    Z.land (WinAttrFilter.desired_attr f) (WinAttrFilter.not_desired_attr f) = 0
    ∧ ¬ (WinAttrFilter.desired_attr f = 0
         ∧ WinAttrFilter.not_desired_attr f = 0)
    ∧ Z.land (WinAttrFilter.desired_attr f) WIN_ALL
      = WinAttrFilter.desired_attr f
    ∧ Z.land (WinAttrFilter.not_desired_attr f) WIN_ALL
      = WinAttrFilter.not_desired_attr f
    ∧ Forall (λ w, is_Some (dict_get WIN_FILE_ATTRIBUTE (attr_name w)))
        (PyStr.split_ws (PyStr.lower pattern))
    ∧ WinAttrFilter.hash_cache f = None
    ∧ WinAttrFilter.inclusive f = inclusive
    ∧ WinAttrFilter.match_all f = match_all.
Proof.
  intros pattern ma incl f H.
  apply attr_init_inv in H as (Hf & Hd & Hnd & Hv & Hws).
  pose proof attr_masks_within as Hw. rewrite forallb_forall in Hw.
  unfold attr_valid in Hv. apply andb_true_iff in Hv as [Hz Hl].
  apply Z.eqb_eq in Hl. apply negb_true_iff, andb_false_iff in Hz.
  split; [exact Hl|]. split.
  { intros [H1 H2]. rewrite H1, H2 in Hz. by destruct Hz. }
  split; [by apply Z.eqb_eq, Hw|]. split; [by apply Z.eqb_eq, Hw|].
  split; [exact Hws|]. rewrite Hf. done.
Qed.

Lemma attr_init_invariant_witness :
  ∃ f, WinAttrFilter.__init__ (py "Dir !hidden") false true = Ok f
       ∧ Z.land (WinAttrFilter.desired_attr f)
           (WinAttrFilter.not_desired_attr f) = 0
       ∧ ¬ (WinAttrFilter.desired_attr f = 0
            ∧ WinAttrFilter.not_desired_attr f = 0)
       ∧ Z.land (WinAttrFilter.desired_attr f) WIN_ALL
         = WinAttrFilter.desired_attr f
       ∧ Z.land (WinAttrFilter.not_desired_attr f) WIN_ALL
         = WinAttrFilter.not_desired_attr f
       ∧ Forall (λ w, is_Some (dict_get WIN_FILE_ATTRIBUTE (attr_name w)))
           (PyStr.split_ws (PyStr.lower (py "Dir !hidden")))
       ∧ WinAttrFilter.hash_cache f = None
       ∧ WinAttrFilter.inclusive f = true
       ∧ WinAttrFilter.match_all f = false.
Proof.
  eexists. split; [vm_compute; reflexivity|].
  apply (attr_init_invariant (py "Dir !hidden") false true).
  vm_compute. reflexivity.
Defined.

Lemma forallb_In {A : Type} (f : A → bool) (l : list A) (x : A) :
  forallb f l = true → In x l → f x = true.
Proof. intros H Hin. by apply (proj1 (forallb_forall f l) H). Qed.

Lemma attr_roundtrip_ok_true (rc : re_compiler) (d nd : Z) (ma incl : bool) :
  In d attr_masks → In nd attr_masks → attr_valid d nd = true →
  attr_roundtrip_ok rc d nd ma incl = true.
Proof.
  intros Hd Hnd Hv.
  assert (attr_roundtrip_pair rc d nd = true) as H2.
  { apply (forallb_In (attr_roundtrip_pair rc d) attr_masks nd); [|exact Hnd].
    exact (forallb_In (λ d, forallb (attr_roundtrip_pair rc d) attr_masks)
             attr_masks d (attr_roundtrip_all_true rc) Hd). }
  unfold attr_roundtrip_pair in H2. rewrite Hv in H2.
  destruct (attr_roundtrip_ok rc d nd false false) eqn:E1; [|discriminate].
  destruct (attr_roundtrip_ok rc d nd false true) eqn:E2; [|discriminate].
  destruct (attr_roundtrip_ok rc d nd true false) eqn:E3; [|discriminate].
  destruct ma, incl; assumption.
Qed.

(** X10.  Rendering and recompiling an attribute filter gives the filter
    back: for every filter that [WinAttrFilter.__init__] builds,
    [create_filter(str(f))] succeeds on Windows with a filter of the same
    fields, and the filter is equal to itself.  (The 256 x 256 pairs of
    masks are checked by evaluation.) *)
Theorem attr_render_roundtrip :
  ∀ (pattern : str) (match_all inclusive : bool) (f : WinAttrFilter.t),
    WinAttrFilter.__init__ pattern match_all inclusive = Ok f →
    ∀ (re_compile : re_compiler) (py_hash : hash_fn),
      create_filter Windows re_compile (py_str (WinAttr f)) = Ok (WinAttr f)
      ∧ py_eq py_hash (WinAttr f) (WinAttr f) = Ok true.
Proof.
  intros pattern ma incl f H rc h.
  apply attr_init_inv in H as (Hf & Hd & Hnd & Hv & _).
  split.
  - pose proof (attr_roundtrip_ok_true rc _ _ ma incl Hd Hnd Hv) as Hok.
    clear Hd Hnd Hv.
    unfold attr_roundtrip_ok in Hok. cbn [py_str]. rewrite <- Hf in Hok.
    destruct (create_filter Windows rc (WinAttrFilter.__str__ f))
      as [[g|g|g|g|g]|]; try discriminate Hok.
    apply andb_true_iff in Hok as [Hok H5].
    apply andb_true_iff in Hok as [Hok H4].
    apply andb_true_iff in Hok as [Hok H3].
    apply andb_true_iff in Hok as [H1 H2].
    apply bool_decide_eq_true in H1.
    apply Z.eqb_eq in H4, H5. apply Bool.eqb_prop in H2, H3.
    rewrite Hf. destruct g as [gh gi gm gd gn].
    cbn [WinAttrFilter.hash_cache WinAttrFilter.inclusive
         WinAttrFilter.match_all WinAttrFilter.desired_attr
         WinAttrFilter.not_desired_attr] in H1, H2, H3, H4, H5.
    by subst.
  - cbn [py_eq]. unfold WinAttrFilter.__eq__, WinAttrFilter.__hash__.
    rewrite Hf. cbn [WinAttrFilter.hash_cache mbind result_bind].
    by rewrite Z.eqb_refl.
Qed.

Lemma attr_render_roundtrip_witness :
  ∃ f, WinAttrFilter.__init__ (py "Dir !hidden") false true = Ok f
       ∧ create_filter Windows re_compile_plain (py_str (WinAttr f))
         = Ok (WinAttr f)
       ∧ py_eq (λ _, 0) (WinAttr f) (WinAttr f) = Ok true.
Proof.
  eexists. split; [vm_compute; reflexivity|].
  apply (attr_render_roundtrip (py "Dir !hidden") false true).
  vm_compute. reflexivity.
Defined.

(** X11.  [attr_all] is the stronger test: a candidate to which the
    [attr_all] filter of a pattern answers [True] gets a true answer from
    the [attr] filter of the same pattern. *)
Theorem attr_all_implies_any :
  ∀ (pattern : str) (inclusive : bool) (f g : WinAttrFilter.t)
    (get_file_attributes : str → Z) (c : candidate),
    WinAttrFilter.__init__ pattern true inclusive = Ok f →
    WinAttrFilter.__init__ pattern false inclusive = Ok g →
    WinAttrFilter.match_ get_file_attributes f c = Ok (Some true) →
    WinAttrFilter.match_ get_file_attributes g c = Ok (Some true).
Proof.
  intros pattern incl f g gfa c Hf Hg.
  unfold WinAttrFilter.__init__ in Hf, Hg.
  destruct (WinAttrFilter.init_loop _ _) as [[d nd]|]; [|discriminate].
  cbn [mbind result_bind] in Hf, Hg.
  destruct ((d =? 0) && (nd =? 0)) eqn:E0; [discriminate|].
  destruct (negb (Z.land d nd =? 0)); [discriminate|].
  injection Hf as <-. injection Hg as <-.
  unfold WinAttrFilter.match_.
  cbn [WinAttrFilter.match_all WinAttrFilter.desired_attr
       WinAttrFilter.not_desired_attr].
  destruct (match c with
            | Path p => _
            | Entry _ path (Some a) => _
            | Entry _ _ None => _
            end) as [[a p]|]; [|discriminate].
  match goal with
  | |- context [mbind _ ?r] => destruct r as [fa|]; [|discriminate]
  end.
  cbn [mbind result_bind]. intros [= H]. do 2 f_equal.
  apply andb_true_iff in H as [H1 H2].
  apply Z.eqb_eq in H1, H2. rewrite H1, H2.
  apply andb_false_iff in E0 as [E0|E0]; apply Z.eqb_neq in E0.
  - apply orb_true_iff. left. apply negb_true_iff. by apply Z.eqb_neq.
  - apply orb_true_iff. right. apply andb_true_iff.
    split; apply negb_true_iff, Z.eqb_neq; [done | congruence].
Qed.

Lemma attr_all_implies_any_witness :
  WinAttrFilter.match_ (λ _, 16) (WinAttrFilter.Build None true false 16 2)
    (Path (py "x"))
  = Ok (Some true).
Proof.
  apply (attr_all_implies_any (py "dir !hidden") true
           (WinAttrFilter.Build None true true 16 2)
           (WinAttrFilter.Build None true false 16 2)
           (λ _, 16) (Path (py "x")));
    vm_compute; reflexivity.
Defined.

(** ** Extension filters, further *)

Lemma split_runs_pieces (p : ascii → bool) (s : str) :
  Forall (λ w, ∀ c, c ∈ w → p c = false ∧ c ∈ s) (PyStr.split_runs p s).
Proof.
  induction s as [|a s IH]; simpl.
  - constructor; [|constructor]. intros c Hc. by apply elem_of_nil in Hc.
  - assert (Forall (λ w, ∀ c, c ∈ w → p c = false ∧ c ∈ a :: s)
              (PyStr.split_runs p s)) as IH'.
    { eapply Forall_impl; [exact IH|]. intros w Hw c Hc.
      destruct (Hw c Hc). split; [done | by apply list_elem_of_further]. }
    assert (∀ c, c ∈ ([] : str) → p c = false ∧ c ∈ a :: s) as Hnil.
    { intros c Hc. by apply elem_of_nil in Hc. }
    destruct (p a) eqn:Ha.
    + destruct s as [|b s].
      * constructor; [exact Hnil|]. constructor; [exact Hnil|]. constructor.
      * destruct (p b); [exact IH' | by constructor].
    + destruct (PyStr.split_runs p s) as [|w ws].
      * constructor; [|constructor]. intros c Hc.
        apply list_elem_of_singleton in Hc as ->.
        split; [done | apply list_elem_of_here].
      * inversion IH' as [|? ? Hw Hws]; subst. constructor; [|exact Hws].
        intros c Hc. apply elem_of_cons in Hc as [->|Hc].
        -- split; [done | apply list_elem_of_here].
        -- by apply Hw.
Qed.

Lemma lower_no_upper (c : ascii) : PyStr.isupper (PyStr.lower_char c) = false.
Proof. destruct c as [[] [] [] [] [] [] [] []]; reflexivity. Qed.

Lemma norm_case_no_upper (pf : platform) (s : str) (c : ascii) :
  c ∈ Filter.norm_case pf s → PyStr.isupper c = false.
Proof.
  destruct pf; unfold Filter.norm_case; cbn [IS_WINDOWS OsPath.normcase].
  - unfold PyStr.lower. intros (x & -> & _)%list_elem_of_fmap.
    apply lower_no_upper.
  - unfold NtPath.normcase, PyStr.lower.
    intros (x & -> & _)%list_elem_of_fmap. apply lower_no_upper.
Qed.

Lemma ext_init_suffixes :
  ∀ (pf : platform) (pattern : str) (case_sensitive inclusive : bool)
    (f : ExtensionsFilter.t),
    ExtensionsFilter.__init__ pf pattern case_sensitive inclusive = Ok f →
    ∀ e, e ∈ ExtensionsFilter.ext f →
      e ≠ []
      ∧ ∀ c, c ∈ e →
          PyStr.isspace c = false ∧ c ≠ ";"%char ∧ c ≠ OsPath.sep pf
          ∧ c ∈ ext_pattern pf case_sensitive pattern
          ∧ (case_sensitive = false → PyStr.isupper c = false).
Proof.
  intros pf pattern cs incl f. unfold ExtensionsFilter.__init__.
  fold (ext_pattern pf cs pattern). set (p := ext_pattern pf cs pattern).
  destruct (PyStr.contains (OsPath.sep pf) p) eqn:Hsep; [discriminate|].
  intros [= <-] e He. cbn [ExtensionsFilter.ext] in He.
  apply elem_of_list_to_set, list_elem_of_In, filter_In in He as [Hin Hne].
  split; [by destruct e|]. intros c Hc.
  pose proof (split_runs_pieces ExtensionsFilter.is_ext_sep p) as Hp.
  rewrite Forall_forall in Hp.
  destruct (Hp e (proj2 (list_elem_of_In _ _) Hin) c Hc) as [Hs Hcp].
  unfold ExtensionsFilter.is_ext_sep in Hs.
  apply orb_false_iff in Hs as [Hs1 Hs2].
  split; [exact Hs1|]. split.
  { intros ->. discriminate Hs2. }
  split.
  { intros ->. apply contains_false in Hsep. by apply Hsep. }
  split; [exact Hcp|]. intros ->. subst p. unfold ext_pattern in Hcp.
  cbn [negb] in Hcp. by apply norm_case_no_upper in Hcp.
Qed.



Lemma norm_case_lower (pf : platform) (s : str) :
  Filter.norm_case pf (PyStr.lower s) = Filter.norm_case pf s.
Proof.
  assert (∀ c, PyStr.lower_char (PyStr.lower_char c) = PyStr.lower_char c)
    as Hl.
  { intros c. destruct c as [[] [] [] [] [] [] [] []]; reflexivity. }
  assert (∀ c, PyStr.lower_char
                 (if Ascii.eqb (PyStr.lower_char c) NtPath.altsep
                  then NtPath.sep else PyStr.lower_char c)
               = PyStr.lower_char
                   (if Ascii.eqb c NtPath.altsep then NtPath.sep else c))
    as Hn.
  { intros c. destruct c as [[] [] [] [] [] [] [] []]; reflexivity. }
  destruct pf; unfold Filter.norm_case; cbn [IS_WINDOWS OsPath.normcase].
  - unfold PyStr.lower. rewrite map_map. apply map_ext. exact Hl.
  - unfold NtPath.normcase, PyStr.lower, PyStr.replace.
    rewrite !map_map. apply map_ext. exact Hn.
Qed.

(** X13.  An extension filter that is not case sensitive ignores the
    letter case of the name: an entry and the same entry with its name in
    lower case get the same answer. *)
Theorem ext_match_ignores_case :
  ∀ (pf : platform) (f : ExtensionsFilter.t) (name path : str)
    (attrs : option Z),
    ExtensionsFilter.case_sensitive f = false →
    ExtensionsFilter.match_ pf f (Entry (PyStr.lower name) path attrs)
    = ExtensionsFilter.match_ pf f (Entry name path attrs).
Proof.
  intros pf f name path attrs Hcs. unfold ExtensionsFilter.match_.
  rewrite Hcs. cbn [negb ExtensionsFilter.basename_of].
  by rewrite norm_case_lower.
Qed.

Lemma ext_match_ignores_case_witness :
  ExtensionsFilter.match_ Windows
    (ExtensionsFilter.Build None true false {[ py ".txt" ]})
    (Entry (PyStr.lower (py "A.TXT")) (py "c:\A.TXT") None)
  = ExtensionsFilter.match_ Windows
      (ExtensionsFilter.Build None true false {[ py ".txt" ]})
      (Entry (py "A.TXT") (py "c:\A.TXT") None).
Proof.
  apply (ext_match_ignores_case Windows
           (ExtensionsFilter.Build None true false {[ py ".txt" ]})
           (py "A.TXT") (py "c:\A.TXT") None).
  reflexivity.
Defined.

(** ** Shell filters, further *)

Lemma shell_init_fields :
  ∀ (pf : platform) (pattern : str) (case_sensitive nodrive inclusive : bool)
    (f : PathShellFilter.t),
    PathShellFilter.__init__ pf pattern case_sensitive nodrive inclusive
      = Ok f →
    PathShellFilter.pattern f = compared_path pf case_sensitive pattern
    ∧ Glob.has_magic (PathShellFilter.pattern f) = true
    ∧ Fnmatch.translate (PathShellFilter.pattern f)
      = Ok (PathShellFilter.patmatch f)
    ∧ fst (OsPath.splitdrive pf (OsPath.normpath pf pattern)) = []
    ∧ OsPath.isabs pf (OsPath.normpath pf pattern) = false
    ∧ PathShellFilter.hash_cache f = None
    ∧ PathShellFilter.inclusive f = inclusive
    ∧ PathShellFilter.case_sensitive f = case_sensitive
    ∧ PathShellFilter.nodrive f = nodrive.
Proof.
  intros pf pattern cs nd incl f. unfold PathShellFilter.__init__.
  destruct (norm_path_pattern_cases pf pattern)
    as [-> | (-> & Hne & Hd & Habs)]; [discriminate|].
  cbn [mbind result_bind]. unfold compared_path.
  set (n := OsPath.normpath pf pattern) in *.
  destruct (Glob.has_magic n) eqn:Hm; [|discriminate].
  cbn [py_assert mbind result_bind].
  set (p := if negb cs then Filter.norm_case pf n else n).
  assert (Glob.has_magic p = true) as Hmp.
  { subst p. destruct cs; simpl; [exact Hm|]. by rewrite magic_fold. }
  destruct (Fnmatch.translate p) as [r|] eqn:Er; [|discriminate].
  cbn [mbind result_bind]. intros [= <-].
  cbn [PathShellFilter.pattern PathShellFilter.patmatch
       PathShellFilter.hash_cache PathShellFilter.inclusive
       PathShellFilter.case_sensitive PathShellFilter.nodrive].
  repeat split; assumption.
Qed.



Lemma pieces_literal_star (lit : str) :
  Glob.has_magic lit = false →
  Fnmatch.pieces (lit ++ ["*"%char]) 0
  = Ok (map (λ c, Re.Char (Re.OneOf [Re.Lit c])) lit
        ++ [Re.Repeat 0 Re.Any]).
Proof.
  unfold Glob.has_magic. induction lit as [|c lit IH]; [reflexivity|].
  cbn [existsb]. intros H. apply orb_false_iff in H as [Hc Hl].
  apply orb_false_iff in Hc as [Hc H3]. apply orb_false_iff in Hc as [H1 H2].
  cbn [app Fnmatch.pieces]. rewrite H1, H2, H3, (IH Hl). reflexivity.
Qed.

(** X15.  A shell filter whose stored pattern is plain text followed by one
    final [*] is a prefix test: it answers [True] exactly on the
    candidates whose normalised path, case-folded unless the filter is
    case sensitive, starts with that text.  The [nodrive] flag plays no
    part in [match]. *)
Theorem shell_trailing_star :
  ∀ (pf : platform) (pattern : str) (case_sensitive nodrive inclusive : bool)
    (f : PathShellFilter.t) (lit : str),
    PathShellFilter.__init__ pf pattern case_sensitive nodrive inclusive
      = Ok f →
    PathShellFilter.pattern f = lit ++ ["*"%char] →
    Glob.has_magic lit = false →
    ∀ path,
      PathShellFilter.match_ pf f path
      = Ok (PyStr.startswith (compared_path pf case_sensitive path) lit).
Proof.
  intros pf pattern cs nd incl f lit Hinit Hp Hlit path.
  apply shell_init_fields in Hinit
    as (_ & _ & Htr & _ & _ & _ & _ & Hcs & _).
  rewrite Hp in Htr. unfold Fnmatch.translate in Htr.
  rewrite (pieces_literal_star lit Hlit) in Htr.
  cbn [mbind result_bind] in Htr. injection Htr as Htr.
  unfold PathShellFilter.match_, Filter.norm_path, compared_path.
  cbn [mbind result_bind]. rewrite Hcs, <- Htr. f_equal.
  apply literal_star_match.
Qed.

Lemma shell_trailing_star_witness :
  ∃ f, PathShellFilter.__init__ Posix (py "Dir//*") false false true = Ok f
       ∧ ∀ path,
           PathShellFilter.match_ Posix f path
           = Ok (PyStr.startswith (compared_path Posix false path)
                   (py "dir/")).
Proof.
  eexists. split; [vm_compute; reflexivity|].
  apply (shell_trailing_star Posix (py "Dir//*") false false true).
  - vm_compute. reflexivity.
  - reflexivity.
  - reflexivity.
Defined.

(** ** The filters that [create_filter] returns *)



(** ** The rule expression

    [EXPRESSION_REGEX] on blank input, and the shape of the pattern it
    captures: the engine tries the longer run of white space first, so the
    pattern never starts on white space. *)

Lemma repeat_greedy_none (c : Re.cset) (min cnt : nat) (sn ah : str)
    (gs : list (nat * str)) (k : Re.mstate → Re.outcome) :
  (∀ pre suf, ah = pre ++ suf → (min ≤ cnt + length pre)%nat →
     k (Re.MState (rev pre ++ sn) suf gs) = None) →
  Re.repeat_greedy c min cnt sn ah gs k = None.
Proof.
  revert cnt sn. induction ah as [|a ah IH]; intros cnt sn Hk.
  - simpl. destruct (min <=? cnt)%nat eqn:E; [|reflexivity].
    apply (Hk [] []); [reflexivity|]. apply Nat.leb_le in E. simpl. lia.
  - assert ((if (min <=? cnt)%nat then k (Re.MState sn (a :: ah) gs) else None)
            = None) as Hstop.
    { destruct (min <=? cnt)%nat eqn:E; [|reflexivity].
      apply (Hk [] (a :: ah)); [reflexivity|]. apply Nat.leb_le in E.
      simpl. lia. }
    cbn [Re.repeat_greedy]. destruct (Re.mem c a); [|exact Hstop].
    rewrite IH; [exact Hstop|].
    intros pre suf -> Hle.
    specialize (Hk (a :: pre) suf eq_refl). simpl in Hk.
    rewrite <- app_assoc in Hk. apply Hk. lia.
Qed.

Lemma space_not_rule_char (a : ascii) :
  PyStr.isspace a = true →
  Re.mem (Re.OneOf [Re.Lit "+"; Re.Lit "-"]) a = false
  ∧ Re.mem (Re.OneOf [Re.Lit ":"]) a = false
  ∧ Re.mem props_chars a = false
  ∧ Re.mem (Re.OneOf [Re.Space]) a = true.
Proof.
  destruct a as [[] [] [] [] [] [] [] []]; vm_compute; intros H;
    try discriminate H; repeat split; reflexivity.
Qed.

(** From [(?:([+-])\s+)?] on, the expression fails on white space. *)
Lemma expression_rest_blank (sn ah : str) (gs : list (nat * str))
    (k : Re.mstate → Re.outcome) :
  Forall (λ c, PyStr.isspace c = true) ah →
  Re.run
    (Re.seq
       [ Re.Opt (Re.Seq (Re.Group 1 (Re.Char (Re.OneOf [Re.Lit "+"; Re.Lit "-"])))
                      (Re.Repeat 1 (Re.OneOf [Re.Space])));
         Re.Opt (Re.seq [ Re.Opt (Re.Char (Re.OneOf [Re.Lit ":"]));
                          Re.Group 2 (Re.Repeat 2 props_chars);
                          Re.Char (Re.OneOf [Re.Lit ":"]);
                          Re.Repeat 1 (Re.OneOf [Re.Space]) ]);
         Re.Group 3 (Re.Repeat 1 Re.Dot);
         Re.NotBehind (Re.OneOf [Re.Space]);
         Re.Repeat 0 (Re.OneOf [Re.Space]); Re.Eol ])
    (Re.MState sn ah gs) k = None.
Proof.
  intros Hah. cbn [Re.seq Re.run Re.ahead Re.seen Re.groups].
  assert (Hg3 : ∀ k', (∀ st, k' st = match Re.seen st with
                         | a :: _ => if Re.mem (Re.OneOf [Re.Space]) a
                                     then None else k' st
                         | [] => k' st end) →
     Re.repeat_greedy Re.Dot 1 0 sn ah gs k' = None).
  { intros k' Hk'. apply repeat_greedy_none. intros pre suf -> Hle.
    rewrite Hk'. cbn [Re.seen].
    destruct pre as [|a pre _] using rev_ind; [simpl in Hle; lia|].
    rewrite rev_app_distr. cbn [rev app].
    apply Forall_app in Hah as [Hpre _]. apply Forall_app in Hpre as [_ Ha].
    inversion Ha as [|? ? Ha' _]; subst.
    destruct (space_not_rule_char a Ha') as (_ & _ & _ & ->). reflexivity. }
  destruct ah as [|a ah'].
  - reflexivity.
  - inversion Hah as [|? ? Ha Hah']; subst.
    destruct (space_not_rule_char a Ha) as (H1 & H2 & H3 & _).
    rewrite H1, H2. cbn [Re.repeat_greedy]. rewrite H3.
    cbn [Nat.leb Re.seen Re.ahead Re.groups].
    apply Hg3. intros st. destruct (Re.seen st) as [|b l]; [reflexivity|].
    destruct (Re.mem (Re.OneOf [Re.Space]) b); reflexivity.
Qed.

Lemma expression_blank (e : str) :
  Forall (λ c, PyStr.isspace c = true) e →
  Re.match_ EXPRESSION_REGEX e = None.
Proof.
  intros He. unfold Re.match_, EXPRESSION_REGEX.
  change (Re.seq (Re.Bol :: Re.Repeat 0 (Re.OneOf [Re.Space]) :: ?l))
    with (Re.Seq Re.Bol (Re.Seq (Re.Repeat 0 (Re.OneOf [Re.Space])) (Re.seq l))).
  cbn [Re.run Re.seen Re.ahead Re.groups].
  apply repeat_greedy_none. intros pre suf -> _.
  apply Forall_app in He as [_ Hsuf].
  apply expression_rest_blank. exact Hsuf.
Qed.

(** X17.  An expression that is empty or made of white space only is
    refused with [invalid filter expression], on every platform. *)
Theorem create_filter_rejects_blank (pf : platform) (rc : re_compiler)
    (e : str) :
  Forall (λ c, PyStr.isspace c = true) e →
  create_filter pf rc e = Raise (ValueError "invalid filter expression").
Proof.
  intros He. unfold create_filter. rewrite (expression_blank e He). reflexivity.
Qed.

Lemma create_filter_rejects_blank_witness :
  create_filter Posix re_compile_plain (py "   ")
  = Raise (ValueError "invalid filter expression").
Proof.
  apply (create_filter_rejects_blank Posix re_compile_plain (py "   ")).
  repeat constructor.
Defined.

Lemma repeat_greedy_some_inv (c : Re.cset) (min cnt : nat) (sn ah : str)
    (gs : list (nat * str)) (k : Re.mstate → Re.outcome)
    (g : list (nat * str)) :
  Re.repeat_greedy c min cnt sn ah gs k = Some g →
  ∃ pre suf, ah = pre ++ suf ∧ Forall (λ a, Re.mem c a = true) pre
    ∧ (min ≤ cnt + length pre)%nat
    ∧ k (Re.MState (rev pre ++ sn) suf gs) = Some g.
Proof.
  revert cnt sn. induction ah as [|a ah IH]; intros cnt sn H.
  - simpl in H. destruct (min <=? cnt)%nat eqn:E; [|discriminate].
    apply Nat.leb_le in E. exists [], []. simpl.
    repeat split; [constructor|lia|exact H].
  - assert (Hstop : (if (min <=? cnt)%nat then k (Re.MState sn (a :: ah) gs)
                     else None) = Some g →
        ∃ pre suf, a :: ah = pre ++ suf ∧ Forall (λ a, Re.mem c a = true) pre
          ∧ (min ≤ cnt + length pre)%nat
          ∧ k (Re.MState (rev pre ++ sn) suf gs) = Some g).
    { intros Hs. destruct (min <=? cnt)%nat eqn:E; [|discriminate].
      apply Nat.leb_le in E. exists [], (a :: ah). simpl.
      repeat split; [constructor|lia|exact Hs]. }
    cbn [Re.repeat_greedy] in H. destruct (Re.mem c a) eqn:Ha; [|auto].
    destruct (Re.repeat_greedy c min (S cnt) (a :: sn) ah gs k) as [g'|] eqn:E;
      [|auto].
    injection H as ->. destruct (IH _ _ E) as (pre & suf & -> & Hpre & Hle & Hk).
    exists (a :: pre), suf. simpl. rewrite <- app_assoc.
    repeat split; [constructor; assumption|lia|exact Hk].
Qed.

Lemma repeat_greedy_some (c : Re.cset) (min cnt : nat) (sn pre suf : str)
    (gs : list (nat * str)) (k : Re.mstate → Re.outcome) :
  Forall (λ a, Re.mem c a = true) pre →
  (min ≤ cnt + length pre)%nat →
  is_Some (k (Re.MState (rev pre ++ sn) suf gs)) →
  is_Some (Re.repeat_greedy c min cnt sn (pre ++ suf) gs k).
Proof.
  revert cnt sn. induction pre as [|a pre IH]; intros cnt sn Hpre Hle Hk.
  - simpl in *. assert (E : (min <=? cnt)%nat = true) by (apply Nat.leb_le; lia).
    destruct suf as [|b suf]; cbn [Re.repeat_greedy]; rewrite E; [exact Hk|].
    destruct (Re.mem c b); [|exact Hk].
    destruct (Re.repeat_greedy c min (S cnt) (b :: sn) suf gs k);
      [eexists; reflexivity|exact Hk].
  - inversion Hpre as [|? ? Ha Hpre']; subst. simpl in Hk, Hle.
    rewrite <- app_assoc in Hk. cbn [app Re.repeat_greedy]. rewrite Ha.
    destruct (IH (S cnt) (a :: sn) Hpre' ltac:(lia) Hk) as [g ->].
    eexists; reflexivity.
Qed.

(** Whether an expression matches does not depend on the groups set
    before: there are no back references. *)
Lemma repeat_greedy_groups_blind (c : Re.cset) (min : nat)
    (k k' : Re.mstate → Re.outcome) :
  (∀ sn ah gs gs', is_Some (k (Re.MState sn ah gs)) →
                   is_Some (k' (Re.MState sn ah gs'))) →
  ∀ cnt sn ah gs gs',
    is_Some (Re.repeat_greedy c min cnt sn ah gs k) →
    is_Some (Re.repeat_greedy c min cnt sn ah gs' k').
Proof.
  intros Hk cnt sn ah gs gs' [g H].
  destruct (repeat_greedy_some_inv _ _ _ _ _ _ _ _ H)
    as (pre & suf & -> & Hpre & Hle & Hg).
  apply repeat_greedy_some; [assumption..|]. eapply Hk. eexists; exact Hg.
Qed.

Lemma run_groups_blind (r : Re.regex) :
  ∀ k k' : Re.mstate → Re.outcome,
    (∀ sn ah gs gs', is_Some (k (Re.MState sn ah gs)) →
                     is_Some (k' (Re.MState sn ah gs'))) →
    ∀ sn ah gs gs',
      is_Some (Re.run r (Re.MState sn ah gs) k) →
      is_Some (Re.run r (Re.MState sn ah gs') k').
Proof.
  induction r as [|c|min c|r1 IH1 r2 IH2|r1 IH1|n r1 IH1|c| | |];
    intros k k' Hk sn ah gs gs'; cbn [Re.run Re.seen Re.ahead Re.groups].
  - apply Hk.
  - destruct ah as [|a ah]; [trivial|]. destruct (Re.mem c a); [apply Hk|trivial].
  - apply repeat_greedy_groups_blind, Hk.
  - apply IH1. intros sn1 ah1 gs1 gs1'. apply IH2, Hk.
  - intros H.
    destruct (Re.run r1 (Re.MState sn ah gs) k) as [g|] eqn:E.
    + destruct (IH1 k k' Hk sn ah gs gs' ltac:(rewrite E; eexists; reflexivity))
        as [g' ->]. eexists; reflexivity.
    + destruct (Re.run r1 (Re.MState sn ah gs') k');
        [eexists; reflexivity|]. eapply Hk, H.
  - apply IH1. intros sn1 ah1 gs1 gs1'. cbn [Re.seen Re.ahead Re.groups].
    unfold Re.between. cbn [Re.seen]. apply Hk.
  - destruct sn as [|a sn]; [apply Hk|]. destruct (Re.mem c a); [trivial|apply Hk].
  - destruct sn; [apply Hk|trivial].
  - destruct ah as [|a [|b ah]]; [apply Hk| |trivial].
    destruct (Ascii.eqb a "010"); [apply Hk|trivial].
  - destruct ah; [apply Hk|trivial].
Qed.

Lemma expression_regex_parts :
  EXPRESSION_REGEX
  = Re.Seq Re.Bol
      (Re.Seq (Re.Repeat 0 RE_SPACE) (Re.Seq RE_SIGN (Re.Seq RE_PROPS RE_PATTERN))).
Proof. reflexivity. Qed.

Lemma match_end_blind (sn ah : str) (gs gs' : list (nat * str)) :
  is_Some (match_end (Re.MState sn ah gs)) →
  is_Some (match_end (Re.MState sn ah gs')).
Proof. intros _. eexists; reflexivity. Qed.

Lemma space_mem (a : ascii) : Re.mem RE_SPACE a = PyStr.isspace a.
Proof. unfold RE_SPACE. simpl. apply orb_false_r. Qed.

Lemma tail_inv (sn ah : str) (gs g : list (nat * str)) :
  Re.run RE_TAIL (Re.MState sn ah gs) match_end = Some g →
  g = gs ∧ match sn with a :: _ => PyStr.isspace a = false | [] => True end.
Proof.
  unfold RE_TAIL. cbn [Re.run Re.seen Re.ahead Re.groups]. intros H.
  assert (Hrep : ∀ sn', Re.repeat_greedy RE_SPACE 0 0 sn' ah gs
            (λ st', Re.run Re.Eol st' match_end) = Some g → g = gs).
  { intros sn' Hr. apply repeat_greedy_some_inv in Hr
      as (pre & suf & _ & _ & _ & Hk).
    cbn [Re.run Re.ahead] in Hk. unfold match_end in Hk.
    destruct suf as [|a [|b suf]]; cbn [Re.groups] in Hk;
      [congruence| |discriminate].
    destruct (Ascii.eqb a "010"); [congruence|discriminate]. }
  destruct sn as [|a sn]; [split; [eapply Hrep, H|exact I]|].
  rewrite space_mem in H. destruct (PyStr.isspace a); [discriminate|].
  split; [eapply Hrep, H|reflexivity].
Qed.

Lemma between_consumed (sn ah pre suf : str) (gs gs' : list (nat * str)) :
  Re.between (Re.MState sn ah gs) (Re.MState (rev pre ++ sn) suf gs') = pre.
Proof.
  unfold Re.between. cbn [Re.seen]. rewrite length_app.
  replace (length (rev pre) + length sn - length sn)%nat
    with (length (rev pre)) by lia.
  rewrite take_app_length. apply rev_involutive.
Qed.

Lemma pattern_inv (sn ah : str) (gs g : list (nat * str)) :
  Re.run RE_PATTERN (Re.MState sn ah gs) match_end = Some g →
  ∃ a pre suf,
    ah = a :: pre ++ suf
    ∧ Forall (λ c, Re.mem Re.Dot c = true) (a :: pre)
    ∧ g = (3%nat, a :: pre) :: gs
    ∧ (∃ z l, rev (a :: pre) = z :: l ∧ PyStr.isspace z = false)
    ∧ is_Some (Re.run RE_TAIL (Re.MState (rev (a :: pre) ++ sn) suf gs)
                 match_end).
Proof.
  unfold RE_PATTERN. cbn [Re.run Re.seen Re.ahead Re.groups]. intros H.
  apply repeat_greedy_some_inv in H as (pre & suf & -> & Hpre & Hle & Hk).
  cbn [Re.seen Re.ahead Re.groups] in Hk. rewrite between_consumed in Hk.
  destruct pre as [|a pre]; [simpl in Hle; lia|].
  exists a, pre, suf. split; [reflexivity|]. split; [exact Hpre|].
  pose proof (tail_inv _ _ _ _ Hk) as [-> Hz]. split; [reflexivity|].
  split.
  - destruct (rev (a :: pre)) as [|z l] eqn:E.
    + apply (f_equal (@length _)) in E. rewrite length_rev in E. discriminate.
    + exists z, l. split; [reflexivity|exact Hz].
  - apply (run_groups_blind RE_TAIL match_end match_end match_end_blind
             _ _ ((3%nat, a :: pre) :: gs) gs). eexists; exact Hk.
Qed.

Lemma lstrip_by_head (p : ascii → bool) (a : ascii) (l : str) :
  p a = false → PyStr.lstrip_by p (a :: l) = a :: l.
Proof. intros H. simpl. rewrite H. reflexivity. Qed.

Lemma strip_fixed (a z : ascii) (l l' : str) :
  PyStr.isspace a = false → rev (a :: l) = z :: l' →
  PyStr.isspace z = false → PyStr.strip (a :: l) = a :: l.
Proof.
  intros Ha Hrev Hz. unfold PyStr.strip, PyStr.rstrip_by.
  rewrite (lstrip_by_head _ _ _ Ha), Hrev, (lstrip_by_head _ _ _ Hz), <- Hrev.
  apply rev_involutive.
Qed.

Lemma pattern_skips_blanks :
  skips_blanks (λ st, Re.run RE_PATTERN st match_end).
Proof.
  split.
  - intros sn ah gs g H Hhead.
    apply pattern_inv in H
      as (a & pre & suf & -> & Hdot & -> & (z & l & Hrev & Hz) & _).
    exists (a :: pre). split; [reflexivity|].
    split; [by exists a, pre|]. split; [by exists z, l|exact Hdot].
  - intros sn s ah gs Hs [g H].
    apply pattern_inv in H
      as (a & pre & suf & [= <- ->] & Hdot & _ & (z & l & Hrev & Hz) & Ht).
    destruct pre as [|b pre].
    { simpl in Hrev. injection Hrev as <- _. congruence. }
    inversion Hdot as [|? ? _ Hdot']; subst.
    unfold RE_PATTERN. cbn [Re.run Re.seen Re.ahead Re.groups].
    apply repeat_greedy_some; [exact Hdot'|simpl; lia|].
    cbn [Re.seen Re.ahead Re.groups].
    change (rev (s :: b :: pre)) with (rev (b :: pre) ++ [s]) in Ht.
    rewrite <- app_assoc in Ht.
    exact (run_groups_blind RE_TAIL match_end match_end match_end_blind
             _ _ _ _ Ht).
Qed.

Lemma blanks_then (k : Re.mstate → Re.outcome) :
  skips_blanks k →
  ∀ min cnt sn ah gs g,
    Re.repeat_greedy RE_SPACE min cnt sn ah gs k = Some g →
    pattern_stripped g.
Proof.
  intros [Hgood Hshift] min cnt sn ah. revert cnt sn.
  induction ah as [|a ah IH]; intros cnt sn gs g H.
  - simpl in H. destruct (min <=? cnt)%nat; [|discriminate].
    exact (Hgood _ _ _ _ H I).
  - cbn [Re.repeat_greedy] in H. rewrite space_mem in H.
    destruct (PyStr.isspace a) eqn:Ha.
    + destruct (Re.repeat_greedy RE_SPACE min (S cnt) (a :: sn) ah gs k)
        as [g'|] eqn:E.
      * injection H as <-. exact (IH _ _ _ _ E).
      * destruct (min <=? cnt)%nat eqn:Hle; [|discriminate].
        apply Nat.leb_le in Hle.
        assert (Hs : is_Some (k (Re.MState (a :: sn) ah gs))).
        { apply Hshift; [exact Ha|]. eexists; exact H. }
        destruct (repeat_greedy_some RE_SPACE min (S cnt) (a :: sn) [] ah gs k)
          as [g' Hg']; [constructor|simpl; lia|exact Hs|].
        simpl in Hg'. congruence.
    + destruct (min <=? cnt)%nat; [|discriminate].
      exact (Hgood _ _ _ _ H Ha).
Qed.

(** Every result of a run is a result of its continuation. *)
Lemma run_some_inv (r : Re.regex) :
  ∀ (k : Re.mstate → Re.outcome) st g,
    Re.run r st k = Some g → ∃ st', k st' = Some g.
Proof.
  induction r as [|c|min c|r1 IH1 r2 IH2|r1 IH1|n r1 IH1|c| | |];
    intros k st g; cbn [Re.run]; intros H.
  - eauto.
  - destruct (Re.ahead st) as [|a ah]; [discriminate|].
    destruct (Re.mem c a); [eauto|discriminate].
  - apply repeat_greedy_some_inv in H as (pre & suf & _ & _ & _ & Hk). eauto.
  - apply IH1 in H as [st1 H]. exact (IH2 _ _ _ H).
  - destruct (Re.run r1 st k) eqn:E; [|eauto].
    injection H as ->. exact (IH1 _ _ _ E).
  - apply IH1 in H as [st1 H]. eauto.
  - destruct (Re.seen st) as [|a sn]; [eauto|].
    destruct (Re.mem c a); [discriminate|eauto].
  - destruct (Re.seen st); [eauto|discriminate].
  - destruct (Re.ahead st) as [|a [|b ah]]; [eauto| |discriminate].
    destruct (Ascii.eqb a "010"); [eauto|discriminate].
  - destruct (Re.ahead st); [eauto|discriminate].
Qed.

Lemma opt_skips_blanks (body : Re.regex) (k : Re.mstate → Re.outcome) :
  skips_blanks k →
  (∀ st g, Re.run body st k = Some g → pattern_stripped g) →
  (∀ sn s ah gs, PyStr.isspace s = true →
     Re.run body (Re.MState sn (s :: ah) gs) k = None) →
  skips_blanks (λ st, Re.run (Re.Opt body) st k).
Proof.
  intros [Hgood Hshift] Hbody Hblank. split.
  - intros sn ah gs g. cbn [Re.run].
    destruct (Re.run body (Re.MState sn ah gs) k) as [g'|] eqn:E.
    + intros [= <-] _. exact (Hbody _ _ E).
    + apply Hgood.
  - intros sn s ah gs Hs. cbn [Re.run]. rewrite (Hblank _ _ _ _ Hs).
    intros H. destruct (Re.run body (Re.MState (s :: sn) ah gs) k);
      [eexists; reflexivity|]. exact (Hshift _ _ _ _ Hs H).
Qed.

Lemma run_seq (r1 r2 : Re.regex) (st : Re.mstate)
    (k : Re.mstate → Re.outcome) :
  Re.run (Re.Seq r1 r2) st k = Re.run r1 st (λ st', Re.run r2 st' k).
Proof. reflexivity. Qed.

Lemma props_skips_blanks :
  skips_blanks (λ st, Re.run (Re.Seq RE_PROPS RE_PATTERN) st match_end).
Proof.
  unfold RE_PROPS. split_opt_seq.
  apply (opt_skips_blanks _ (λ st, Re.run RE_PATTERN st match_end)
           pattern_skips_blanks).
  - intros st g H. rewrite run_seq in H.
    apply run_some_inv in H as [st1 H]. rewrite run_seq in H.
    apply run_some_inv in H as [st2 H]. rewrite run_seq in H.
    apply run_some_inv in H as [st3 H]. cbn [Re.run] in H.
    exact (blanks_then _ pattern_skips_blanks _ _ _ _ _ _ H).
  - intros sn s ah gs Hs.
    destruct (space_not_rule_char s Hs) as (_ & H2 & H3 & _).
    cbn [Re.run Re.ahead Re.seen Re.groups Re.repeat_greedy].
    rewrite H2, H3. reflexivity.
Qed.

Lemma sign_skips_blanks :
  skips_blanks
    (λ st, Re.run (Re.Seq RE_SIGN (Re.Seq RE_PROPS RE_PATTERN)) st match_end).
Proof.
  unfold RE_SIGN. split_opt_seq.
  apply (opt_skips_blanks _
           (λ st, Re.run (Re.Seq RE_PROPS RE_PATTERN) st match_end)
           props_skips_blanks).
  - intros st g H. rewrite run_seq in H.
    apply run_some_inv in H as [st1 H]. cbn [Re.run] in H.
    exact (blanks_then _ props_skips_blanks _ _ _ _ _ _ H).
  - intros sn s ah gs Hs.
    destruct (space_not_rule_char s Hs) as (H1 & _).
    cbn [Re.run Re.ahead Re.seen Re.groups]. rewrite H1. reflexivity.
Qed.

Lemma expression_group_clean (e : str) (rem : list (nat * str)) :
  Re.match_ EXPRESSION_REGEX e = Some rem →
  ∃ p, Re.group rem 3 = Some p ∧ clean_pattern p.
Proof.
  unfold Re.match_. rewrite expression_regex_parts.
  cbn [Re.run Re.seen Re.ahead Re.groups]. intros H.
  exact (blanks_then _ sign_skips_blanks _ _ _ _ _ _ H).
Qed.

Lemma clean_pattern_strip (p : str) :
  clean_pattern p → p ≠ [] ∧ PyStr.strip p = p.
Proof.
  intros ((a & l & -> & Ha) & (z & l' & Hrev & Hz) & _).
  split; [discriminate|]. exact (strip_fixed _ _ _ _ Ha Hrev Hz).
Qed.

(** X18.  Whenever [EXPRESSION_REGEX] matches, its third group, the
    pattern, is not empty and has no white space at either end:
    [pattern == pattern.strip()] holds, so the assertion of
    [create_filter] on it never fails. *)
Theorem expression_pattern_stripped (e : str) (rem : list (nat * str)) :
  Re.match_ EXPRESSION_REGEX e = Some rem →
  ∃ p, Re.group rem 3 = Some p ∧ p ≠ [] ∧ PyStr.strip p = p.
Proof.
  intros H. destruct (expression_group_clean e rem H) as (p & Hp & Hc).
  exists p. split; [exact Hp|]. by apply clean_pattern_strip.
Qed.

Lemma expression_pattern_stripped_witness :
  ∃ rem, Re.match_ EXPRESSION_REGEX (py "  - ext:  .txt .md  ") = Some rem
         ∧ ∃ p, Re.group rem 3 = Some p ∧ p ≠ [] ∧ PyStr.strip p = p.
Proof.
  eexists. split; [vm_compute; reflexivity|].
  apply (expression_pattern_stripped (py "  - ext:  .txt .md  ")).
  vm_compute. reflexivity.
Defined.

(** ** Assertions *)

Lemma has_magic_app (s t : str) :
  Glob.has_magic (s ++ t) = Glob.has_magic s || Glob.has_magic t.
Proof. apply existsb_app. Qed.

Lemma has_magic_forall (s : str) :
  Glob.has_magic s = false ↔ Forall (λ c, Glob.has_magic [c] = false) s.
Proof.
  induction s as [|a s IH]; [split; [constructor|reflexivity]|].
  change (a :: s) with ([a] ++ s). rewrite has_magic_app, orb_false_iff, IH.
  split; [intros [? ?]; by constructor|by inversion 1].
Qed.

Lemma split_no_magic (c : ascii) (s : str) :
  Glob.has_magic s = false →
  Forall (λ w, Glob.has_magic w = false) (PyStr.split c s).
Proof.
  induction s as [|a s IH]; intros H; [repeat constructor|].
  change (a :: s) with ([a] ++ s) in H. rewrite has_magic_app in H.
  apply orb_false_iff in H as [Ha Hs]. specialize (IH Hs).
  cbn [PyStr.split]. destruct (Ascii.eqb a c); [by constructor|].
  destruct (PyStr.split c s) as [|w ws]; [repeat constructor; exact Ha|].
  inversion IH; subst. constructor; [|assumption].
  change (a :: w) with ([a] ++ w). rewrite has_magic_app, Ha. assumption.
Qed.

Lemma join_no_magic (sep : str) (l : list str) :
  Glob.has_magic sep = false →
  Forall (λ w, Glob.has_magic w = false) l →
  Glob.has_magic (PyStr.join sep l) = false.
Proof.
  intros Hsep H. induction H as [|w l Hw Hl IH]; [reflexivity|].
  cbn [PyStr.join]. destruct l; [exact Hw|].
  by rewrite !has_magic_app, Hw, Hsep, IH.
Qed.

Lemma removelast_Forall {A} (P : A → Prop) (l : list A) :
  Forall P l → Forall P (removelast l).
Proof.
  induction 1 as [|x l Hx Hl IH]; simpl; [constructor|].
  destruct l; [constructor|]. by constructor.
Qed.

Lemma lstrip_by_no_magic (p : ascii → bool) (s : str) :
  Glob.has_magic s = false → Glob.has_magic (PyStr.lstrip_by p s) = false.
Proof.
  induction s as [|a s IH]; [done|]. intros H. cbn [PyStr.lstrip_by].
  destruct (p a); [|exact H]. apply IH.
  change (a :: s) with ([a] ++ s) in H. rewrite has_magic_app in H.
  by apply orb_false_iff in H as [_ H].
Qed.

Lemma posix_normpath_no_magic (p : str) :
  Glob.has_magic p = false → Glob.has_magic (PosixPath.normpath p) = false.
Proof.
  intros H. unfold PosixPath.normpath.
  destruct (PyStr.eqb p []); [reflexivity|].
  match goal with |- context [PyStr.eqb ?q []] =>
    destruct (PyStr.eqb q []); [reflexivity|] end.
  rewrite has_magic_app. apply orb_false_iff. split.
  { match goal with |- context [repeat _ ?n] => generalize n end.
    intros n. induction n; [reflexivity|exact IHn]. }
  apply join_no_magic; [reflexivity|].
  match goal with |- context [fold_left (PosixPath.norm_step ?n)] =>
    generalize n end.
  intros n. pose proof (split_no_magic PosixPath.sep p H) as Hs.
  assert (Hacc : Forall (λ w, Glob.has_magic w = false) (@nil str))
    by constructor.
  revert Hacc. generalize (@nil str). 
  induction Hs as [|w ws Hw Hws IH]; intros acc Hacc; [exact Hacc|].
  cbn [fold_left]. apply IH. unfold PosixPath.norm_step.
  assert (Forall (λ w, Glob.has_magic w = false) (acc ++ [w]))
    by (apply Forall_app; split; [assumption|by constructor]).
  pose proof (removelast_Forall _ _ Hacc).
  repeat match goal with
         | |- context [if ?b then _ else _] => destruct b
         end; assumption.
Qed.

Lemma nt_normpath_no_magic (p : str) :
  Glob.has_magic p = false → Glob.has_magic (NtPath.normpath p) = false.
Proof.
  intros H. unfold NtPath.normpath.
  destruct (NtPath.special_prefix p); [exact H|].
  assert (H1 : Glob.has_magic (PyStr.replace NtPath.altsep NtPath.sep p)
               = false).
  { apply has_magic_forall. apply has_magic_forall in H.
    unfold PyStr.replace. apply Forall_map.
    eapply Forall_impl; [exact H|]. intros c Hc. simpl.
    destruct (Ascii.eqb c NtPath.altsep); [reflexivity|exact Hc]. }
  destruct (nt_splitdrive_cut (PyStr.replace NtPath.altsep NtPath.sep p))
    as [k Hk].
  rewrite Hk. rewrite <- (take_drop k) in H1 at 1.
  rewrite has_magic_app in H1. apply orb_false_iff in H1 as [Hd Ht].
  set (pr := take k _) in *. set (tl := drop k _) in *.
  assert (Hfold : ∀ prefix l acc,
            Forall (λ w, Glob.has_magic w = false) l →
            Forall (λ w, Glob.has_magic w = false) acc →
            Forall (λ w, Glob.has_magic w = false)
              (fold_left (NtPath.norm_step prefix) l acc)).
  { intros prefix l acc Hl. revert acc.
    induction Hl as [|w ws Hw Hws IH]; intros acc Hacc; [exact Hacc|].
    cbn [fold_left]. apply IH. unfold NtPath.norm_step.
    assert (Forall (λ w, Glob.has_magic w = false) (acc ++ [w]))
      by (apply Forall_app; split; [assumption|by constructor]).
    pose proof (removelast_Forall _ _ Hacc).
    repeat match goal with
           | |- context [if ?b then _ else _] => destruct b
           end; assumption. }
  assert (Hcomps : ∀ (prefix : str) comps,
            Forall (λ w, Glob.has_magic w = false) comps →
            Forall (λ w, Glob.has_magic w = false)
              (if bool_decide (prefix = []) && bool_decide (comps = [])
               then [NtPath.curdir] else comps)).
  { intros prefix comps Hc. destruct (_ && _); [by repeat constructor|exact Hc]. }
  destruct (PyStr.startswith tl [NtPath.sep]).
  - rewrite has_magic_app. apply orb_false_iff. split.
    + by rewrite has_magic_app, Hd.
    + apply join_no_magic; [reflexivity|]. apply Hcomps, Hfold; [|constructor].
      apply split_no_magic, lstrip_by_no_magic, Ht.
  - rewrite has_magic_app. apply orb_false_iff. split; [exact Hd|].
    apply join_no_magic; [reflexivity|]. apply Hcomps, Hfold; [|constructor].
    apply split_no_magic, Ht.
Qed.

Lemma normpath_no_magic (pf : platform) (p : str) :
  Glob.has_magic p = false → Glob.has_magic (OsPath.normpath pf p) = false.
Proof.
  destruct pf; [apply posix_normpath_no_magic|apply nt_normpath_no_magic].
Qed.

Lemma set_items_raises (s : str) (x : exn) :
  Fnmatch.set_items s = Raise x → x = ReError.
Proof.
  remember (length s) as n eqn:Hn. revert s Hn.
  induction n as [n IH] using lt_wf_ind. intros s Hn.
  destruct s as [|c1 s1]; [discriminate|]. cbn [Fnmatch.set_items].
  assert (Hlit : ∀ t, (length t < n)%nat →
            (l ← Fnmatch.set_items t; Ok (Re.Lit c1 :: l)) = Raise x →
            x = ReError).
  { intros t Ht. destruct (Fnmatch.set_items t) eqn:E;
      cbn [mbind result_bind]; [discriminate|].
    intros [= <-]. exact (IH _ Ht t eq_refl E). }
  destruct s1 as [|d s2]; [apply Hlit; subst n; simpl; lia|].
  destruct (Ascii.eqb d "-") eqn:Hd.
  - apply Ascii.eqb_eq in Hd as ->. destruct s2 as [|c2 s2]; [discriminate|].
    destruct (_ <? _)%N; [congruence|].
    destruct (Fnmatch.set_items s2) eqn:E; cbn [mbind result_bind];
      [discriminate|].
    intros [= <-]. apply (IH (length s2)) in E; [exact E| |reflexivity].
    subst n. simpl. lia.
  - intros H. apply (Hlit (d :: s2)); [subst n; simpl; lia|].
    destruct d as [[] [] [] [] [] [] [] []]; try discriminate Hd; exact H.
Qed.

Lemma pieces_raises (pat : str) :
  ∀ (skip : nat) (x : exn), Fnmatch.pieces pat skip = Raise x → x = ReError.
Proof.
  induction pat as [|c pat IH]; intros skip x; [discriminate|].
  cbn [Fnmatch.pieces]. destruct skip as [|n]; [|apply IH].
  assert (Hrec : ∀ r n, (l ← Fnmatch.pieces pat n; Ok (r :: l)) = Raise x →
            x = ReError).
  { intros r n. destruct (Fnmatch.pieces pat n) eqn:E;
      cbn [mbind result_bind]; [discriminate|].
    intros [= <-]. exact (IH _ _ E). }
  destruct (Ascii.eqb c "*"); [apply Hrec|].
  destruct (Ascii.eqb c "?"); [apply Hrec|].
  destruct (Ascii.eqb c "["); [|apply Hrec].
  destruct (Fnmatch.bracket pat) as [[stuff n]|]; [|apply Hrec].
  destruct (Fnmatch.set_of stuff) as [r|y] eqn:E; cbn [mbind result_bind];
    [apply Hrec|].
  intros [= <-]. unfold Fnmatch.set_of in E.
  assert (Hs : ∀ t (f : list Re.item → Re.regex),
            (l ← Fnmatch.set_items t; Ok (f l)) = Raise y → y = ReError).
  { intros t f. destruct (Fnmatch.set_items t) eqn:E';
      cbn [mbind result_bind]; [discriminate|].
    intros [= <-]. exact (set_items_raises _ _ E'). }
  destruct stuff as [|a stuff]; [discriminate|].
  destruct a as [[] [] [] [] [] [] [] []];
    first [exact (Hs _ (λ l, Re.Char (Re.NoneOf l)) E)
          | exact (Hs _ (λ l, Re.Char (Re.OneOf l)) E)].
Qed.

Lemma props_loop_raises (props : list str) :
  ∀ fl, props_loop fl props ≠ Raise AssertionError.
Proof.
  induction props as [|p props IH]; intros fl; [discriminate|].
  cbn [props_loop]. destruct (props_step fl p) as [fl'|x] eqn:E;
    cbn [mbind result_bind]; [apply IH|].
  intros [= ->]. unfold props_step in E. destruct fl.
  repeat match type of E with
         | (if ?b then _ else _) = _ => destruct b
         end; discriminate.
Qed.

Lemma attr_init_loop_raises (words : list str) :
  ∀ acc, WinAttrFilter.init_loop acc words ≠ Raise AssertionError.
Proof.
  induction words as [|w words IH]; intros acc; [discriminate|].
  cbn [WinAttrFilter.init_loop].
  destruct (WinAttrFilter.init_step acc w) as [acc'|x] eqn:E;
    cbn [mbind result_bind]; [apply IH|].
  intros [= ->]. destruct w as [|c w]; [discriminate|].
  rewrite attr_init_step_eq in E.
  destruct (dict_get _ _); [|discriminate].
  destruct (negb _); discriminate.
Qed.

(** X19.  [create_filter] fails on an assertion only through the one of
    [PathShellFilter.__init__]: the pattern holds a wildcard outside its
    drive, and none is left once the pattern is normalised (as in [*/..],
    which normalises to [.]).  The assertions on the stripped pattern and
    of [PathTailFilter.__init__] never fail. *)
Theorem create_filter_assertion_from_shell (pf : platform) (rc : re_compiler)
    (e : str) :
  create_filter pf rc e = Raise AssertionError →
  ∃ rem p,
    Re.match_ EXPRESSION_REGEX e = Some rem
    ∧ Re.group rem 3 = Some p
    ∧ Glob.has_magic (snd (OsPath.splitdrive pf p)) = true
    ∧ Glob.has_magic (OsPath.normpath pf p) = false.
Proof.
  unfold create_filter.
  destruct (Re.match_ EXPRESSION_REGEX e) as [rem|] eqn:Hrem; [|discriminate].
  destruct (expression_group_clean e rem Hrem) as (p & Hp & Hclean).
  destruct (clean_pattern_strip p Hclean) as [Hne Hstrip].
  rewrite Hp. unfold default, from_option, id. rewrite Hstrip.
  replace (PyStr.eqb p p) with true
    by (symmetry; apply bool_decide_eq_true_2; reflexivity).
  set (pp := match Re.group rem 2 with
             | Some [] => _
             | Some (_ :: _) => _
             | None => _
             end).
  destruct pp as [props_orig props]. cbn [py_assert mbind result_bind].
  destruct (props_loop _ props) as [fl|x] eqn:Hfl; cbn [mbind result_bind];
    [|intros [= ->]; by apply props_loop_raises in Hfl].
  destruct (1 <? _)%nat; [discriminate|].
  destruct (is_ext fl).
  { unfold ExtensionsFilter.__init__.
    destruct (PyStr.contains _ _); discriminate. }
  destruct (is_attr_or fl || is_attr_and fl).
  { destruct (IS_WINDOWS pf); [|discriminate].
    unfold WinAttrFilter.__init__.
    destruct (WinAttrFilter.init_loop _ _) as [[d nd]|x] eqn:E;
      cbn [mbind result_bind];
      [|intros [= ->]; by apply attr_init_loop_raises in E].
    destruct (_ && _); [discriminate|]. destruct (negb _); discriminate. }
  destruct (is_regex fl).
  { unfold PathRegexFilter.__init__. destruct (rc _ _); discriminate. }
  destruct (norm_path_pattern_cases pf p) as [Hn|(Hn & _ & _ & _)].
  { destruct (_ && _);
      [unfold PathShellFilter.__init__|unfold PathTailFilter.__init__];
      rewrite Hn; discriminate. }
  destruct (PyStr.nonempty _ && Glob.has_magic _) eqn:Hm.
  - apply andb_true_iff in Hm as [_ Hm].
    unfold PathShellFilter.__init__. rewrite Hn. cbn [mbind result_bind].
    destruct (Glob.has_magic (OsPath.normpath pf p)) eqn:Hq;
      cbn [py_assert mbind result_bind].
    + destruct (Fnmatch.translate _) as [r|x] eqn:E; cbn [mbind result_bind];
        [discriminate|].
      intros [= ->]. unfold Fnmatch.translate in E.
      destruct (Fnmatch.pieces _ _) as [l|x] eqn:E'; cbn [mbind result_bind] in E;
        [discriminate|].
      injection E as ->. by apply pieces_raises in E'.
    + intros _. exists rem, p. done.
  - unfold PathTailFilter.__init__. rewrite Hn. cbn [mbind result_bind].
    assert (Hd : fst (OsPath.splitdrive pf p) = []).
    { destruct (fst (OsPath.splitdrive pf p)) eqn:Hd; [reflexivity|].
      rewrite norm_path_rejects_absolute in Hn; [discriminate|].
      right. by rewrite Hd. }
    assert (Ht : snd (OsPath.splitdrive pf p) = p).
    { assert (∃ k, OsPath.splitdrive pf p = (take k p, drop k p)) as [k Hk].
      { destruct pf; [by exists 0%nat | apply nt_splitdrive_cut]. }
      rewrite Hk in Hd |- *. cbn [fst snd] in *. by apply take_nil_drop. }
    rewrite Ht in Hm. destruct p as [|a p]; [done|].
    cbn [PyStr.nonempty andb] in Hm.
    rewrite (normpath_no_magic pf _ Hm). cbn [negb py_assert mbind result_bind].
    destruct (item0 _) as [c|x] eqn:E; cbn [mbind result_bind]; [discriminate|].
    intros [= ->]. unfold item0 in E.
    destruct (if negb _ then _ else _); discriminate.
Qed.

Lemma create_filter_assertion_from_shell_witness :
  ∃ rem p,
    Re.match_ EXPRESSION_REGEX (py "*/..") = Some rem
    ∧ Re.group rem 3 = Some p
    ∧ Glob.has_magic (snd (OsPath.splitdrive Posix p)) = true
    ∧ Glob.has_magic (OsPath.normpath Posix p) = false.
Proof.
  apply (create_filter_assertion_from_shell Posix re_compile_plain
           (py "*/..")).
  vm_compute. reflexivity.
Defined.

(** ** Rendering and recompiling, further

    The expression reads the renderings of the regular expression and
    of the extension filters back: a sign, the properties and a pattern
    that is taken whole. *)

Lemma repeat_greedy_first (c : Re.cset) (min cnt : nat) (sn pre suf : str)
    (gs : list (nat * str)) (k : Re.mstate → Re.outcome)
    (g : list (nat * str)) :
  Forall (λ a, Re.mem c a = true) pre →
  match suf with b :: _ => Re.mem c b = false | [] => True end →
  (min ≤ cnt + length pre)%nat →
  k (Re.MState (rev pre ++ sn) suf gs) = Some g →
  Re.repeat_greedy c min cnt sn (pre ++ suf) gs k = Some g.
Proof.
  revert cnt sn. induction pre as [|a pre IH]; intros cnt sn Hpre Hsuf Hle Hk.
  - simpl in *. assert (E : (min <=? cnt)%nat = true) by (apply Nat.leb_le; lia).
    destruct suf as [|b suf]; cbn [Re.repeat_greedy]; rewrite ?Hsuf, E;
      exact Hk.
  - inversion Hpre as [|? ? Ha Hpre']; subst. simpl in Hk, Hle.
    rewrite <- app_assoc in Hk. cbn [app Re.repeat_greedy]. rewrite Ha.
    by rewrite (IH (S cnt) (a :: sn) Hpre' Hsuf ltac:(lia) Hk).
Qed.

Lemma repeat_greedy_second (c : Re.cset) (min cnt : nat) (sn pre suf : str)
    (a : ascii) (gs : list (nat * str)) (k : Re.mstate → Re.outcome)
    (g : list (nat * str)) :
  Forall (λ a, Re.mem c a = true) pre →
  Re.mem c a = true →
  match suf with b :: _ => Re.mem c b = false | [] => True end →
  (min ≤ cnt + length pre)%nat →
  k (Re.MState (a :: rev pre ++ sn) suf gs) = None →
  k (Re.MState (rev pre ++ sn) (a :: suf) gs) = Some g →
  Re.repeat_greedy c min cnt sn (pre ++ a :: suf) gs k = Some g.
Proof.
  revert cnt sn.
  induction pre as [|b pre IH]; intros cnt sn Hpre Ha Hsuf Hle Hn Hk.
  - simpl in *. assert (E : (min <=? cnt)%nat = true) by (apply Nat.leb_le; lia).
    cbn [Re.repeat_greedy]. rewrite Ha, E.
    assert (Re.repeat_greedy c min (S cnt) (a :: sn) suf gs k = None) as ->;
      [|exact Hk].
    destruct suf as [|d suf]; cbn [Re.repeat_greedy]; rewrite ?Hsuf, Hn;
      by destruct (min <=? S cnt)%nat.
  - inversion Hpre as [|? ? Hb Hpre']; subst. simpl in Hk, Hle, Hn.
    rewrite <- app_assoc in Hk, Hn. cbn [app Re.repeat_greedy]. rewrite Hb.
    by rewrite (IH (S cnt) (b :: sn) Hpre' Ha Hsuf ltac:(lia) Hn Hk).
Qed.

Lemma props_char_plain (a : ascii) :
  Re.mem props_chars a = true →
  PyStr.isspace a = false ∧ Re.mem Re.Dot a = true.
Proof.
  destruct a as [[] [] [] [] [] [] [] []]; vm_compute; intros H;
    try discriminate H; split; reflexivity.
Qed.

(** The pattern part of the expression takes a clean pattern whole. *)
Lemma pattern_takes_clean (sn p : str) (gs : list (nat * str)) :
  clean_pattern p →
  Re.run RE_PATTERN (Re.MState sn p gs) match_end = Some ((3%nat, p) :: gs).
Proof.
  intros (_ & (z & l & Hrev & Hz) & Hdot).
  unfold RE_PATTERN. rewrite run_seq. cbn [Re.run Re.seen Re.ahead Re.groups].
  rewrite <- (app_nil_r p) at 1.
  apply repeat_greedy_first; [exact Hdot|exact I| |].
  { destruct p; [discriminate Hrev|simpl; lia]. }
  cbn [Re.seen Re.ahead Re.groups]. rewrite between_consumed.
  unfold RE_TAIL. cbn [Re.run Re.seen Re.ahead Re.groups Re.repeat_greedy].
  rewrite Hrev. cbn [app]. rewrite space_mem, Hz. reflexivity.
Qed.

Lemma run_opt_some (r : Re.regex) (st : Re.mstate)
    (k : Re.mstate → Re.outcome) (g : list (nat * str)) :
  Re.run r st k = Some g → Re.run (Re.Opt r) st k = Some g.
Proof. intros H. cbn [Re.run]. by rewrite H. Qed.

(** The expression reads a rendering: a sign, a blank, the properties, a
    colon, a blank and a clean pattern. *)
Lemma expression_reads_rendering (inclusive : bool) (P p : str) :
  (2 ≤ length P)%nat →
  Forall (λ a, Re.mem props_chars a = true) P →
  head P ≠ Some ":"%char →
  clean_pattern p →
  Re.match_ EXPRESSION_REGEX (sign_str inclusive ++ P ++ py ": " ++ p)
  = Some [(3%nat, p); (2%nat, P);
          (1%nat, [if inclusive then "+"%char else "-"%char])].
Proof.
  intros Hlen HP Hhead Hp.
  destruct P as [|p0 P']; [simpl in Hlen; lia|].
  inversion HP as [|? ? Hp0 _]; subst.
  destruct (props_char_plain p0 Hp0) as [Hp0s _].
  assert (Hp0c : Re.mem (Re.OneOf [Re.Lit ":"]) p0 = false).
  { simpl. rewrite orb_false_r. apply Ascii.eqb_neq. intros ->. by apply Hhead. }
  pose proof Hp as ((a & l & -> & Ha) & _).
  set (sg := if inclusive then "+"%char else "-"%char).
  assert (Hsg : sign_str inclusive = [sg; " "%char]) by (by destruct inclusive).
  assert (Hsg1 : Re.mem RE_SPACE sg = false) by (by destruct inclusive).
  assert (Hsg2 : Re.mem (Re.OneOf [Re.Lit "+"; Re.Lit "-"]) sg = true)
    by (by destruct inclusive).
  rewrite Hsg. unfold Re.match_. rewrite expression_regex_parts, !run_seq.
  cbn [app Re.run Re.seen Re.ahead Re.groups Re.repeat_greedy Nat.leb].
  rewrite Hsg1. unfold RE_SIGN. apply run_opt_some. rewrite run_seq.
  cbn [Re.run Re.seen Re.ahead Re.groups]. rewrite Hsg2.
  cbn [Re.seen Re.ahead Re.groups].
  apply (repeat_greedy_first RE_SPACE 1 0 [sg] [" "%char]);
    [by repeat constructor|by rewrite space_mem|simpl; lia|].
  unfold Re.between. cbn [Re.seen length Nat.sub take rev app].
  unfold RE_PROPS. apply run_opt_some. rewrite !run_seq.
  cbn [Re.run Re.seen Re.ahead Re.groups]. rewrite Hp0c.
  change (p0 :: P' ++ py ": " ++ a :: l)
    with ((p0 :: P') ++ ":"%char :: " "%char :: a :: l).
  apply repeat_greedy_second;
    [exact HP|reflexivity|reflexivity|simpl in *; lia|reflexivity|].
  cbn [Re.seen Re.ahead Re.groups]. rewrite between_consumed.
  cbn [Re.run Re.seen Re.ahead Re.groups Re.mem existsb Re.item_mem].
  cbn [Ascii.eqb Bool.eqb orb].
  apply (repeat_greedy_first RE_SPACE 1 0 _ [" "%char]);
    [by repeat constructor|by rewrite space_mem|simpl; lia|].
  apply pattern_takes_clean. exact Hp.
Qed.

Lemma regex_str_parts (f : PathRegexFilter.t) :
  PathRegexFilter.__str__ f
  = sign_str (PathRegexFilter.inclusive f)
    ++ regex_props (PathRegexFilter.case_sensitive f)
         (PathRegexFilter.nodrive f)
    ++ py ": " ++ PathRegexFilter.pattern f.
Proof.
  unfold PathRegexFilter.__str__, regex_props. f_equal.
  by destruct (PathRegexFilter.case_sensitive f), (PathRegexFilter.nodrive f).
Qed.

Lemma create_filter_regex_inv (pf : platform) (rc : re_compiler) (e : str)
    (f : PathRegexFilter.t) :
  create_filter pf rc e = Ok (Regex f) →
  clean_pattern (PathRegexFilter.pattern f)
  ∧ PathRegexFilter.__init__ rc (PathRegexFilter.pattern f)
      (PathRegexFilter.case_sensitive f) (PathRegexFilter.nodrive f)
      (PathRegexFilter.inclusive f) = Ok f.
Proof.
  unfold create_filter.
  destruct (Re.match_ EXPRESSION_REGEX e) as [rem|] eqn:Hrem; [|discriminate].
  destruct (expression_group_clean e rem Hrem) as (p & Hp & Hclean).
  rewrite Hp. unfold default, from_option, id.
  set (pp := match Re.group rem 2 with
             | Some [] => _
             | Some (_ :: _) => _
             | None => _
             end).
  destruct pp as [props_orig props].
  destruct (py_assert _) as [[]|]; cbn [mbind result_bind]; [|discriminate].
  destruct (props_loop _ props) as [fl|]; cbn [mbind result_bind];
    [|discriminate].
  destruct (1 <? _)%nat; [discriminate|].
  destruct (is_ext fl).
  { destruct (ExtensionsFilter.__init__ _ _ _ _); discriminate. }
  destruct (is_attr_or fl || is_attr_and fl).
  { destruct (IS_WINDOWS pf); [|discriminate].
    destruct (WinAttrFilter.__init__ _ _ _); discriminate. }
  destruct (is_regex fl).
  - destruct (PathRegexFilter.__init__ _ _ _ _ _) as [r|] eqn:E;
      cbn [mbind result_bind]; [|discriminate].
    intros [= ->]. unfold PathRegexFilter.__init__ in E |- *.
    destruct (rc p _) as [?|m] eqn:Em; [discriminate|].
    injection E as <-. cbn. rewrite Em. done.
  - destruct (_ && _).
    + destruct (PathShellFilter.__init__ _ _ _ _ _); discriminate.
    + destruct (PathTailFilter.__init__ _ _ _ _); discriminate.
Qed.

(** [create_filter] on a rendering, once the properties are read. *)
Lemma create_filter_rendering (pf : platform) (rc : re_compiler)
    (inclusive : bool) (P p : str) (fl : prop_flags) :
  (2 ≤ length P)%nat →
  Forall (λ a, Re.mem props_chars a = true) P →
  head P ≠ Some ":"%char →
  clean_pattern p →
  props_loop (Flags false false false false false false)
    (PyStr.split ":" (PyStr.lower P)) = Ok fl →
  is_attr_or fl = false → is_attr_and fl = false →
  (is_regex fl = true → is_ext fl = false →
   create_filter pf rc (sign_str inclusive ++ P ++ py ": " ++ p)
   = f ← PathRegexFilter.__init__ rc p (is_case_sensitive fl)
           (is_nodrive fl) inclusive;
     Ok (Regex f))
  ∧ (is_regex fl = false → is_ext fl = true →
     create_filter pf rc (sign_str inclusive ++ P ++ py ": " ++ p)
     = f ← ExtensionsFilter.__init__ pf p (is_case_sensitive fl) inclusive;
       Ok (Extensions f)).
Proof.
  intros Hlen HP Hhead Hclean Hfl Hao Haa.
  destruct (clean_pattern_strip _ Hclean) as [_ Hstrip].
  assert (Heq : PyStr.eqb p p = true)
    by (apply bool_decide_eq_true_2; reflexivity).
  destruct fl as [re ao aa ex nd cs].
  cbn [is_regex is_attr_or is_attr_and is_ext is_nodrive is_case_sensitive]
    in *.
  subst ao aa.
  split; intros -> ->; unfold create_filter;
    rewrite (expression_reads_rendering inclusive P p Hlen HP Hhead Hclean);
    cbn [Re.group Nat.eqb]; unfold default, from_option, id;
    rewrite Hstrip, Heq;
    (destruct P as [|c t]; [simpl in Hlen; lia|]);
    rewrite Hfl; cbn [py_assert mbind result_bind];
    by destruct inclusive.
Qed.

Lemma regex_props_flags (cs nd : bool) :
  (2 ≤ length (regex_props cs nd))%nat
  ∧ Forall (λ a, Re.mem props_chars a = true) (regex_props cs nd)
  ∧ head (regex_props cs nd) ≠ Some ":"%char
  ∧ props_loop (Flags false false false false false false)
      (PyStr.split ":" (PyStr.lower (regex_props cs nd)))
    = Ok (Flags true false false false nd cs).
Proof.
  destruct cs, nd; (split; [vm_compute; lia|]);
    (split; [by repeat constructor|]); (split; [discriminate|]);
    vm_compute; reflexivity.
Qed.

(** X20.  Rendering and recompiling a regular expression filter that
    [create_filter] returned gives the filter back: [create_filter(str(f))]
    succeeds with the same pattern, the same flags and the same compiled
    expression.  (What fails for these filters is [==], through
    [__hash__].) *)
Theorem regex_render_roundtrip (pf : platform) (rc : re_compiler) (e : str)
    (f : PathRegexFilter.t) :
  create_filter pf rc e = Ok (Regex f) →
  create_filter pf rc (py_str (Regex f)) = Ok (Regex f).
Proof.
  intros H. apply create_filter_regex_inv in H as [Hclean Hinit].
  cbn [py_str]. rewrite regex_str_parts.
  destruct (regex_props_flags (PathRegexFilter.case_sensitive f)
              (PathRegexFilter.nodrive f)) as (Hlen & HP & Hhead & Hfl).
  destruct (create_filter_rendering pf rc (PathRegexFilter.inclusive f) _ _ _
              Hlen HP Hhead Hclean Hfl eq_refl eq_refl) as [Hr _].
  rewrite Hr by reflexivity.
  cbn [is_case_sensitive is_nodrive]. by rewrite Hinit.
Qed.

Lemma regex_render_roundtrip_witness :
  ∃ f, create_filter Posix re_compile_plain (py " - regex:case: abc ")
       = Ok (Regex f)
       ∧ create_filter Posix re_compile_plain (py_str (Regex f))
         = Ok (Regex f).
Proof.
  eexists. split; [vm_compute; reflexivity|].
  apply (regex_render_roundtrip Posix re_compile_plain
           (py " - regex:case: abc ")).
  vm_compute. reflexivity.
Defined.

Lemma norm_case_chars (pf : platform) (s : str) :
  Filter.norm_case pf s = map (norm_char pf) s.
Proof.
  destruct pf; [reflexivity|].
  unfold Filter.norm_case. cbn [IS_WINDOWS OsPath.normcase].
  unfold NtPath.normcase, PyStr.lower, PyStr.replace. by rewrite map_map.
Qed.

Lemma norm_char_idem (pf : platform) (c : ascii) :
  norm_char pf (norm_char pf c) = norm_char pf c.
Proof. destruct pf, c as [[] [] [] [] [] [] [] []]; reflexivity. Qed.

Lemma norm_case_fixed (pf : platform) (s : str) :
  Forall (λ c, norm_char pf c = c) s → Filter.norm_case pf s = s.
Proof.
  intros H. rewrite norm_case_chars.
  induction H as [|c s Hc _ IH]; [reflexivity|]. simpl. by rewrite Hc, IH.
Qed.

Lemma ext_sep_plain (c : ascii) :
  ExtensionsFilter.is_ext_sep c = false →
  PyStr.isspace c = false ∧ Re.mem Re.Dot c = true.
Proof.
  destruct c as [[] [] [] [] [] [] [] []]; vm_compute; intros H;
    try discriminate H; split; reflexivity.
Qed.

Lemma join_cons2 (sep w v : str) (l : list str) :
  PyStr.join sep (w :: v :: l) = w ++ sep ++ PyStr.join sep (v :: l).
Proof. reflexivity. Qed.

(** The characters of a line of words: those of the words, and blanks. *)
Lemma join_words_chars (l : list str) (P : ascii → Prop) :
  P " "%char → Forall (Forall P) l → Forall P (PyStr.join (py " ") l).
Proof.
  intros Hsp H. induction H as [|w l Hw Hl IH]; [constructor|].
  destruct l as [|v l]; [exact Hw|]. rewrite join_cons2.
  apply Forall_app. split; [exact Hw|]. by constructor.
Qed.

Lemma join_words_head (l : list str) :
  l ≠ [] → Forall ext_word l →
  ∃ a t, PyStr.join (py " ") l = a :: t
         ∧ ExtensionsFilter.is_ext_sep a = false.
Proof.
  intros Hl H. destruct H as [|w l [Hne Hw] Hr]; [done|].
  destruct w as [|a w]; [done|]. inversion Hw; subst.
  destruct l; [by exists a, w|]. rewrite join_cons2. by eexists a, _.
Qed.

Lemma join_words_last (l : list str) :
  l ≠ [] → Forall ext_word l →
  ∃ z t, rev (PyStr.join (py " ") l) = z :: t
         ∧ ExtensionsFilter.is_ext_sep z = false.
Proof.
  intros Hl H. induction H as [|w l [Hne Hw] Hr IH]; [done|].
  destruct l as [|v l].
  - cbn [PyStr.join]. destruct (rev w) as [|z t] eqn:E.
    + apply (f_equal (@length _)) in E. rewrite length_rev in E.
      destruct w; [done|discriminate].
    + exists z, t. split; [reflexivity|].
      rewrite Forall_forall in Hw. apply Hw.
      apply list_elem_of_In, in_rev. rewrite E. by left.
  - rewrite join_cons2, !rev_app_distr.
    destruct IH as (z & t & -> & Hz); [done|]. by eexists z, _.
Qed.

Lemma join_words_clean (l : list str) :
  l ≠ [] → Forall ext_word l → clean_pattern (PyStr.join (py " ") l).
Proof.
  intros Hl H. split; [|split].
  - destruct (join_words_head l Hl H) as (a & t & E & Ha).
    exists a, t. split; [exact E|]. by apply ext_sep_plain in Ha as [? _].
  - destruct (join_words_last l Hl H) as (z & t & E & Hz).
    exists z, t. split; [exact E|]. by apply ext_sep_plain in Hz as [? _].
  - apply join_words_chars; [reflexivity|].
    eapply Forall_impl; [exact H|]. intros w [_ Hw].
    eapply Forall_impl; [exact Hw|]. intros c Hc.
    by apply ext_sep_plain in Hc as [_ ?].
Qed.

Lemma split_runs_cons (p : ascii → bool) (s : str) :
  ∃ x xs, PyStr.split_runs p s = x :: xs.
Proof.
  induction s as [|a s (x & xs & IH)]; [by eexists _, _|].
  cbn [PyStr.split_runs]. destruct (p a).
  - destruct s as [|b s]; [by eexists _, _|].
    destruct (p b); [by eexists _, _|by eexists _, _].
  - rewrite IH. by eexists _, _.
Qed.

Lemma split_runs_word (p : ascii → bool) (w rest : str) (x : str)
    (xs : list str) :
  Forall (λ c, p c = false) w →
  PyStr.split_runs p rest = x :: xs →
  PyStr.split_runs p (w ++ rest) = (w ++ x) :: xs.
Proof.
  intros Hw Hr. induction Hw as [|a w Ha Hw IH]; [exact Hr|].
  cbn [app PyStr.split_runs]. by rewrite Ha, IH.
Qed.

Lemma split_runs_blank (p : ascii → bool) (b a : ascii) (t : str) :
  p b = true → p a = false →
  PyStr.split_runs p (b :: a :: t) = [] :: PyStr.split_runs p (a :: t).
Proof. intros Hb Ha. simpl. by rewrite Hb, Ha. Qed.

Lemma split_runs_join (l : list str) :
  l ≠ [] → Forall ext_word l →
  PyStr.split_runs ExtensionsFilter.is_ext_sep (PyStr.join (py " ") l) = l.
Proof.
  intros Hl H. induction H as [|w l [Hne Hw] Hr IH]; [done|].
  destruct l as [|v l].
  - cbn [PyStr.join]. rewrite <- (app_nil_r w) at 1.
    rewrite (split_runs_word _ w [] [] []) by done. by rewrite app_nil_r.
  - rewrite join_cons2.
    destruct (join_words_head (v :: l) ltac:(done) Hr) as (a & t & E & Ha).
    specialize (IH ltac:(done)). rewrite E in IH |- *.
    rewrite (split_runs_word _ w _ [] (v :: l)); [by rewrite app_nil_r|exact Hw|].
    change (py " " ++ a :: t) with (" "%char :: a :: t).
    by rewrite split_runs_blank, IH.
Qed.

Lemma filter_nonempty_words (l : list str) :
  Forall ext_word l → List.filter PyStr.nonempty l = l.
Proof.
  induction 1 as [|w l [Hne _] _ IH]; [reflexivity|].
  simpl. destruct w; [done|]. simpl. by rewrite IH.
Qed.

Lemma ext_str_parts (f : ExtensionsFilter.t) :
  ExtensionsFilter.__str__ f
  = sign_str (ExtensionsFilter.inclusive f)
    ++ ext_props (ExtensionsFilter.case_sensitive f)
    ++ py ": " ++ PyStr.join (py " ") (elements (ExtensionsFilter.ext f)).
Proof.
  unfold ExtensionsFilter.__str__, ext_props. f_equal.
  by destruct (ExtensionsFilter.case_sensitive f).
Qed.

Lemma ext_props_flags (cs : bool) :
  (2 ≤ length (ext_props cs))%nat
  ∧ Forall (λ a, Re.mem props_chars a = true) (ext_props cs)
  ∧ head (ext_props cs) ≠ Some ":"%char
  ∧ props_loop (Flags false false false false false false)
      (PyStr.split ":" (PyStr.lower (ext_props cs)))
    = Ok (Flags false false false true false cs).
Proof.
  destruct cs; (split; [vm_compute; lia|]);
    (split; [by repeat constructor|]); (split; [discriminate|]);
    vm_compute; reflexivity.
Qed.

(** What [ExtensionsFilter.__init__] builds, as a record. *)
Lemma ext_init_inv (pf : platform) (pattern : str) (cs incl : bool)
    (f : ExtensionsFilter.t) :
  ExtensionsFilter.__init__ pf pattern cs incl = Ok f →
  f = ExtensionsFilter.Build None incl cs (ExtensionsFilter.ext f)
  ∧ Forall
      (λ w, ext_word w
            ∧ Forall (λ c, c ≠ OsPath.sep pf
                           ∧ (cs = false → norm_char pf c = c)) w)
      (elements (ExtensionsFilter.ext f)).
Proof.
  intros H. pose proof (ext_init_suffixes pf pattern cs incl f H) as Hs.
  unfold ExtensionsFilter.__init__ in H.
  destruct (PyStr.contains _ _); [discriminate|]. injection H as <-.
  split; [reflexivity|]. apply Forall_forall. intros w Hw.
  apply elem_of_elements in Hw. destruct (Hs w Hw) as [Hne Hc].
  split; [split; [exact Hne|]|]; apply Forall_forall; intros c Hin;
    destruct (Hc c Hin) as (H1 & H2 & H3 & H4 & _).
  - unfold ExtensionsFilter.is_ext_sep. rewrite H1. simpl.
    by apply Ascii.eqb_neq.
  - split; [exact H3|]. intros ->. unfold ext_pattern in H4. cbn [negb] in H4.
    rewrite norm_case_chars in H4.
    apply list_elem_of_fmap in H4 as (x & -> & _). apply norm_char_idem.
Qed.

(** X21.  Rendering and recompiling an extension filter: for every filter
    that [ExtensionsFilter.__init__] builds with a suffix set that is not
    empty, [create_filter(str(f))] gives the filter back; for one with an
    empty set the rendering ends after [ext:], and it compiles to a
    [PathTailFilter] instead. *)
Theorem ext_render_roundtrip (pf : platform) (rc : re_compiler)
    (pattern : str) (case_sensitive inclusive : bool)
    (f : ExtensionsFilter.t) :
  ExtensionsFilter.__init__ pf pattern case_sensitive inclusive = Ok f →
  (ExtensionsFilter.ext f ≠ ∅ →
   create_filter pf rc (py_str (Extensions f)) = Ok (Extensions f))
  ∧ (ExtensionsFilter.ext f = ∅ →
     ∃ t, create_filter pf rc (py_str (Extensions f)) = Ok (Tail t)).
Proof.
  intros H. apply ext_init_inv in H as [Hf Hel].
  destruct f as [hc incl cs x].
  cbn [ExtensionsFilter.ext] in *. injection Hf as -> -> ->. split.
  - intros Hne. cbn [py_str]. rewrite ext_str_parts.
    cbn [ExtensionsFilter.ext ExtensionsFilter.inclusive
         ExtensionsFilter.case_sensitive].
    set (l := elements x) in *.
    assert (Hl : l ≠ []).
    { intros E. apply Hne. by apply elements_empty_inv, leibniz_equiv in E. }
    assert (Hw : Forall ext_word l).
    { eapply Forall_impl; [exact Hel|]. by intros w [? _]. }
    destruct (ext_props_flags case_sensitive) as (Hlen & HP & Hhead & Hfl).
    destruct (create_filter_rendering pf rc inclusive
                _ _ _ Hlen HP Hhead (join_words_clean l Hl Hw) Hfl
                eq_refl eq_refl) as [_ Hr].
    rewrite Hr by reflexivity. cbn [is_case_sensitive].
    unfold ExtensionsFilter.__init__.
    set (p := PyStr.join (py " ") l).
    assert (Hp : (if negb case_sensitive then Filter.norm_case pf p else p)
                 = p).
    { destruct case_sensitive; [reflexivity|]. cbn [negb].
      apply norm_case_fixed. apply join_words_chars.
      - by destruct pf.
      - eapply Forall_impl; [exact Hel|]. intros w [_ Hc].
        eapply Forall_impl; [exact Hc|]. intros c [_ Hn]. by apply Hn. }
    rewrite Hp.
    assert (Hsep : PyStr.contains (OsPath.sep pf) p = false).
    { apply contains_false. intros Hin.
      assert (Forall (λ c, c ≠ OsPath.sep pf) p) as Hall.
      { apply join_words_chars; [by destruct pf|].
        eapply Forall_impl; [exact Hel|]. intros w [_ Hc].
        eapply Forall_impl; [exact Hc|]. by intros c [? _]. }
      rewrite Forall_forall in Hall. by apply (Hall _ Hin). }
    rewrite Hsep. cbn [mbind result_bind]. do 3 f_equal.
    subst p. rewrite (split_runs_join l Hl Hw), (filter_nonempty_words l Hw).
    subst l. apply list_to_set_elements_L.
  - intros ->. cbn [py_str]. unfold ExtensionsFilter.__str__.
    cbn [ExtensionsFilter.ext ExtensionsFilter.inclusive
         ExtensionsFilter.case_sensitive].
    rewrite elements_empty. cbn [PyStr.join].
    destruct case_sensitive, inclusive, pf;
      eexists; vm_compute; reflexivity.
Qed.

Lemma ext_render_roundtrip_witness :
  ∃ f, ExtensionsFilter.__init__ Windows (py ".TXT; .md") false true = Ok f
       ∧ (ExtensionsFilter.ext f ≠ ∅ →
          create_filter Windows re_compile_plain (py_str (Extensions f))
          = Ok (Extensions f))
       ∧ (ExtensionsFilter.ext f = ∅ →
          ∃ t, create_filter Windows re_compile_plain (py_str (Extensions f))
               = Ok (Tail t)).
Proof.
  eexists. split; [reflexivity|].
  apply (ext_render_roundtrip Windows re_compile_plain (py ".TXT; .md")
           false true).
  reflexivity.
Defined.

(** ** The rendering of a tail filter

    The sign and [case:] are read as such in front of the separator,
    which cannot start the properties; what is left is an absolute
    path. *)

Lemma repeat_greedy_none_reached (c : Re.cset) (min cnt : nat) (sn ah : str)
    (gs : list (nat * str)) (k : Re.mstate → Re.outcome) :
  (∀ pre suf, ah = pre ++ suf → Forall (λ a, Re.mem c a = true) pre →
     (min ≤ cnt + length pre)%nat →
     k (Re.MState (rev pre ++ sn) suf gs) = None) →
  Re.repeat_greedy c min cnt sn ah gs k = None.
Proof.
  intros Hk. destruct (Re.repeat_greedy c min cnt sn ah gs k) as [g|] eqn:E;
    [|reflexivity].
  apply repeat_greedy_some_inv in E as (pre & suf & -> & Hpre & Hle & Hg).
  by rewrite (Hk pre suf eq_refl Hpre Hle) in Hg.
Qed.

(** What follows the pattern is white space only, and whether it is
    accepted depends on the last character of the pattern alone. *)
Lemma tail_blank (sn suf : str) (gs : list (nat * str)) :
  is_Some (Re.run RE_TAIL (Re.MState sn suf gs) match_end) →
  Forall (λ c, PyStr.isspace c = true) suf
  ∧ ∀ sn' gs', head sn' = head sn →
      is_Some (Re.run RE_TAIL (Re.MState sn' suf gs') match_end).
Proof.
  unfold RE_TAIL. rewrite !run_seq.
  cbn [Re.run Re.seen Re.ahead Re.groups]. intros [g H].
  assert (Hrep : Re.repeat_greedy RE_SPACE 0 0 sn suf gs
                   (λ st', Re.run Re.Eol st' match_end) = Some g).
  { destruct sn as [|a sn]; [exact H|].
    destruct (Re.mem RE_SPACE a); [discriminate|exact H]. }
  apply repeat_greedy_some_inv in Hrep as (pre & end_ & -> & Hpre & _ & Hk).
  cbn [Re.run Re.ahead] in Hk.
  assert (Hend : Forall (λ c, PyStr.isspace c = true) end_).
  { destruct end_ as [|a [|b end_]]; [constructor| |discriminate].
    destruct (Ascii.eqb a "010") eqn:Ea; [|discriminate].
    apply Ascii.eqb_eq in Ea as ->. by repeat constructor. }
  split.
  - apply Forall_app. split; [|exact Hend].
    eapply Forall_impl; [exact Hpre|]. intros c Hc. by rewrite <- space_mem.
  - intros sn' gs' Hhead.
    assert (Hrep' : is_Some (Re.repeat_greedy RE_SPACE 0 0 sn' (pre ++ end_) gs'
                               (λ st', Re.run Re.Eol st' match_end))).
    { apply repeat_greedy_some; [exact Hpre|lia|].
      cbn [Re.run Re.ahead].
      destruct end_ as [|a [|b end_]]; [by eexists| |discriminate].
      destruct (Ascii.eqb a "010"); [by eexists|discriminate]. }
    destruct sn as [|a sn], sn' as [|a' sn']; try discriminate Hhead;
      [exact Hrep'|].
    injection Hhead as ->.
    destruct (Re.mem RE_SPACE a); [discriminate|exact Hrep'].
Qed.

Lemma split_at_nonspace (pre0 rest G suf : str) (c : ascii) :
  pre0 ++ c :: rest = G ++ suf →
  Forall (λ c, PyStr.isspace c = true) suf →
  PyStr.isspace c = false →
  ∃ G2, G = pre0 ++ c :: G2 ∧ rest = G2 ++ suf.
Proof.
  intros E Hsuf Hc. revert G E.
  induction pre0 as [|x pre0 IH]; intros G E.
  - destruct G as [|y G].
    + simpl in E. subst suf. inversion Hsuf; congruence.
    + injection E as -> E. by exists G.
  - destruct G as [|y G].
    + simpl in E. subst suf. exfalso.
      rewrite Forall_forall in Hsuf.
      assert (c ∈ (x :: pre0) ++ c :: rest) as Hin by set_solver.
      specialize (Hsuf c Hin). congruence.
    + injection E as -> E. destruct (IH G E) as (G2 & -> & ->). by exists G2.
Qed.

(** If the pattern part matches from some position, it matches from every
    later position that holds a character other than white space. *)
Lemma pattern_from_nonspace (pre0 rest sn sn' : str) (c : ascii)
    (gs gs' : list (nat * str)) :
  PyStr.isspace c = false →
  is_Some (Re.run RE_PATTERN (Re.MState sn (pre0 ++ c :: rest) gs) match_end) →
  is_Some (Re.run RE_PATTERN (Re.MState sn' (c :: rest) gs') match_end).
Proof.
  intros Hc [g H].
  apply pattern_inv in H as (a & pre & suf & E & Hdot & _ & _ & Ht).
  apply tail_blank in Ht as [Hsuf Hblind].
  change (a :: pre ++ suf) with ((a :: pre) ++ suf) in E.
  destruct (split_at_nonspace _ _ _ _ _ E Hsuf Hc) as (G2 & EG & ->).
  rewrite EG in Hdot, Hblind. apply Forall_app in Hdot as [_ Hdot].
  unfold RE_PATTERN. rewrite run_seq.
  cbn [Re.run Re.seen Re.ahead Re.groups].
  change (c :: G2 ++ suf) with ((c :: G2) ++ suf).
  apply repeat_greedy_some; [exact Hdot|simpl; lia|].
  cbn [Re.seen Re.ahead Re.groups]. apply Hblind.
  rewrite rev_app_distr. cbn [rev]. rewrite <- !app_assoc.
  destruct (rev G2); reflexivity.
Qed.

Lemma run_opt (r : Re.regex) (st : Re.mstate) (k : Re.mstate → Re.outcome) :
  Re.run (Re.Opt r) st k
  = match Re.run r st k with Some g => Some g | None => k st end.
Proof. reflexivity. Qed.

Lemma run_bol (s : str) (gs : list (nat * str))
    (k : Re.mstate → Re.outcome) :
  Re.run Re.Bol (Re.MState [] s gs) k = k (Re.MState [] s gs).
Proof. reflexivity. Qed.

Lemma run_repeat (min : nat) (c : Re.cset) (sn ah : str)
    (gs : list (nat * str)) (k : Re.mstate → Re.outcome) :
  Re.run (Re.Repeat min c) (Re.MState sn ah gs) k
  = Re.repeat_greedy c min 0 sn ah gs k.
Proof. reflexivity. Qed.

Lemma run_char (c : Re.cset) (a : ascii) (sn ah : str)
    (gs : list (nat * str)) (k : Re.mstate → Re.outcome) :
  Re.run (Re.Char c) (Re.MState sn (a :: ah) gs) k
  = if Re.mem c a then k (Re.MState (a :: sn) ah gs) else None.
Proof. reflexivity. Qed.

Lemma run_group (n : nat) (r : Re.regex) (st : Re.mstate)
    (k : Re.mstate → Re.outcome) :
  Re.run (Re.Group n r) st k
  = Re.run r st
      (λ st', k (Re.MState (Re.seen st') (Re.ahead st')
                   ((n, Re.between st st') :: Re.groups st'))).
Proof. reflexivity. Qed.

Lemma repeat_greedy_stop (c : Re.cset) (min cnt : nat) (a : ascii)
    (sn ah : str) (gs : list (nat * str)) (k : Re.mstate → Re.outcome) :
  Re.mem c a = false →
  Re.repeat_greedy c min cnt sn (a :: ah) gs k
  = if (min <=? cnt)%nat then k (Re.MState sn (a :: ah) gs) else None.
Proof. intros H. cbn [Re.repeat_greedy]. by rewrite H. Qed.

Lemma repeat_greedy_step (c : Re.cset) (min cnt : nat) (a : ascii)
    (sn ah : str) (gs : list (nat * str)) (k : Re.mstate → Re.outcome) :
  Re.mem c a = true →
  Re.repeat_greedy c min cnt sn (a :: ah) gs k
  = match Re.repeat_greedy c min (S cnt) (a :: sn) ah gs k with
    | Some g => Some g
    | None => if (min <=? cnt)%nat then k (Re.MState sn (a :: ah) gs)
              else None
    end.
Proof. intros H. cbn [Re.repeat_greedy]. by rewrite H. Qed.

(** The properties are passed over in front of a character that cannot
    start them. *)
Lemma props_skipped (c0 : ascii) (sn r : str) (gs : list (nat * str)) :
  Re.mem (Re.OneOf [Re.Lit ":"]) c0 = false →
  Re.mem props_chars c0 = false →
  Re.run (Re.Seq RE_PROPS RE_PATTERN) (Re.MState sn (c0 :: r) gs) match_end
  = Re.run RE_PATTERN (Re.MState sn (c0 :: r) gs) match_end.
Proof.
  intros H1 H2. rewrite run_seq. unfold RE_PROPS. rewrite run_opt, !run_seq.
  rewrite run_opt. cbn [Re.run Re.seen Re.ahead Re.groups Re.repeat_greedy].
  rewrite H1, H2. reflexivity.
Qed.

(** A sign and a blank in front of text that does not start with white
    space are read as the sign. *)
Lemma sign_read (sg c1 : ascii) (r : str) (rem : list (nat * str)) :
  sg = "+"%char ∨ sg = "-"%char →
  PyStr.isspace c1 = false →
  Re.match_ EXPRESSION_REGEX (sg :: " "%char :: c1 :: r) = Some rem →
  Re.run (Re.Seq RE_PROPS RE_PATTERN)
    (Re.MState [" "%char; sg] (c1 :: r) [(1%nat, [sg])]) match_end
  = Some rem.
Proof.
  intros Hsg Hc1.
  assert (Hsg1 : Re.mem RE_SPACE sg = false) by (by destruct Hsg as [-> | ->]).
  assert (Hsg2 : Re.mem (Re.OneOf [Re.Lit "+"; Re.Lit "-"]) sg = true)
    by (by destruct Hsg as [-> | ->]).
  assert (Hsg3 : Re.mem (Re.OneOf [Re.Lit ":"]) sg = false)
    by (by destruct Hsg as [-> | ->]).
  assert (Hsg4 : Re.mem props_chars sg = false)
    by (by destruct Hsg as [-> | ->]).
  change (Re.match_ ?r ?s) with (Re.run r (Re.MState [] s []) match_end).
  rewrite expression_regex_parts, run_seq, run_bol.
  rewrite run_seq, run_repeat, (repeat_greedy_stop _ _ _ _ _ _ _ _ Hsg1).
  cbn [Nat.leb]. rewrite run_seq. unfold RE_SIGN.
  rewrite run_opt, run_seq, run_group, run_char, Hsg2.
  cbn [Re.seen Re.ahead Re.groups]. unfold Re.between.
  cbn [Re.seen length Nat.sub take rev app].
  rewrite run_repeat, repeat_greedy_step by reflexivity.
  rewrite repeat_greedy_stop by (by rewrite space_mem).
  cbn [Nat.leb].
  cbv beta. intros H.
  match type of H with
  | match match ?X with _ => _ end with _ => _ end = _ =>
      destruct X as [g|] eqn:E
  end; [injection H as <-; exact E|].
  exfalso. cbv iota in H.
  rewrite props_skipped in H by assumption.
  assert (Hs : is_Some (Re.run RE_PATTERN
                          (Re.MState [" "%char; sg] (c1 :: r)
                             [(1%nat, [sg])]) match_end)).
  { apply (pattern_from_nonspace [sg; " "%char] r [] _ c1 [] _ Hc1).
    by eexists. }
  rewrite run_seq in E. unfold RE_PROPS in E. rewrite run_opt in E.
  destruct (Re.run _ _ _) in E; [discriminate|].
  destruct Hs as [g Hs]. discriminate (eq_trans (eq_sym Hs) E).
Qed.

(** The properties [case:] in front of text that does not start with white
    space are read as such, or not at all. *)
Lemma case_read (c1 : ascii) (sn r : str) (gs : list (nat * str)) :
  PyStr.isspace c1 = false →
  Re.run (Re.Seq RE_PROPS RE_PATTERN)
    (Re.MState sn (py "case: " ++ c1 :: r) gs) match_end
  = match Re.run RE_PATTERN
            (Re.MState (rev (py "case: ") ++ sn) (c1 :: r)
               ((2%nat, py "case") :: gs)) match_end with
    | Some g => Some g
    | None =>
        Re.run RE_PATTERN (Re.MState sn (py "case: " ++ c1 :: r) gs) match_end
    end.
Proof.
  intros Hc1. rewrite run_seq. unfold RE_PROPS. rewrite run_opt. f_equal.
  rewrite run_seq, run_opt.
  change (py "case: " ++ c1 :: r)
    with ("c"%char :: "a"%char :: "s"%char :: "e"%char :: ":"%char
          :: " "%char :: c1 :: r).
  rewrite run_char. change (Re.mem (Re.OneOf [Re.Lit ":"]) "c") with false.
  cbv iota. rewrite run_seq, run_group, run_repeat.
  rewrite !repeat_greedy_step by reflexivity.
  rewrite repeat_greedy_stop by reflexivity.
  cbn [Nat.leb]. cbv beta. cbn [Re.seen Re.ahead Re.groups].
  rewrite !run_seq, !run_char.
  change (Re.mem (Re.OneOf [Re.Lit ":"]) " ") with false.
  change (Re.mem (Re.OneOf [Re.Lit ":"]) ":") with true.
  change (Re.mem (Re.OneOf [Re.Lit ":"]) "e") with false.
  change (Re.mem (Re.OneOf [Re.Lit ":"]) "s") with false.
  cbv iota. rewrite run_repeat.
  rewrite repeat_greedy_step by reflexivity.
  rewrite repeat_greedy_stop by (by rewrite space_mem).
  cbn [Nat.leb].
  change ("e"%char :: "s"%char :: "a"%char :: "c"%char :: sn)
    with (rev (py "case") ++ sn).
  rewrite between_consumed.
  change (" "%char :: ":"%char :: rev (py "case") ++ sn)
    with (rev (py "case: ") ++ sn).
  by destruct (Re.run RE_PATTERN _ match_end).
Qed.

Lemma pattern_inv_clean (sn ah : str) (gs g : list (nat * str)) (c : ascii) :
  PyStr.isspace c = false →
  Re.run RE_PATTERN (Re.MState sn (c :: ah) gs) match_end = Some g →
  ∃ G, g = (3%nat, c :: G) :: gs ∧ clean_pattern (c :: G).
Proof.
  intros Hc H.
  apply pattern_inv in H
    as (a & pre & suf & [= <- _] & Hdot & -> & (z & l & Hrev & Hz) & _).
  exists pre. split; [reflexivity|].
  split; [by exists c, pre|]. split; [by exists z, l|exact Hdot].
Qed.

(** How the expression reads the rendering of a tail filter, when it reads
    it at all: the pattern starts at the separator. *)
Lemma tail_rendering_parse (inclusive cs : bool) (c : ascii) (q : str)
    (rem : list (nat * str)) :
  PyStr.isspace c = false →
  Re.mem (Re.OneOf [Re.Lit ":"]) c = false →
  Re.mem props_chars c = false →
  Re.match_ EXPRESSION_REGEX
    (sign_str inclusive ++ (if cs then py "case: " else []) ++ c :: q)
  = Some rem →
  ∃ G, Re.group rem 3 = Some (c :: G) ∧ clean_pattern (c :: G)
       ∧ Re.group rem 2 = (if cs then Some (py "case") else None).
Proof.
  intros Hc1 Hc2 Hc3 H.
  set (sg := if inclusive then "+"%char else "-"%char).
  assert (Hsg : sg = "+"%char ∨ sg = "-"%char)
    by (destruct inclusive; [by left|by right]).
  assert (Hs : sign_str inclusive = [sg; " "%char]) by (by destruct inclusive).
  rewrite Hs in H. destruct cs.
  - change ([sg; " "%char] ++ py "case: " ++ c :: q)
      with (sg :: " "%char :: "c"%char :: py "ase: " ++ c :: q) in H.
    apply sign_read in H; [|exact Hsg|reflexivity].
    change ("c"%char :: py "ase: " ++ c :: q) with (py "case: " ++ c :: q)
      in H.
    rewrite case_read in H by exact Hc1.
    match type of H with
    | match ?X with _ => _ end = _ => destruct X as [g|] eqn:E
    end.
    + injection H as ->.
      apply pattern_inv_clean in E as (G & -> & Hclean); [|exact Hc1].
      by exists G.
    + exfalso.
      assert (Hp : is_Some (Re.run RE_PATTERN
                (Re.MState (rev (py "case: ") ++ [" "%char; sg]) (c :: q)
                   [(2%nat, py "case"); (1%nat, [sg])]) match_end)).
      { apply (pattern_from_nonspace (py "case: ") q [" "%char; sg] _ c
                 [(1%nat, [sg])] _ Hc1).
        by eexists. }
      destruct Hp as [g Hp]. discriminate (eq_trans (eq_sym Hp) E).
  - change ([sg; " "%char] ++ [] ++ c :: q)
      with (sg :: " "%char :: c :: q) in H.
    apply sign_read in H; [|exact Hsg|exact Hc1].
    rewrite props_skipped in H by assumption.
    apply pattern_inv_clean in H as (G & -> & Hclean); [|exact Hc1].
    by exists G.
Qed.

Lemma sep_plain (pf : platform) :
  PyStr.isspace (OsPath.sep pf) = false
  ∧ Re.mem (Re.OneOf [Re.Lit ":"]) (OsPath.sep pf) = false
  ∧ Re.mem props_chars (OsPath.sep pf) = false.
Proof. by destruct pf. Qed.

Lemma rooted_at_sep (pf : platform) (t : str) :
  absolute_or_drive pf (OsPath.sep pf :: t).
Proof.
  destruct pf.
  - by left.
  - destruct (nt_rooted_sep NtPath.sep t eq_refl) as [H|H]; [by right|by left].
Qed.

(** X22.  The rendering of a tail filter never compiles: for every filter
    that [PathTailFilter.__init__] builds, [create_filter(str(f))] raises
    [ValueError].  The stored pattern starts with the separator, so the
    rendering is refused as an absolute path whenever the expression reads
    it at all. *)
Theorem tail_render_rejected (pf : platform) (rc : re_compiler)
    (pattern : str) (case_sensitive inclusive : bool)
    (f : PathTailFilter.t) :
  PathTailFilter.__init__ pf pattern case_sensitive inclusive = Ok f →
  create_filter pf rc (py_str (Tail f))
    = Raise (ValueError "invalid filter expression")
  ∨ create_filter pf rc (py_str (Tail f))
    = Raise (ValueError "absolute path in filter").
Proof.
  intros Hinit.
  apply tail_init_fields in Hinit as (Hp & _ & _ & _ & Hi & Hcs).
  cbn [py_str]. unfold PathTailFilter.__str__. rewrite Hp, Hi, Hcs.
  set (q := compared_path pf case_sensitive pattern).
  assert (Hs : (if case_sensitive then sign_str inclusive ++ py "case: "
                else sign_str inclusive) ++ OsPath.sep pf :: q
               = sign_str inclusive
                 ++ (if case_sensitive then py "case: " else [])
                 ++ OsPath.sep pf :: q).
  { destruct case_sensitive; [by rewrite <- app_assoc|reflexivity]. }
  rewrite Hs. clear Hs. unfold create_filter.
  destruct (Re.match_ EXPRESSION_REGEX _) as [rem|] eqn:Hrem; [|by left].
  right. destruct (sep_plain pf) as (H1 & H2 & H3).
  apply tail_rendering_parse in Hrem as (G & Hg3 & Hclean & Hg2);
    try assumption.
  destruct (clean_pattern_strip _ Hclean) as [_ Hstrip].
  rewrite Hg3, Hg2. unfold default, from_option, id. rewrite Hstrip.
  replace (PyStr.eqb (OsPath.sep pf :: G) (OsPath.sep pf :: G)) with true
    by (symmetry; apply bool_decide_eq_true_2; reflexivity).
  assert (Hn : Filter.norm_path pf (OsPath.sep pf :: G) true
               = Raise (ValueError "absolute path in filter"))
    by apply norm_path_rejects_absolute, rooted_at_sep.
  destruct case_sensitive; cbn -[PathShellFilter.__init__ PathTailFilter.__init__
                                 OsPath.splitdrive Glob.has_magic];
    destruct (_ && _);
    [unfold PathShellFilter.__init__|unfold PathTailFilter.__init__
    |unfold PathShellFilter.__init__|unfold PathTailFilter.__init__];
    by rewrite Hn.
Qed.

Lemma tail_render_rejected_witness :
  ∃ f, PathTailFilter.__init__ Windows (py "Dir/Test") true false = Ok f
       ∧ (create_filter Windows re_compile_plain (py_str (Tail f))
          = Raise (ValueError "invalid filter expression")
          ∨ create_filter Windows re_compile_plain (py_str (Tail f))
            = Raise (ValueError "absolute path in filter")).
Proof.
  eexists. split; [vm_compute; reflexivity|].
  apply (tail_render_rejected Windows re_compile_plain (py "Dir/Test")
           true false).
  vm_compute. reflexivity.
Defined.

(** ** Case folding and the hidden attribute *)

(** X23.  [norm_case] is idempotent, on both platforms: folding a folded
    string changes nothing. *)
Theorem norm_case_idempotent (pf : platform) (s : str) :
  Filter.norm_case pf (Filter.norm_case pf s) = Filter.norm_case pf s.
Proof.
  rewrite !norm_case_chars, map_map. apply map_ext. apply norm_char_idem.
Qed.

(** X24.  An entry whose path starts with [.] is answered as if it had the
    hidden attribute.  The test reads the first character of the path of
    the entry, not of its name. *)
Theorem attr_match_leading_dot (get_file_attributes : str → Z)
    (f : WinAttrFilter.t) (name t : str) (a : Z) :
  WinAttrFilter.match_ get_file_attributes f
    (Entry name ("."%char :: t) (Some a))
  = WinAttrFilter.match_ get_file_attributes f
      (Entry name ("."%char :: t)
         (Some (Z.lor a Stat.FILE_ATTRIBUTE_HIDDEN))).
Proof.
  unfold WinAttrFilter.match_. cbn [item0 mbind result_bind].
  rewrite Ascii.eqb_refl.
  assert (H : (Z.land (Z.lor a Stat.FILE_ATTRIBUTE_HIDDEN)
                 Stat.FILE_ATTRIBUTE_HIDDEN =? 0) = false).
  { apply Z.eqb_neq. intros E.
    apply (f_equal (λ z, Z.testbit z 1)) in E.
    rewrite Z.land_spec, Z.lor_spec in E. cbn in E.
    rewrite orb_true_r in E. discriminate E. }
  rewrite H. destruct (Z.land a Stat.FILE_ATTRIBUTE_HIDDEN =? 0) eqn:E;
    cbn [mbind result_bind]; [reflexivity|].
  assert (Z.lor a Stat.FILE_ATTRIBUTE_HIDDEN = a) as ->; [|reflexivity].
  apply Z.eqb_neq in E. apply Z.bits_inj'. intros n Hn.
  rewrite Z.lor_spec. destruct (Z.testbit a n) eqn:Ea; [reflexivity|].
  simpl. destruct (decide (n = 1)) as [->|Hne].
  - exfalso. apply E. apply Z.bits_inj'. intros k Hk.
    rewrite Z.land_spec, Z.bits_0. destruct (decide (k = 1)) as [->|Hk1].
    + by rewrite Ea.
    + replace (Z.testbit Stat.FILE_ATTRIBUTE_HIDDEN k) with false;
        [by rewrite andb_false_r|].
      symmetry. unfold Stat.FILE_ATTRIBUTE_HIDDEN.
      change 2 with (2 ^ 1). apply Z.pow2_bits_false. congruence.
  - unfold Stat.FILE_ATTRIBUTE_HIDDEN. change 2 with (2 ^ 1).
    apply Z.pow2_bits_false. congruence.
Qed.

(** ** Tail filters of several components *)

Lemma rfind_from_at (c : ascii) (A B : str) (i : nat) :
  c ∉ B → PyStr.rfind_from c (A ++ c :: B) i = Some (i + length A)%nat.
Proof.
  intros HB. revert i. induction A as [|a A IH]; intros i.
  - cbn [app PyStr.rfind_from length].
    rewrite rfind_from_absent by (by apply contains_false).
    rewrite Ascii.eqb_refl. f_equal. lia.
  - cbn [app PyStr.rfind_from length]. rewrite IH. f_equal. lia.
Qed.

Lemma rindex_component (sep : ascii) (A w rest : str) :
  component sep w →
  rindex sep (A ++ sep :: w ++ rest) 0
    (Z.of_nat (length A + 1 + length w) - 1)
  = Ok (Z.of_nat (length A)).
Proof.
  intros [Hne Hw]. unfold rindex, PyStr.rfind.
  set (s := A ++ sep :: w ++ rest).
  assert (Hlen : length s = (length A + 1 + length w + length rest)%nat).
  { subst s. rewrite length_app. cbn [length]. rewrite length_app. lia. }
  assert (H0 : PyStr.clip (length s) 0 = 0%nat)
    by (unfold PyStr.clip; simpl; lia).
  assert (H1 : PyStr.clip (length s)
                 (Z.of_nat (length A + 1 + length w) - 1)
               = (length A + length w)%nat).
  { unfold PyStr.clip. case Z.ltb_spec; lia. }
  rewrite H0, H1. change (drop 0 ?l) with l.
  assert (Ht : take (length A + length w) s
               = A ++ sep :: take (length w - 1) w).
  { subst s. rewrite take_app_add'; [|reflexivity].
    f_equal. destruct w as [|a w]; [done|].
    cbn [length]. rewrite Nat.sub_succ, Nat.sub_0_r.
    change (sep :: (a :: w) ++ rest) with (sep :: ((a :: w) ++ rest)).
    cbn [take]. f_equal. apply take_app_le. cbn [length]. lia. }
  rewrite Ht, rfind_from_at; [reflexivity|].
  intros Hin. apply Hw. eapply elem_of_sublist; [exact Hin|].
  apply sublist_take.
Qed.

Lemma with_seps_snoc (sep : ascii) (comps : list str) (w : str) :
  with_seps sep (comps ++ [w]) = with_seps sep comps ++ sep :: w.
Proof.
  unfold with_seps. rewrite map_app, concat_app. simpl.
  by rewrite app_nil_r.
Qed.

(** The loop of [match] walks back over the components, one separator at a
    time. *)
Lemma tail_pos_components (sep : ascii) (u : str) (comps : list str) :
  Forall (component sep) comps →
  ∀ rest,
    PathTailFilter.tail_pos sep (u ++ with_seps sep comps ++ rest)
      (length comps)
      (Z.of_nat (length u + length (with_seps sep comps)))
    = Ok (Z.of_nat (length u)).
Proof.
  induction comps as [|w comps IH] using rev_ind; intros Hc rest.
  - cbn. by rewrite Nat.add_0_r.
  - apply Forall_app in Hc as [Hc Hw]. inversion Hw as [|? ? Hw' _]; subst.
    rewrite length_app, Nat.add_1_r, with_seps_snoc. cbn [PathTailFilter.tail_pos].
    rewrite <- !app_assoc, <- app_comm_cons.
    rewrite (app_assoc u (with_seps sep comps)).
    replace (Z.of_nat (length u + length (with_seps sep comps ++ sep :: w)))
      with (Z.of_nat (length (u ++ with_seps sep comps) + 1 + length w)).
    2:{ rewrite !length_app. cbn [length]. lia. }
    rewrite rindex_component by exact Hw'. cbn [mbind result_bind].
    rewrite <- app_assoc, length_app.
    exact (IH Hc (sep :: w ++ rest)).
Qed.

(** X25.  A tail filter of two components or more finds its components at
    the end of a candidate: if the normalised candidate ends with the
    components, each with the separator in front, and the stored pattern is
    these components (case-folded unless the filter is case sensitive) with
    [seps_count] their number, then [match] answers [True], whatever comes
    before them. *)
Theorem tail_match_components (pf : platform) (f : PathTailFilter.t)
    (path u : str) (comps : list str) :
  (2 ≤ length comps)%nat →
  PathTailFilter.seps_count f = length comps →
  Forall (component (OsPath.sep pf)) comps →
  OsPath.normpath pf path = u ++ with_seps (OsPath.sep pf) comps →
  PathTailFilter.pattern f
  = (if PathTailFilter.case_sensitive f
     then with_seps (OsPath.sep pf) comps
     else Filter.norm_case pf (with_seps (OsPath.sep pf) comps)) →
  PathTailFilter.match_ pf f path = Ok true.
Proof.
  intros Hlen Hk Hc Hn Hp. unfold PathTailFilter.match_, Filter.norm_path.
  cbn [mbind result_bind]. rewrite Hk.
  assert (Hb : ((length comps =? 0)%nat || (length comps =? 1)%nat) = false)
    by (destruct (length comps) as [|[|?]]; [lia|lia|reflexivity]).
  rewrite Hb, Hn.
  set (ws := with_seps (OsPath.sep pf) comps) in *.
  rewrite length_app.
  pose proof (tail_pos_components (OsPath.sep pf) u comps Hc []) as Ht.
  fold ws in Ht. rewrite app_nil_r in Ht. rewrite Ht.
  cbn [mbind result_bind].
  assert (Hs : (if 0 <? Z.of_nat (length u)
                then PyStr.slice_from (u ++ ws) (Z.of_nat (length u))
                else u ++ ws) = ws).
  { case Z.ltb_spec; intros Hu.
    - unfold PyStr.slice_from, PyStr.clip.
      case Z.ltb_spec; [lia|]. intros _. rewrite length_app.
      replace (Z.to_nat _) with (length u) by lia.
      by rewrite drop_app_length.
    - destruct u; [reflexivity|simpl in Hu; lia]. }
  rewrite Hs.
  assert (Hw : ∃ t, ws = OsPath.sep pf :: t).
  { subst ws. destruct comps as [|w comps]; [simpl in Hlen; lia|].
    by eexists. }
  destruct Hw as [t Hw].
  assert (Hhead : ∃ t', PathTailFilter.pattern f = OsPath.sep pf :: t').
  { rewrite Hp, Hw. destruct (PathTailFilter.case_sensitive f); [by eexists|].
    rewrite norm_case_chars. cbn [map]. exists (map (norm_char pf) t).
    f_equal. by destruct pf. }
  destruct Hhead as [t' Hhead].
  replace (if negb (PathTailFilter.case_sensitive f)
           then Filter.norm_case pf ws else ws)
    with (PathTailFilter.pattern f)
    by (rewrite Hp; by destruct (PathTailFilter.case_sensitive f)).
  rewrite Hhead. cbn [item0 mbind result_bind]. rewrite Ascii.eqb_refl.
  cbn [negb]. rewrite <- Hhead. unfold PathTailFilter.compare_tail.
  rewrite Z.sub_diag. cbn. f_equal. apply bool_decide_eq_true_2. reflexivity.
Qed.

Lemma tail_match_components_witness :
  ∃ f, PathTailFilter.__init__ Windows (py "Dir/Test") false true = Ok f
       ∧ PathTailFilter.match_ Windows f (py "C:/Foo/Dir/Test") = Ok true.
Proof.
  eexists. split; [vm_compute; reflexivity|].
  apply (tail_match_components Windows _ (py "C:/Foo/Dir/Test") (py "C:\Foo")
           [py "Dir"; py "Test"]).
  - simpl. lia.
  - reflexivity.
  - repeat constructor; try discriminate; by apply contains_false.
  - vm_compute. reflexivity.
  - vm_compute. reflexivity.
Defined.
